(** * StorageMergeTreeIndex: the index of a MergeTree table read as a relation

    A shallow embedding of [src/Storages/StorageMergeTreeIndex.cpp]:
    [MergeTreeIndexSource::generate], [MergeTreeIndexSource::fillMarks],
    [MergeTreeIndexSource::createMarksLoader], the constructor of
    [StorageMergeTreeIndex], [StorageMergeTreeIndex::read] and
    [StorageMergeTreeIndex::getFilteredDataParts].

    Exceptions and the calls made to the mark loader and to the filter
    evaluator are threaded through a small error-and-trace monad, so that
    "raises", "does not call" and "calls once per granule" are statements
    about the value a function returns. *)

From stdpp Require Import base option list strings gmap.
From Stdlib Require Import NArith ZArith Ascii Lia.

Set Warnings "-register-all".
Open Scope string_scope.
Open Scope list_scope.

(** ** Values, columns and data types *)

(** [Field]: one value of a column row. *)
Inductive Field : Type :=
| FieldNull
| FieldUInt64 (value : N)
| FieldString (value : string)
| FieldTuple (elements : list Field).

(** [IColumn]: the column classes the source creates or passes on.
    [ColumnNullable] pairs the nested column with its null map (a
    [ColumnUInt8]: a nonzero byte marks a null row). *)
Inductive IColumn : Type :=
| ColumnUInt64 (data : list N)
| ColumnString (data : list string)
| ColumnNullable (nested : IColumn) (null_map : list N)
| ColumnTuple (columns : list IColumn).

Abbreviation Columns := (list IColumn).

Inductive IDataType : Type :=
| DataTypeUInt64
| DataTypeString
| DataTypeNullable (nested : IDataType)
| DataTypeTuple (elems : list IDataType).

(** [IColumn::size]. *)
Fixpoint column_size (c : IColumn) : nat :=
  match c with
  | ColumnUInt64 data => length data
  | ColumnString data => length data
  | ColumnNullable _ null_map => length null_map
  | ColumnTuple columns =>
      match columns with
      | [] => 0
      | c0 :: _ => column_size c0
      end
  end.

(** [IColumn::operator[]]: the row [i] as a [Field]; [None] out of range. *)
Fixpoint column_at (c : IColumn) (i : nat) : option Field :=
  match c with
  | ColumnUInt64 data => FieldUInt64 <$> data !! i
  | ColumnString data => FieldString <$> data !! i
  | ColumnNullable nested null_map =>
      match null_map !! i with
      | None => None
      | Some 0%N => column_at nested i
      | Some _ => Some FieldNull
      end
  | ColumnTuple columns =>
      FieldTuple <$>
        (fix rows (cs : list IColumn) : option (list Field) :=
           match cs with
           | [] => Some []
           | c0 :: cs' =>
               match column_at c0 i, rows cs' with
               | Some f, Some fs => Some (f :: fs)
               | _, _ => None
               end
           end) columns
  end.

(** Modelled from the spec: [IDataType::getDefault] is declared outside
    this file.  Section 4.4 fixes what matters here: the default of the
    bookmark type is a tuple value built from the defaults of its two
    nullable fields, it is never a null row. *)
Fixpoint getDefault (t : IDataType) : Field :=
  match t with
  | DataTypeUInt64 => FieldUInt64 0
  | DataTypeString => FieldString ""
  | DataTypeNullable _ => FieldNull
  | DataTypeTuple elems => FieldTuple (map getDefault elems)
  end.

(** Modelled from the spec: [IDataType::createColumnConstWithDefaultValue]
    followed by [convertToFullColumnIfConst] (both declared outside this
    file): a full column of [n] rows, every row the default of the type. *)
Fixpoint createColumnConstWithDefaultValue (t : IDataType) (n : nat) : IColumn :=
  match t with
  | DataTypeUInt64 => ColumnUInt64 (replicate n 0%N)
  | DataTypeString => ColumnString (replicate n "")
  | DataTypeNullable nested =>
      ColumnNullable (createColumnConstWithDefaultValue nested n) (replicate n 1%N)
  | DataTypeTuple elems =>
      ColumnTuple (map (fun e => createColumnConstWithDefaultValue e n) elems)
  end.

(** [IDataType::createColumn]: the empty column of a type. *)
Fixpoint createColumn (t : IDataType) : IColumn :=
  match t with
  | DataTypeUInt64 => ColumnUInt64 []
  | DataTypeString => ColumnString []
  | DataTypeNullable nested => ColumnNullable (createColumn nested) []
  | DataTypeTuple elems => ColumnTuple (map createColumn elems)
  end.

(** ** Exceptions *)

(** The error codes the file declares, [LOGICAL_ERROR] (what a failed
    [assert_cast] reports), the codes of the collaborators, and [UNDEFINED]
    for an execution C++ gives no meaning to (a vector read out of range,
    a null loader dereferenced). *)
Inductive ErrorCode : Type :=
| BAD_ARGUMENTS
| NO_SUCH_COLUMN_IN_TABLE
| NOT_IMPLEMENTED
| LOGICAL_ERROR
| UNDEFINED
| OTHER_ERROR (number : nat).

Record Exception : Type := mkException { code : ErrorCode; message : string }.

Inductive Result (A : Type) : Type :=
| Ok (a : A)
| Throw (e : Exception).
Arguments Ok {A} a.
Arguments Throw {A} e.

(** ** Blocks *)

Record ColumnWithTypeAndName : Type :=
  mkColumnWithTypeAndName { col_type : IDataType; col_name : string }.

Abbreviation Block := (list ColumnWithTypeAndName).

(** [Block::has]. *)
Definition has (b : Block) (n : string) : bool :=
  existsb (fun c => bool_decide (col_name c = n)) b.

(** [Block::getPositionByName] on a name the block has: the position of
    its entry. *)
Fixpoint getPositionByName (b : Block) (n : string) : nat :=
  match b with
  | [] => 0
  | c :: b' => if bool_decide (col_name c = n) then 0 else S (getPositionByName b' n)
  end.

(** ** Parts *)

(** Modelled from the spec: [MergeTreeDataPartType] is declared outside
    this file; section 4.3 names the wide and the compact layout and "any
    other physical layout", kept here with the name [getTypeName] prints. *)
Inductive MergeTreeDataPartType : Type :=
| Wide
| Compact
| OtherType (type_name : string).

Definition toString (t : MergeTreeDataPartType) : string :=
  match t with
  | Wide => "Wide"
  | Compact => "Compact"
  | OtherType type_name => type_name
  end.

(** [MergeTreeIndexGranularity]: the row count of every mark, in order. *)
Abbreviation MergeTreeIndexGranularity := (list N).

Definition getMarksCount (g : MergeTreeIndexGranularity) : nat := length g.

Definition getMarkRows (g : MergeTreeIndexGranularity) (i : nat) : N :=
  default 0%N (g !! i).

Abbreviation Checksums := (list string).

Record IMergeTreeDataPart : Type := mkPart {
  name : string;
  part_type : MergeTreeDataPartType;
  index_granularity : MergeTreeIndexGranularity;
  index : Columns;
  checksums : Checksums;
  getColumns : list (string * IDataType)
}.

Abbreviation DataPartsVector := (list IMergeTreeDataPart).

Definition isWidePart (p : IMergeTreeDataPart) : bool :=
  match part_type p with Wide => true | _ => false end.

Definition isCompactPart (p : IMergeTreeDataPart) : bool :=
  match part_type p with Compact => true | _ => false end.

Definition getTypeName (p : IMergeTreeDataPart) : string := toString (part_type p).

(** Modelled from the spec: [IMergeTreeDataPart::getColumnPosition] is
    declared outside this file; by section 4.3 a column's position is its
    ordinal index within the part's column list, and it has none when the
    list does not hold it. *)
Fixpoint getColumnPosition_in (cols : list (string * IDataType)) (n : string) : option nat :=
  match cols with
  | [] => None
  | (n0, _) :: cols' =>
      if bool_decide (n0 = n) then Some 0 else S <$> getColumnPosition_in cols' n
  end.

Definition getColumnPosition (p : IMergeTreeDataPart) (n : string) : option nat :=
  getColumnPosition_in (getColumns p) n.

(** ** Mark loader *)

Record MarkInCompressedFile : Type := mkMark {
  offset_in_compressed_file : N;
  offset_in_decompressed_block : N
}.

(** What [createMarksLoader] hands to the [MergeTreeMarksLoader]
    constructor: the part, the stream whose marks file is read, the number
    of marks, and the number of columns per mark. *)
Record MergeTreeMarksLoader : Type := mkLoader {
  loader_part : string;
  loader_stream : string;
  loader_marks_count : nat;
  loader_num_columns : nat
}.

(** [MergeTreeDataPartCompact::DATA_FILE_NAME]. *)
Definition DATA_FILE_NAME : string := "data".

(** ** Effects: exceptions and the trace of calls to the collaborators *)

Inductive Event : Type :=
| CreateMarksLoader (loader : MergeTreeMarksLoader)
| GetMark (loader : MergeTreeMarksLoader) (row_index column_index : nat)
| FilterBlockWithQuery (part_names : list string).

Abbreviation Trace := (list Event).

Definition M (A : Type) : Type := Trace -> Result A * Trace.

Definition ret {A : Type} (a : A) : M A := fun tr => (Ok a, tr).

Definition throw {A : Type} (e : Exception) : M A := fun tr => (Throw e, tr).

Definition bind {A B : Type} (m : M A) (k : A -> M B) : M B :=
  fun tr =>
    match m tr with
    | (Ok a, tr') => k a tr'
    | (Throw e, tr') => (Throw e, tr')
    end.

Definition emit (ev : Event) : M unit := fun tr => (Ok tt, tr ++ [ev]).

Declare Scope m_scope.
Delimit Scope m_scope with M.
Notation "x <- m ;; k" := (bind m (fun x => k))
  (at level 100, m at next level, right associativity) : m_scope.
Notation "m ;;; k" := (bind m (fun _ => k))
  (at level 100, right associativity) : m_scope.
Open Scope m_scope.

(** A [for] loop over the elements of a list, collecting the results. *)
Fixpoint for_each {A B : Type} (f : A -> M B) (l : list A) : M (list B) :=
  match l with
  | [] => ret []
  | a :: l' => b <- f a ;; bs <- for_each f l' ;; ret (b :: bs)
  end.

(** A computation only appends to the trace, and what it appends and
    returns does not depend on the trace it starts from. *)
Definition appends {A : Type} (m : M A) : Prop :=
  forall tr, m tr = (fst (m []), tr ++ snd (m [])).

(** ** The source: [MergeTreeIndexSource] *)

(** The loader [generate] creates for a compact part when marks are
    enabled, shared by all the mark columns of the part's chunk; none
    otherwise. *)
Definition shared_marks_loader (with_marks : bool) (part : IMergeTreeDataPart)
    : option MergeTreeMarksLoader :=
  if with_marks && isCompactPart part then
    Some (mkLoader (name part) DATA_FILE_NAME (getMarksCount (index_granularity part))
                   (length (getColumns part)))
  else None.

Record MergeTreeIndexSource : Type := mkSource {
  header : Block;
  index_header : Block;
  data_parts : DataPartsVector;
  with_marks : bool;
  part_index : nat
}.

(** [Chunk]: the columns and the number of rows [generate] hands to the
    constructor. *)
Record Chunk : Type := mkChunk { chunk_columns : Columns; num_rows : nat }.

(** Modelled from the spec: [Chunk::checkNumRowsIsConsistent], which the
    constructor [Chunk(columns, num_rows)] runs, is defined outside this
    file.  By section 3 a chunk is a batch of fixed height, every column of
    it of that height: the constructor throws LOGICAL_ERROR on a column
    whose number of rows is not the number of rows of the chunk (the
    message, which goes on with the numbers, is cut short here). *)
Definition checkNumRowsIsConsistent (chunk : Chunk) : M unit :=
  if forallb (fun c => bool_decide (column_size c = num_rows chunk)) (chunk_columns chunk)
  then ret tt
  else throw (mkException LOGICAL_ERROR "Invalid number of rows in Chunk column").

(** The default-constructed chunk, [Chunk{}]. *)
Definition empty_chunk : Chunk := mkChunk [] 0.

(** [StorageMergeTreeIndex::part_name_column] and its two siblings. *)
Definition part_name_column : ColumnWithTypeAndName :=
  mkColumnWithTypeAndName DataTypeString "part_name".
Definition mark_number_column : ColumnWithTypeAndName :=
  mkColumnWithTypeAndName DataTypeUInt64 "mark_number".
Definition rows_in_granule_column : ColumnWithTypeAndName :=
  mkColumnWithTypeAndName DataTypeUInt64 "rows_in_granule".
Definition virtuals_sample_block : Block :=
  [part_name_column; mark_number_column; rows_in_granule_column].

(** [assert_cast<ColumnUInt64 &>(column).getData()]. *)
Definition assert_cast_ColumnUInt64 (c : IColumn) : M (list N) :=
  match c with
  | ColumnUInt64 data => ret data
  | _ => throw (mkException LOGICAL_ERROR "Bad cast to ColumnUInt64")
  end.

(** [column_type->createColumnConst(num_rows, value)] followed by
    [convertToFullColumnIfConst], for a string value: [num_rows] copies of
    it in a column of the type, an exception when the type does not take a
    string. *)
Definition createColumnConst (t : IDataType) (n : nat) (value : string) : M IColumn :=
  match t with
  | DataTypeString => ret (ColumnString (replicate n value))
  | DataTypeNullable DataTypeString =>
      ret (ColumnNullable (ColumnString (replicate n value)) (replicate n 0%N))
  | _ => throw (mkException LOGICAL_ERROR "Bad type of Field for the column")
  end.

(** The increment of an [int], the 32-bit signed integer.  C++ gives the
    increment of [INT_MAX] no meaning; it wraps to [INT_MIN] here, as it
    does on two's-complement hardware. *)
Definition int_increment (value : Z) : Z :=
  ((value + 1 + 2147483648) mod 4294967296 - 2147483648)%Z.

(** The conversion of an [int] to [UInt64]: the value modulo 2^64. *)
Definition UInt64_of_int (value : Z) : N :=
  Z.to_N (value mod 18446744073709551616)%Z.

(** [std::iota(first, last, value)] on [n] cells of [UInt64] with a
    counter of type [int]: each cell takes the counter, converted, and the
    counter is incremented. *)
Fixpoint iota_from (value : Z) (n : nat) : list N :=
  match n with
  | 0 => []
  | S n' => UInt64_of_int value :: iota_from (int_increment value) n'
  end.

(** [std::iota(data.begin(), data.end(), 0)] on [num_rows] cells: the
    literal [0] makes the counter an [int]. *)
Definition iota (n : nat) : list N := iota_from 0 n.

Section Source.

(** The collaborators this file calls and does not define. *)
Variable splitName : string -> bool -> string * string.
Variable unescapeForFileName : string -> string.
Variable getStreamNameOrHash :
  IMergeTreeDataPart -> string -> Checksums -> option string.
Variable getMark :
  MergeTreeMarksLoader -> nat -> nat -> Result MarkInCompressedFile.

(** [MergeTreeIndexSource::createMarksLoader]. *)
Definition createMarksLoader (part : IMergeTreeDataPart) (prefix_name : string)
    (num_columns : nat) : M MergeTreeMarksLoader :=
  let loader :=
    mkLoader (name part) prefix_name (getMarksCount (index_granularity part)) num_columns in
  emit (CreateMarksLoader loader) ;;;
  ret loader.

(** [marks_loader->getMark(i, col_idx)]. *)
Definition loader_getMark (marks_loader : option MergeTreeMarksLoader)
    (i col_idx : nat) : M MarkInCompressedFile :=
  match marks_loader with
  | None => throw (mkException UNDEFINED "null marks loader")
  | Some loader =>
      emit (GetMark loader i col_idx) ;;;
      match getMark loader i col_idx with
      | Ok mark => ret mark
      | Throw e => throw e
      end
  end.

(** [MergeTreeIndexSource::fillMarks]. *)
Definition fillMarks (part : IMergeTreeDataPart)
    (marks_loader : option MergeTreeMarksLoader)
    (data_type : IDataType) (column_name : string) : M IColumn :=
  let num_rows := getMarksCount (index_granularity part) in
  located <-
    (if isWidePart part then
       match getStreamNameOrHash part column_name (checksums part) with
       | Some stream_name =>
           loader <- createMarksLoader part stream_name 1 ;;
           ret (0, true, Some loader)
       | None => ret (0, false, marks_loader)
       end
     else if isCompactPart part then
       let unescaped_name := unescapeForFileName column_name in
       match getColumnPosition part unescaped_name with
       | Some col_idx => ret (col_idx, true, marks_loader)
       | None => ret (0, false, marks_loader)
       end
     else
       throw (mkException NOT_IMPLEMENTED
                ("Parts with type " +:+ getTypeName part +:+ " are not supported"))) ;;
  let '(col_idx, has_marks_in_part, marks_loader) := located in
  if negb has_marks_in_part then
    ret (createColumnConstWithDefaultValue data_type num_rows)
  else
    marks <- for_each (fun i => loader_getMark marks_loader i col_idx) (seq 0 num_rows) ;;
    let compressed := ColumnUInt64 (map offset_in_compressed_file marks) in
    let uncompressed := ColumnUInt64 (map offset_in_decompressed_block marks) in
    let compressed_nullable := ColumnNullable compressed (replicate num_rows 0%N) in
    let uncompressed_nullable := ColumnNullable uncompressed (replicate num_rows 0%N) in
    ret (ColumnTuple [compressed_nullable; uncompressed_nullable]).

(** The body of the [for] loop of [generate]: the column at one position
    of the header. *)
Definition generate_column (index_header : Block) (with_marks : bool)
    (part : IMergeTreeDataPart) (marks_loader : option MergeTreeMarksLoader)
    (num_rows : nat) (c : ColumnWithTypeAndName) : M IColumn :=
  let column_name := col_name c in
  let column_type := col_type c in
  if has index_header column_name then
    let index_position := getPositionByName index_header column_name in
    match index part !! index_position with
    | Some column => ret column
    | None => throw (mkException UNDEFINED "part index read out of range")
    end
  else if bool_decide (column_name = col_name part_name_column) then
    createColumnConst column_type num_rows (name part)
  else if bool_decide (column_name = col_name mark_number_column) then
    _ <- assert_cast_ColumnUInt64 (createColumn column_type) ;;
    ret (ColumnUInt64 (iota num_rows))
  else if bool_decide (column_name = col_name rows_in_granule_column) then
    _ <- assert_cast_ColumnUInt64 (createColumn column_type) ;;
    ret (ColumnUInt64 (map (getMarkRows (index_granularity part)) (seq 0 num_rows)))
  else
    let '(first, second) := splitName column_name true in
    if with_marks && bool_decide (second = "mark") then
      fillMarks part marks_loader column_type first
    else
      throw (mkException NO_SUCH_COLUMN_IN_TABLE ("No such column " +:+ column_name)).

(** [MergeTreeIndexSource::generate]: the chunk of the part at
    [part_index] and the source with [part_index] advanced, or the empty
    chunk and the source unchanged once the parts are exhausted.  The
    constructor of the chunk checks the columns the loop has built.  An
    exception ends the read, and no source is returned with it: when the
    loop throws, [part_index] is as it was; when the constructor of the
    chunk throws, [part_index] has been advanced already. *)
Definition generate (s : MergeTreeIndexSource) : M (Chunk * MergeTreeIndexSource) :=
  match data_parts s !! part_index s with
  | None => ret (empty_chunk, s)
  | Some part =>
      marks_loader <-
        (if with_marks s && isCompactPart part then
           loader <- createMarksLoader part DATA_FILE_NAME (length (getColumns part)) ;;
           ret (Some loader)
         else ret None) ;;
      let num_rows := getMarksCount (index_granularity part) in
      result_columns <-
        for_each (generate_column (index_header s) (with_marks s) part marks_loader num_rows)
                 (header s) ;;
      let chunk := mkChunk result_columns num_rows in
      checkNumRowsIsConsistent chunk ;;;
      ret (chunk,
           mkSource (header s) (index_header s) (data_parts s) (with_marks s)
                    (S (part_index s)))
  end.

(** The column the loop body of [generate] builds for one header entry,
    or the exception it throws. *)
Definition column_of (index_header : Block) (with_marks : bool)
    (part : IMergeTreeDataPart) (marks_loader : option MergeTreeMarksLoader)
    (c : ColumnWithTypeAndName) : Result IColumn :=
  fst (generate_column index_header with_marks part marks_loader
         (getMarksCount (index_granularity part)) c []).

(** The chunk of a part under a header: as many rows as the part has
    marks, one column per header entry, each of that many rows and each
    the column the loop body builds for the entry at its position. *)
Definition chunk_of_part (index_header : Block) (with_marks : bool) (h : Block)
    (part : IMergeTreeDataPart) (chunk : Chunk) : Prop :=
  num_rows chunk = getMarksCount (index_granularity part) /\
  length (chunk_columns chunk) = length h /\
  Forall (fun col => column_size col = getMarksCount (index_granularity part))
         (chunk_columns chunk) /\
  Forall2 (fun c col =>
             column_of index_header with_marks part
                       (shared_marks_loader with_marks part) c = Ok col)
          h (chunk_columns chunk).

(** [n] successive calls of [generate]: the chunks they return, in call
    order, and the source after the last call. *)
Fixpoint pull (n : nat) (s : MergeTreeIndexSource) : M (list Chunk * MergeTreeIndexSource) :=
  match n with
  | 0 => ret ([], s)
  | S n' =>
      r <- generate s ;;
      rest <- pull n' (snd r) ;;
      ret (fst r :: fst rest, snd rest)
  end.

End Source.


(** ** The part filter: [StorageMergeTreeIndex::getFilteredDataParts] *)

(** A query tree, as far as the filter looks into it: whether it is a
    select query, and whether that query has a WHERE expression. *)
Inductive IAST : Type :=
| ASTSelectQuery (where_expression : option IAST)
| ASTIdentifier (identifier : string)
| ASTLiteral (value : Field)
| ASTFunction (function_name : string) (arguments : list IAST).

Record SelectQueryInfo : Type := mkSelectQueryInfo { query : IAST }.

(** [query->as<ASTSelectQuery>()] followed by [where()]: the WHERE
    expression of a select query that has one. *)
Definition select_where (q : IAST) : option IAST :=
  match q with
  | ASTSelectQuery where_expression => where_expression
  | _ => None
  end.

Section Filter.

(** [VirtualColumnUtils::filterBlockWithQuery] on a block of one string
    column: the rows it leaves in the block. *)
Variable filterBlockWithQuery : IAST -> list string -> Result (list string).

Definition filterBlock (q : IAST) (part_names : list string) : M (list string) :=
  emit (FilterBlockWithQuery part_names) ;;;
  match filterBlockWithQuery q part_names with
  | Ok rows => ret rows
  | Throw e => throw e
  end.

Definition getFilteredDataParts (data_parts : DataPartsVector)
    (query_info : SelectQueryInfo) : M DataPartsVector :=
  match select_where (query query_info) with
  | None => ret data_parts
  | Some _ =>
      let all_part_names := map name data_parts in
      filtered_block <- filterBlock (query query_info) all_part_names ;;
      if bool_decide (length filtered_block = 0) then ret []
      else
        let part_names_set : gset string := list_to_set filtered_block in
        ret (filter (fun part => name part ∈ part_names_set) data_parts)
  end.

End Filter.

(** ** What a requested name resolves to

    The order of the tests of [generate]'s loop body, as a classification
    of the requested name. *)
Inductive Kind : Type :=
| IndexValue (position : nat)
| PartName
| MarkNumber
| RowsInGranule
| MarkBookmark (target : string)
| Unknown.

Definition resolve (splitName : string -> bool -> string * string)
    (index_header : Block) (with_marks : bool) (column_name : string) : Kind :=
  if has index_header column_name then IndexValue (getPositionByName index_header column_name)
  else if bool_decide (column_name = "part_name") then PartName
  else if bool_decide (column_name = "mark_number") then MarkNumber
  else if bool_decide (column_name = "rows_in_granule") then RowsInGranule
  else if with_marks && bool_decide (snd (splitName column_name true) = "mark")
       then MarkBookmark (fst (splitName column_name true))
  else Unknown.

(** The declared type of a mark pseudo-column: a tuple of two nullable
    unsigned 64-bit numbers. *)
Definition mark_type : IDataType :=
  DataTypeTuple [DataTypeNullable DataTypeUInt64; DataTypeNullable DataTypeUInt64].

(** The type the table declares for a column of each kind; an index column
    has the type of its key component, whichever it is. *)
Definition declared_type (k : Kind) (t : IDataType) : Prop :=
  match k with
  | IndexValue _ => True
  | PartName => t = DataTypeString
  | MarkNumber => t = DataTypeUInt64
  | RowsInGranule => t = DataTypeUInt64
  | MarkBookmark _ => t = mark_type
  | Unknown => False
  end.

(** A header entry that resolves, with the type declared for its kind. *)
Definition resolved (splitName : string -> bool -> string * string)
    (index_header : Block) (with_marks : bool) (c : ColumnWithTypeAndName) : Prop :=
  declared_type (resolve splitName index_header with_marks (col_name c)) (col_type c).

Definition is_mark_bookmark (k : Kind) : bool :=
  match k with MarkBookmark _ => true | _ => false end.

(** A part whose stored index has one column per key component and one
    value per mark. *)
Definition index_complete (index_header : Block) (part : IMergeTreeDataPart) : Prop :=
  length (index part) = length index_header /\
  Forall (fun c => column_size c = getMarksCount (index_granularity part)) (index part).

Definition supported_layout (part : IMergeTreeDataPart) : Prop :=
  part_type part = Wide \/ part_type part = Compact.

(** ** Collaborators to run the source on

    Executable stand-ins for the functions the source takes from other
    files; the theorems hold for every choice of them, the examples run the
    source on these. *)

Fixpoint find_first_of (c : ascii) (s : string) : option nat :=
  match s with
  | EmptyString => None
  | String a s' => if bool_decide (a = c) then Some 0 else S <$> find_first_of c s'
  end.

Fixpoint find_last_of (c : ascii) (s : string) : option nat :=
  match s with
  | EmptyString => None
  | String a s' =>
      match find_last_of c s' with
      | Some k => Some (S k)
      | None => if bool_decide (a = c) then Some 0 else None
      end
  end.

(** Modelled from the spec: [Nested::splitName] is defined outside this
    file; by section 4.1 a requested name [<logical-column>.mark] is
    decomposed at a dot into the logical column and the suffix, here (the
    reverse flag set) at the last dot; a name with no dot, or with the dot
    at either end, is returned whole with an empty suffix. *)
Definition Nested_splitName (n : string) (reverse : bool) : string * string :=
  match (if reverse then find_last_of "."%char n else find_first_of "."%char n) with
  | None => (n, "")
  | Some idx =>
      if bool_decide (idx = 0) || bool_decide (S idx = String.length n) then (n, "")
      else (String.substring 0 idx n, String.substring (S idx) (String.length n - S idx) n)
  end.

Definition unhex (a : ascii) : N :=
  let n := N_of_ascii a in
  if (48 <=? n)%N && (n <=? 57)%N then (n - 48)%N
  else if (65 <=? n)%N && (n <=? 70)%N then (n - 55)%N
  else if (97 <=? n)%N && (n <=? 102)%N then (n - 87)%N
  else 0%N.

(** Modelled from the spec: [unescapeForFileName] is defined outside this
    file; it undoes the filename-escaping of a column name (section 4.3):
    [%XY] stands for the byte with the hexadecimal code [XY]. *)
Fixpoint unescape_plain (s : string) : string :=
  match s with
  | String "%"%char (String x (String y s')) =>
      String (ascii_of_N (16 * unhex x + unhex y)) (unescape_plain s')
  | String a s' => String a (unescape_plain s')
  | EmptyString => EmptyString
  end.

(** A stream of a wide part exists when the checksums list its data file. *)
Definition stream_if_listed (part : IMergeTreeDataPart) (n : string)
    (files : Checksums) : option string :=
  if bool_decide (n +:+ ".bin" ∈ files) then Some n else None.

(** A mark loader that answers every query: for row [i] and column [j]
    the mark [(1000 * i + j, j)]. *)
Definition getMark_grid (loader : MergeTreeMarksLoader) (i j : nat)
    : Result MarkInCompressedFile :=
  Ok (mkMark (N.of_nat (1000 * i + j)) (N.of_nat j)).

(** A filter evaluator for [part_name = 'literal']; any other expression
    keeps every row. *)
Definition filter_part_name_equals (q : IAST) (part_names : list string)
    : Result (list string) :=
  match select_where q with
  | Some (ASTFunction "equals" [ASTIdentifier "part_name"; ASTLiteral (FieldString v)]) =>
      Ok (filter (fun n => n = v) part_names)
  | _ => Ok part_names
  end.

(** ** Example parts *)

Definition key_sample_block : Block := [mkColumnWithTypeAndName DataTypeUInt64 "id"].

(** A wide part of three granules with rows 1, 2, 1; columns [id] and [v]. *)
Definition P1 : IMergeTreeDataPart :=
  mkPart "P1" Wide [1; 2; 1]%N [ColumnUInt64 [10; 20; 30]%N]
         ["id.bin"; "id.mrk2"; "v.bin"; "v.mrk2"]
         [("id", DataTypeUInt64); ("v", DataTypeString)].

(** A compact part of one granule with 5 rows; columns [id] and [a.b]. *)
Definition P2 : IMergeTreeDataPart :=
  mkPart "P2" Compact [5]%N [ColumnUInt64 [40]%N]
         ["data.bin"; "data.mrk3"]
         [("id", DataTypeUInt64); ("a.b", DataTypeString)].

(** A part of a layout that is neither wide nor compact. *)
Definition P3 : IMergeTreeDataPart :=
  mkPart "P3" (OtherType "InMemory") [4; 4]%N [ColumnUInt64 [50; 60]%N]
         [] [("id", DataTypeUInt64)].

Definition column (t : IDataType) (n : string) : ColumnWithTypeAndName :=
  mkColumnWithTypeAndName t n.

Definition example_generate : MergeTreeIndexSource -> M (Chunk * MergeTreeIndexSource) :=
  generate Nested_splitName unescape_plain stream_if_listed getMark_grid.

Definition example_pull : nat -> MergeTreeIndexSource -> M (list Chunk * MergeTreeIndexSource) :=
  pull Nested_splitName unescape_plain stream_if_listed getMark_grid.

(** ** Example requests *)

Definition header_plain : Block :=
  [column DataTypeUInt64 "id"; column DataTypeUInt64 "mark_number";
   column DataTypeUInt64 "rows_in_granule"; column DataTypeString "part_name"].

Definition header_marks : Block :=
  header_plain ++ [column mark_type "v.mark"; column mark_type "a%2Eb.mark"].

(** [SELECT ... WHERE part_name = v]. *)
Definition select_part (v : string) : SelectQueryInfo :=
  mkSelectQueryInfo
    (ASTSelectQuery
       (Some (ASTFunction "equals" [ASTIdentifier "part_name"; ASTLiteral (FieldString v)]))).

(** [SELECT ...] with no WHERE expression. *)
Definition select_all : SelectQueryInfo := mkSelectQueryInfo (ASTSelectQuery None).

(** The loader of the stream [v] of the wide part [P1]. *)
Definition loader_P1_v : MergeTreeMarksLoader := mkLoader "P1" "v" 3 1.

(** ** Reading the trace *)

#[global] Instance MergeTreeMarksLoader_eq_dec : EqDecision MergeTreeMarksLoader.
Proof. solve_decision. Defined.

Definition is_create (ev : Event) : bool :=
  match ev with CreateMarksLoader _ => true | _ => false end.

Definition is_query (ev : Event) : bool :=
  match ev with GetMark _ _ _ => true | _ => false end.

Definition count_events (p : Event -> bool) (w : Trace) : nat :=
  length (List.filter p w).

(** A query inside the table of marks its loader was created for: a row
    below the number of marks, a column below the number of columns. *)
Definition in_bounds (ev : Event) : bool :=
  match ev with
  | GetMark loader i j =>
      bool_decide (i < loader_marks_count loader) &&
      bool_decide (j < loader_num_columns loader)
  | _ => true
  end.

(** Every loader queried in the trace was created earlier in it, or is
    among the loaders [known] beforehand. *)
Fixpoint uses_created (known : list MergeTreeMarksLoader) (w : Trace) : bool :=
  match w with
  | [] => true
  | CreateMarksLoader loader :: w' => uses_created (loader :: known) w'
  | GetMark loader _ _ :: w' => bool_decide (loader ∈ known) && uses_created known w'
  | FilterBlockWithQuery _ :: w' => uses_created known w'
  end.

Section Accounting.

Variable splitName : string -> bool -> string * string.
Variable unescapeForFileName : string -> string.
Variable getStreamNameOrHash :
  IMergeTreeDataPart -> string -> Checksums -> option string.
Variable getMark :
  MergeTreeMarksLoader -> nat -> nat -> Result MarkInCompressedFile.

(** Whether the part records marks for a column: the test [fillMarks]
    makes before it loads any. *)
Definition has_marks_in_part (part : IMergeTreeDataPart) (target : string) : bool :=
  match part_type part with
  | Wide => bool_decide (is_Some (getStreamNameOrHash part target (checksums part)))
  | Compact => bool_decide (is_Some (getColumnPosition part (unescapeForFileName target)))
  | OtherType _ => false
  end.

(** The header entries whose marks are loaded from the part. *)
Definition loads_marks (index_header : Block) (with_marks : bool)
    (part : IMergeTreeDataPart) (c : ColumnWithTypeAndName) : bool :=
  match resolve splitName index_header with_marks (col_name c) with
  | MarkBookmark target => has_marks_in_part part target
  | _ => false
  end.

(** The cause of an exception of the loop body of [generate], read off
    the header entry it was building. *)
Definition thrown_for (ih : Block) (wm : bool) (part : IMergeTreeDataPart)
    (c : ColumnWithTypeAndName) (e : Exception) : Prop :=
  match resolve splitName ih wm (col_name c) with
  | Unknown =>
      e = mkException NO_SUCH_COLUMN_IN_TABLE ("No such column " +:+ col_name c)
  | IndexValue position =>
      length (index part) <= position /\ code e = UNDEFINED
  | MarkBookmark target =>
      (exists type_name,
         part_type part = OtherType type_name /\
         e = mkException NOT_IMPLEMENTED
               ("Parts with type " +:+ type_name +:+ " are not supported")) \/
      (exists loader i j,
         has_marks_in_part part target = true /\
         i < getMarksCount (index_granularity part) /\
         getMark loader i j = Throw e)
  | PartName => col_type c <> DataTypeString /\ code e = LOGICAL_ERROR
  | MarkNumber => col_type c <> DataTypeUInt64 /\ code e = LOGICAL_ERROR
  | RowsInGranule => col_type c <> DataTypeUInt64 /\ code e = LOGICAL_ERROR
  end.

(** What one call of [generate] returns for a part and appends to the
    trace when the part is alone in the list and the trace is empty. *)
Definition chunk_for (h index_header : Block) (with_marks : bool)
    (part : IMergeTreeDataPart) : Result Chunk * Trace :=
  match generate splitName unescapeForFileName getStreamNameOrHash getMark
          (mkSource h index_header [part] with_marks 0) [] with
  | (Ok r, w) => (Ok (fst r), w)
  | (Throw e, w) => (Throw e, w)
  end.

(** The chunk of [chunk_for], the empty chunk when there is none. *)
Definition chunk_fn (h index_header : Block) (with_marks : bool)
    (part : IMergeTreeDataPart) : Chunk :=
  match fst (chunk_for h index_header with_marks part) with
  | Ok chunk => chunk
  | Throw _ => empty_chunk
  end.

(** The parts of a list read one at a time, each alone, in order, up to
    the first that throws: the chunks, or the exception, and the trace. *)
Fixpoint chunks_for (h index_header : Block) (with_marks : bool)
    (parts : DataPartsVector) : Result (list Chunk) * Trace :=
  match parts with
  | [] => (Ok [], [])
  | part :: rest =>
      match chunk_for h index_header with_marks part with
      | (Ok chunk, w) =>
          match chunks_for h index_header with_marks rest with
          | (Ok chunks, w') => (Ok (chunk :: chunks), w ++ w')
          | (Throw e, w') => (Throw e, w ++ w')
          end
      | (Throw e, w) => (Throw e, w)
      end
  end.

End Accounting.

(** ** More example parts *)

(** A key with a component named like a metadata column. *)
Definition key_with_mark_number : Block :=
  [mkColumnWithTypeAndName DataTypeUInt64 "id";
   mkColumnWithTypeAndName DataTypeString "mark_number"].

(** A wide part of two granules under that key. *)
Definition P4 : IMergeTreeDataPart :=
  mkPart "P4" Wide [3; 3]%N [ColumnUInt64 [1; 4]%N; ColumnString ["a"; "d"]]
         ["id.bin"; "mark_number.bin"]
         [("id", DataTypeUInt64); ("mark_number", DataTypeString)].

(** A wide part of three granules whose stored index column holds one
    value only. *)
Definition P5 : IMergeTreeDataPart :=
  mkPart "P5" Wide [1; 2; 1]%N [ColumnUInt64 [10]%N]
         ["id.bin"; "id.mrk2"] [("id", DataTypeUInt64)].

(** A mark loader that fails on the granule 1 of every column. *)
Definition getMark_fails_at_1 (loader : MergeTreeMarksLoader) (i j : nat)
    : Result MarkInCompressedFile :=
  if bool_decide (i = 1) then Throw (mkException (OTHER_ERROR 33) "Cannot read all marks")
  else Ok (mkMark (N.of_nat (1000 * i + j)) (N.of_nat j)).

(** ** The facade: [StorageMergeTreeIndex] *)

(** What the facade asks of the table it was built over: whether it is a
    MergeTree table, its engine name, its identifier, the columns of its
    metadata and, for a MergeTree table, its primary key and parts. *)
Inductive IStorage : Type :=
| MergeTreeData (storage_id : string) (columns : list (string * IDataType))
                (primary_key : Block) (parts : DataPartsVector)
| OtherStorage (storage_id : string) (engine_name : string)
               (columns : list (string * IDataType)).

Definition getStorageID (table : IStorage) : string :=
  match table with
  | MergeTreeData storage_id _ _ _ => storage_id
  | OtherStorage storage_id _ _ => storage_id
  end.

Definition getName (table : IStorage) : string :=
  match table with
  | MergeTreeData _ _ _ _ => "MergeTree"
  | OtherStorage _ engine_name _ => engine_name
  end.

Definition getMetadataColumns (table : IStorage) : list (string * IDataType) :=
  match table with
  | MergeTreeData _ columns _ _ => columns
  | OtherStorage _ _ columns => columns
  end.

(** The calls [read] makes outside the generator: the access check, the
    filter evaluator (through [getFilteredDataParts]) and the log. *)
Inductive ReadEvent : Type :=
| CheckAccess (table : string) (columns : list string)
| FilterEvent (ev : Event)
| LogDebug (marks : bool) (parts : nat) (table : string).

Definition R (A : Type) : Type := list ReadEvent -> Result A * list ReadEvent.

Definition rret {A : Type} (a : A) : R A := fun tr => (Ok a, tr).

Definition rthrow {A : Type} (e : Exception) : R A := fun tr => (Throw e, tr).

Definition rbind {A B : Type} (m : R A) (k : A -> R B) : R B :=
  fun tr =>
    match m tr with
    | (Ok a, tr') => k a tr'
    | (Throw e, tr') => (Throw e, tr')
    end.

Definition remit (ev : ReadEvent) : R unit := fun tr => (Ok tt, tr ++ [ev]).

(** A computation of the generator or of the filter, run inside [read]. *)
Definition lift {A : Type} (m : M A) : R A :=
  fun tr => (fst (m []), tr ++ map FilterEvent (snd (m []))).

(** A result of a collaborator, an exception of it thrown on. *)
Definition of_result {A : Type} (r : Result A) : R A :=
  match r with
  | Ok a => rret a
  | Throw e => rthrow e
  end.

Notation "x <~ m ;; k" := (rbind m (fun x => k))
  (at level 100, m at next level, right associativity) : m_scope.

Module StorageMergeTreeIndex.

(** The members of the facade that [read] uses; [source_table], a pointer
    to the table, is the table [read] is handed as it is at that time. *)
Record t : Type := mk {
  data_parts : DataPartsVector;
  key_sample_block : Block;
  with_marks : bool;
  metadata_columns : Block
}.

(** [StorageMergeTreeIndex::StorageMergeTreeIndex]. *)
Definition create (source_table : IStorage) (columns : Block) (with_marks_ : bool)
    : Result t :=
  match source_table with
  | MergeTreeData _ _ primary_key parts => Ok (mk parts primary_key with_marks_ columns)
  | OtherStorage _ _ _ =>
      Throw (mkException BAD_ARGUMENTS
               ("Storage MergeTreeIndex expected MergeTree table, got: " +:+
                getName source_table))
  end.

Section Read.

Variable splitName : string -> bool -> string * string.
Variable unescapeForFileName : string -> string.
Variable filterBlockWithQuery : IAST -> list string -> Result (list string).
(** [ColumnsDescription::hasColumnOrSubcolumn(GetColumnsOptions::All, name)]. *)
Variable hasColumnOrSubcolumn : list (string * IDataType) -> string -> bool.
(** [Context::checkAccess(AccessType::SELECT, table, columns)]. *)
Variable checkAccess : string -> list string -> Result unit.
(** [StorageSnapshot::getSampleBlockForColumns], over the columns the
    facade was built with. *)
Variable getSampleBlockForColumns : Block -> list string -> Result Block.

(** The first loop of [read]: the columns of the table the request
    touches, in request order. *)
Fixpoint columns_from_storage (storage_columns : list (string * IDataType))
    (with_marks_ : bool) (column_names : list string) : list string :=
  match column_names with
  | [] => []
  | column_name :: rest =>
      if hasColumnOrSubcolumn storage_columns column_name then
        column_name :: columns_from_storage storage_columns with_marks_ rest
      else if with_marks_ then
        let '(first, second) := splitName column_name true in
        let unescaped_name := unescapeForFileName first in
        if bool_decide (second = "mark") &&
           hasColumnOrSubcolumn storage_columns (unescapeForFileName unescaped_name)
        then unescaped_name :: columns_from_storage storage_columns with_marks_ rest
        else columns_from_storage storage_columns with_marks_ rest
      else columns_from_storage storage_columns with_marks_ rest
  end.

(** [StorageMergeTreeIndex::read]: the source the pipe is built from. *)
Definition read (this : t) (source_table : IStorage) (column_names : list string)
    (query_info : SelectQueryInfo) : R MergeTreeIndexSource :=
  let storage_columns := getMetadataColumns source_table in
  let checked := columns_from_storage storage_columns (with_marks this) column_names in
  _ <~ (_ <~ remit (CheckAccess (getStorageID source_table) checked) ;;
        of_result (checkAccess (getStorageID source_table) checked)) ;;
  header <~ of_result (getSampleBlockForColumns (metadata_columns this) column_names) ;;
  filtered_parts <~ lift (getFilteredDataParts filterBlockWithQuery (data_parts this)
                            query_info) ;;
  _ <~ remit (LogDebug (with_marks this) (length filtered_parts)
                       (getStorageID source_table)) ;;
  rret (mkSource header (key_sample_block this) filtered_parts (with_marks this) 0).

End Read.

End StorageMergeTreeIndex.

(** ** Collaborators to run the facade on *)

(** The evaluator for [part_name = 'literal'], leaving its rows twice,
    the second time in reverse order. *)
Definition filter_equals_twice (q : IAST) (part_names : list string)
    : Result (list string) :=
  match filter_part_name_equals q part_names with
  | Ok rows => Ok (rows ++ rev rows)
  | Throw e => Throw e
  end.

(** An evaluator that fails. *)
Definition filter_fails (q : IAST) (part_names : list string) : Result (list string) :=
  Throw (mkException (OTHER_ERROR 43) "Illegal type of argument").


Definition has_column (columns : list (string * IDataType)) (n : string) : bool :=
  bool_decide (n ∈ map fst columns).

(** An access check that denies the column [secret]. *)
Definition deny_secret (table : string) (columns : list string) : Result unit :=
  if bool_decide ("secret" ∈ columns)
  then Throw (mkException (OTHER_ERROR 497) "Not enough privileges")
  else Ok tt.

(** The declared columns of the facade of the example table: the key, the
    metadata columns and a mark pseudo-column per table column. *)
Definition example_columns : Block :=
  [mkColumnWithTypeAndName DataTypeUInt64 "id";
   mkColumnWithTypeAndName DataTypeString "part_name";
   mkColumnWithTypeAndName DataTypeUInt64 "mark_number";
   mkColumnWithTypeAndName DataTypeUInt64 "rows_in_granule";
   mkColumnWithTypeAndName mark_type "id.mark";
   mkColumnWithTypeAndName mark_type "v.mark";
   mkColumnWithTypeAndName mark_type "secret.mark"].

(** A sample block of the declared columns of the requested names, an
    exception on a name that is not declared. *)
Fixpoint sample_block (columns : Block) (column_names : list string) : Result Block :=
  match column_names with
  | [] => Ok []
  | n :: rest =>
      match List.find (fun c => bool_decide (col_name c = n)) columns with
      | None => Throw (mkException (OTHER_ERROR 10) ("Column " +:+ n +:+ " not found"))
      | Some c =>
          match sample_block columns rest with
          | Ok b => Ok (c :: b)
          | Throw e => Throw e
          end
      end
  end.

Definition example_table : IStorage :=
  MergeTreeData "db.t"
    [("id", DataTypeUInt64); ("v", DataTypeString); ("secret", DataTypeString)]
    key_sample_block [P1; P2].

(** The facade of the example table, with marks. *)
Definition example_facade : StorageMergeTreeIndex.t :=
  StorageMergeTreeIndex.mk [P1; P2] key_sample_block true example_columns.

Definition example_read :=
  StorageMergeTreeIndex.read Nested_splitName unescape_plain filter_part_name_equals
    has_column deny_secret sample_block.

(** ** The declared columns and the header of a read *)

(** Modelled from the spec: the columns the facade is declared with are
    built by its caller, outside this file.  By section 6 they are the
    components of the primary key, the three metadata columns and, in the
    variant that exposes marks, one dot-suffixed pseudo-column of the
    bookmark type per column of the table. *)
Definition declared_columns (primary_key : Block) (with_marks_ : bool)
    (storage_columns : list (string * IDataType)) : Block :=
  primary_key ++ virtuals_sample_block ++
  (if with_marks_
   then map (fun c => mkColumnWithTypeAndName mark_type (fst c +:+ ".mark")) storage_columns
   else []).

(** Modelled from the spec: [StorageSnapshot::getSampleBlockForColumns] is
    defined outside this file.  By section 4.1 each requested name resolves
    to the declared column of that name, with its declared type, in request
    order; any other name fails with an "unknown column" error naming the
    offending column, and the resolution is all-or-nothing. *)
Fixpoint StorageSnapshot_getSampleBlockForColumns (columns : Block)
    (column_names : list string) : Result Block :=
  match column_names with
  | [] => Ok []
  | n :: rest =>
      match List.find (fun c => bool_decide (col_name c = n)) columns with
      | None => Throw (mkException NO_SUCH_COLUMN_IN_TABLE ("No such column " +:+ n))
      | Some c =>
          match StorageSnapshot_getSampleBlockForColumns columns rest with
          | Ok b => Ok (c :: b)
          | Throw e => Throw e
          end
      end
  end.

(** [read] on the example collaborators, the header resolved as above. *)
Definition example_read_resolved :=
  StorageMergeTreeIndex.read Nested_splitName unescape_plain filter_part_name_equals
    has_column deny_secret StorageSnapshot_getSampleBlockForColumns.

(** The example table before any part was written, and its facade. *)
Definition example_table_no_parts : IStorage :=
  MergeTreeData "db.t"
    [("id", DataTypeUInt64); ("v", DataTypeString); ("secret", DataTypeString)]
    key_sample_block [].

Definition example_facade_no_parts : StorageMergeTreeIndex.t :=
  StorageMergeTreeIndex.mk [] key_sample_block true example_columns.

(** * Properties *)

(** ** The monad *)

Lemma bind_ok {A B : Type} (m : M A) (k : A -> M B) (tr tr1 : Trace) (a : A) :
  m tr = (Ok a, tr1) -> bind m k tr = k a tr1.
Proof. intros H. unfold bind. now rewrite H. Qed.

Lemma bind_throw {A B : Type} (m : M A) (k : A -> M B) (tr tr1 : Trace) (e : Exception) :
  m tr = (Throw e, tr1) -> bind m k tr = (Throw e, tr1).
Proof. intros H. unfold bind. now rewrite H. Qed.

Lemma bind_ok_inv {A B : Type} (m : M A) (k : A -> M B) (tr tr2 : Trace) (b : B) :
  bind m k tr = (Ok b, tr2) ->
  exists a tr1, m tr = (Ok a, tr1) /\ k a tr1 = (Ok b, tr2).
Proof.
  unfold bind. destruct (m tr) as [[a|e] tr1]; intros H.
  - exists a, tr1. auto.
  - discriminate.
Qed.

Lemma appends_ret {A : Type} (a : A) : appends (ret a).
Proof. intros tr. unfold ret. simpl. now rewrite app_nil_r. Qed.

Lemma appends_throw {A : Type} (e : Exception) : appends (@throw A e).
Proof. intros tr. unfold throw. simpl. now rewrite app_nil_r. Qed.

Lemma appends_emit (ev : Event) : appends (emit ev).
Proof. intros tr. reflexivity. Qed.

Lemma appends_bind {A B : Type} (m : M A) (k : A -> M B) :
  appends m -> (forall a, appends (k a)) -> appends (bind m k).
Proof.
  intros Hm Hk tr. unfold bind.
  rewrite (Hm tr). destruct (m []) as [[a|e] w]; simpl.
  - rewrite (Hk a (tr ++ w)), (Hk a w). simpl. now rewrite app_assoc.
  - reflexivity.
Qed.

Lemma appends_for_each {A B : Type} (f : A -> M B) (l : list A) :
  (forall a, appends (f a)) -> appends (for_each f l).
Proof.
  intros Hf. induction l as [|a l IH]; simpl.
  - apply appends_ret.
  - apply appends_bind; [apply Hf|]. intros b.
    apply appends_bind; [apply IH|]. intros bs. apply appends_ret.
Qed.

Lemma appends_run {A : Type} (m : M A) (tr tr' : Trace) (r : Result A) :
  appends m -> m tr = (r, tr') -> fst (m []) = r /\ tr' = tr ++ snd (m []).
Proof. intros Hm H. rewrite (Hm tr) in H. inversion H. auto. Qed.

Lemma for_each_app {A B : Type} (f : A -> M B) (l1 l2 : list A) (tr : Trace) :
  for_each f (l1 ++ l2) tr =
  (b1 <- for_each f l1 ;; b2 <- for_each f l2 ;; ret (b1 ++ b2)) tr.
Proof.
  revert tr. induction l1 as [|a l1 IH]; intros tr; simpl.
  - unfold bind, ret. simpl. destruct (for_each f l2 tr) as [[bs|e] tr1]; reflexivity.
  - unfold bind, ret in *.
    destruct (f a tr) as [[b|e] tr1]; [|reflexivity].
    rewrite IH. destruct (for_each f l1 tr1) as [[b1|e] tr2]; [|reflexivity].
    destruct (for_each f l2 tr2) as [[b2|e] tr3]; reflexivity.
Qed.

(** A loop whose body succeeds on every element succeeds, with one result
    per element, in order. *)
Lemma for_each_ok {A B : Type} (f : A -> M B) (g : A -> B) (w : A -> Trace) (l : list A) :
  (forall a tr, a ∈ l -> f a tr = (Ok (g a), tr ++ w a)) ->
  forall tr, for_each f l tr = (Ok (map g l), tr ++ concat (map w l)).
Proof.
  induction l as [|a l IH]; intros Hf tr; simpl.
  - unfold ret. now rewrite app_nil_r.
  - erewrite bind_ok; [|apply Hf; left].
    erewrite bind_ok; [|apply IH; intros; apply Hf; now right].
    unfold ret. now rewrite app_assoc.
Qed.

(** A loop stops at the first element on which its body throws. *)
Lemma for_each_throw {A B : Type} (f : A -> M B) (l1 l2 : list A) (a : A)
    (bs : list B) (e : Exception) (tr tr1 tr2 : Trace) :
  for_each f l1 tr = (Ok bs, tr1) ->
  f a tr1 = (Throw e, tr2) ->
  for_each f (l1 ++ a :: l2) tr = (Throw e, tr2).
Proof.
  intros H1 H2. rewrite for_each_app.
  erewrite bind_ok; [|exact H1]. simpl.
  erewrite bind_throw; [reflexivity|].
  erewrite bind_throw; [reflexivity|exact H2].
Qed.

(** What a successful loop returns: one result per element, each the
    result of the body on the element at its position. *)
Lemma for_each_ok_inv {A B : Type} (f : A -> M B) (l : list A) (bs : list B)
    (tr tr' : Trace) :
  for_each f l tr = (Ok bs, tr') ->
  Forall2 (fun a b => exists tr1 tr2, f a tr1 = (Ok b, tr2)) l bs.
Proof.
  revert bs tr. induction l as [|a l IH]; intros bs tr H; simpl in H.
  - inversion H. constructor.
  - apply bind_ok_inv in H as (b & tr1 & Hb & H).
    apply bind_ok_inv in H as (bs' & tr2 & Hbs & H).
    inversion H; subst. constructor; eauto.
Qed.

(** ** Columns *)

Lemma IDataType_nested_ind (P : IDataType -> Prop) :
  P DataTypeUInt64 ->
  P DataTypeString ->
  (forall t, P t -> P (DataTypeNullable t)) ->
  (forall ts, Forall P ts -> P (DataTypeTuple ts)) ->
  forall t, P t.
Proof.
  intros Hu Hs Hn Ht.
  fix IH 1. intros [| |t|ts].
  - exact Hu.
  - exact Hs.
  - apply Hn, IH.
  - apply Ht. induction ts as [|t ts IHts]; constructor; [apply IH|exact IHts].
Qed.

(** Every row of the default column of a type is the default of the type. *)
Lemma default_column_at (t : IDataType) (n i : nat) :
  i < n -> column_at (createColumnConstWithDefaultValue t n) i = Some (getDefault t).
Proof.
  intros Hi. induction t as [| |t IH|ts IH] using IDataType_nested_ind; simpl.
  - now rewrite lookup_replicate_2.
  - now rewrite lookup_replicate_2.
  - now rewrite lookup_replicate_2.
  - induction IH as [|t ts Ht _ IHts]; simpl; [reflexivity|].
    rewrite Ht. simpl in IHts.
    destruct (_ (map _ ts)) as [fs|] eqn:E; simpl in *; [|discriminate].
    now inversion IHts.
Qed.

Lemma default_mark_column_size (n : nat) :
  column_size (createColumnConstWithDefaultValue mark_type n) = n.
Proof. simpl. apply length_replicate. Qed.


Lemma iota_from_length (value : Z) (n : nat) : length (iota_from value n) = n.
Proof.
  revert value. induction n as [|n IH]; intros value; simpl; [reflexivity|]. now rewrite IH.
Qed.



Lemma iota_length (n : nat) : length (iota n) = n.
Proof. apply iota_from_length. Qed.


(** The constructor of a chunk accepts columns of the height of the
    chunk, and throws on any other, touching no collaborator. *)
Lemma checkNumRowsIsConsistent_ok (cols : Columns) (n : nat) (tr : Trace) :
  Forall (fun col => column_size col = n) cols ->
  checkNumRowsIsConsistent (mkChunk cols n) tr = (Ok tt, tr).
Proof.
  intros H. unfold checkNumRowsIsConsistent. cbn [chunk_columns num_rows].
  replace (forallb _ cols) with true; [reflexivity|].
  symmetry. apply forallb_forall. intros c Hc. apply bool_decide_eq_true_2.
  rewrite Forall_forall in H. apply H. now apply list_elem_of_In.
Qed.

Lemma checkNumRowsIsConsistent_ok_inv (cols : Columns) (n : nat) (tr tr' : Trace) (u : unit) :
  checkNumRowsIsConsistent (mkChunk cols n) tr = (Ok u, tr') ->
  tr' = tr /\ Forall (fun col => column_size col = n) cols.
Proof.
  unfold checkNumRowsIsConsistent. cbn [chunk_columns num_rows].
  destruct (forallb _ cols) eqn:E; intros H; inversion H; subst. split; [reflexivity|].
  rewrite Forall_forall. intros c Hc. apply list_elem_of_In in Hc.
  rewrite forallb_forall in E. specialize (E c Hc). now apply bool_decide_eq_true in E.
Qed.

Lemma checkNumRowsIsConsistent_throw_inv (cols : Columns) (n : nat) (tr tr' : Trace)
    (e : Exception) :
  checkNumRowsIsConsistent (mkChunk cols n) tr = (Throw e, tr') ->
  tr' = tr /\
  e = mkException LOGICAL_ERROR "Invalid number of rows in Chunk column" /\
  Exists (fun col => column_size col <> n) cols.
Proof.
  unfold checkNumRowsIsConsistent. cbn [chunk_columns num_rows].
  destruct (forallb _ cols) eqn:E; intros H; inversion H; subst.
  split; [reflexivity|]. split; [reflexivity|].
  apply not_Forall_Exists; [intros c; apply _|]. intros Hall.
  rewrite (proj2 (forallb_forall _ cols)) in E; [discriminate|].
  intros c Hc. apply bool_decide_eq_true_2. rewrite Forall_forall in Hall.
  apply Hall. now apply list_elem_of_In.
Qed.

Lemma appends_checkNumRowsIsConsistent (chunk : Chunk) :
  appends (checkNumRowsIsConsistent chunk).
Proof.
  unfold checkNumRowsIsConsistent. destruct (forallb _ _); [apply appends_ret|apply appends_throw].
Qed.

Lemma has_position (b : Block) (n : string) :
  has b n = true -> getPositionByName b n < length b.
Proof.
  unfold has. induction b as [|c b IH]; simpl; [discriminate|].
  destruct (bool_decide (col_name c = n)); simpl; [lia|].
  intros H. apply IH in H. lia.
Qed.

(** The position [getColumnPosition] reports is the ordinal index of the
    first entry of the column list that carries the name. *)
Lemma getColumnPosition_in_spec (cols : list (string * IDataType)) (n : string) (k : nat) :
  getColumnPosition_in cols n = Some k ->
  fst <$> cols !! k = Some n /\ forall j, j < k -> fst <$> cols !! j <> Some n.
Proof.
  revert k. induction cols as [|[n0 t0] cols IH]; intros k; simpl; [discriminate|].
  destruct (bool_decide_reflect (n0 = n)) as [->|Hne].
  - intros [= <-]. split; [reflexivity|]. intros j Hj. lia.
  - destruct (getColumnPosition_in cols n) as [k'|]; simpl; [|discriminate].
    intros [= <-]. destruct (IH k' eq_refl) as [H1 H2]. split; [exact H1|].
    intros [|j] Hj; simpl.
    + intros [= E]. congruence.
    + apply H2. lia.
Qed.

Lemma getColumnPosition_in_None (cols : list (string * IDataType)) (n : string) :
  getColumnPosition_in cols n = None <-> n ∉ map fst cols.
Proof.
  induction cols as [|[n0 t0] cols IH]; simpl.
  - split; [intros _; apply not_elem_of_nil|reflexivity].
  - rewrite not_elem_of_cons.
    destruct (bool_decide_reflect (n0 = n)) as [->|Hne].
    + split; [discriminate|]. intros [H _]. congruence.
    + destruct (getColumnPosition_in cols n) as [k'|]; simpl.
      * split; [discriminate|]. intros [_ H]. apply IH in H. discriminate.
      * split; [|reflexivity]. intros _. split; [congruence|]. now apply IH.
Qed.

(** ** The mark resolver and the column materializer *)

Section SourceProperties.

Variable splitName : string -> bool -> string * string.
Variable unescapeForFileName : string -> string.
Variable getStreamNameOrHash :
  IMergeTreeDataPart -> string -> Checksums -> option string.
Variable getMark :
  MergeTreeMarksLoader -> nat -> nat -> Result MarkInCompressedFile.

Local Abbreviation fillMarks_ := (fillMarks unescapeForFileName getStreamNameOrHash getMark).
Local Abbreviation generate_column_ :=
  (generate_column splitName unescapeForFileName getStreamNameOrHash getMark).
Local Abbreviation column_of_ :=
  (column_of splitName unescapeForFileName getStreamNameOrHash getMark).
Local Abbreviation generate_ :=
  (generate splitName unescapeForFileName getStreamNameOrHash getMark).
Local Abbreviation pull_ :=
  (pull splitName unescapeForFileName getStreamNameOrHash getMark).
Local Abbreviation resolve_ := (resolve splitName).
Local Abbreviation resolved_ := (resolved splitName).

(** The tuple column [fillMarks] builds from the marks of the granules. *)
Local Abbreviation marks_column marks n :=
  (ColumnTuple
     [ColumnNullable (ColumnUInt64 (map (fun i => offset_in_compressed_file (marks i)) (seq 0 n)))
                     (replicate n 0%N);
      ColumnNullable (ColumnUInt64 (map (fun i => offset_in_decompressed_block (marks i)) (seq 0 n)))
                     (replicate n 0%N)]).

Lemma appends_createMarksLoader part prefix_name num_columns :
  appends (createMarksLoader part prefix_name num_columns).
Proof.
  unfold createMarksLoader. apply appends_bind; [apply appends_emit|].
  intros _. apply appends_ret.
Qed.

Lemma appends_loader_getMark marks_loader i col_idx :
  appends (loader_getMark getMark marks_loader i col_idx).
Proof.
  unfold loader_getMark. destruct marks_loader as [loader|]; [|apply appends_throw].
  apply appends_bind; [apply appends_emit|]. intros _.
  destruct (getMark loader i col_idx); [apply appends_ret|apply appends_throw].
Qed.

Lemma appends_fillMarks part marks_loader data_type column_name :
  appends (fillMarks_ part marks_loader data_type column_name).
Proof.
  unfold fillMarks. apply appends_bind.
  - destruct (isWidePart part).
    + destruct (getStreamNameOrHash _ _ _); [|apply appends_ret].
      apply appends_bind; [apply appends_createMarksLoader|]. intros l. apply appends_ret.
    + destruct (isCompactPart part); [|apply appends_throw].
      destruct (getColumnPosition _ _); apply appends_ret.
  - intros [[col_idx has_marks] ml]. destruct has_marks; simpl; [|apply appends_ret].
    apply appends_bind.
    + apply appends_for_each. intros i. apply appends_loader_getMark.
    + intros marks. apply appends_ret.
Qed.

Lemma appends_generate_column ih wm part ml n c :
  appends (generate_column_ ih wm part ml n c).
Proof.
  unfold generate_column.
  destruct (has ih (col_name c)).
  { destruct (index part !! _); [apply appends_ret|apply appends_throw]. }
  destruct (bool_decide (col_name c = col_name part_name_column)).
  { unfold createColumnConst. destruct (col_type c) as [| |[]|]; 
      first [apply appends_ret|apply appends_throw]. }
  destruct (bool_decide (col_name c = col_name mark_number_column)).
  { apply appends_bind; [|intros; apply appends_ret].
    unfold assert_cast_ColumnUInt64. destruct (createColumn _);
      first [apply appends_ret|apply appends_throw]. }
  destruct (bool_decide (col_name c = col_name rows_in_granule_column)).
  { apply appends_bind; [|intros; apply appends_ret].
    unfold assert_cast_ColumnUInt64. destruct (createColumn _);
      first [apply appends_ret|apply appends_throw]. }
  destruct (splitName (col_name c) true) as [first second].
  destruct (wm && bool_decide (second = "mark")); [apply appends_fillMarks|apply appends_throw].
Qed.

(** The loop over the granules: one query per granule, in granule order. *)
Lemma getMark_loop loader col_idx (marks : nat -> MarkInCompressedFile) n tr :
  (forall i, i < n -> getMark loader i col_idx = Ok (marks i)) ->
  for_each (fun i => loader_getMark getMark (Some loader) i col_idx) (seq 0 n) tr =
  (Ok (map marks (seq 0 n)), tr ++ map (fun i => GetMark loader i col_idx) (seq 0 n)).
Proof.
  intros H.
  rewrite (for_each_ok _ marks (fun i => [GetMark loader i col_idx])).
  - f_equal. f_equal. induction (seq 0 n) as [|i l IH]; simpl; [reflexivity|]. now rewrite IH.
  - intros i tr0 Hi. apply elem_of_seq in Hi.
    unfold loader_getMark, bind, emit, ret. rewrite H by lia. reflexivity.
Qed.


Lemma fillMarks_wide part marks_loader data_type column_name stream_name marks tr :
  part_type part = Wide ->
  getStreamNameOrHash part column_name (checksums part) = Some stream_name ->
  let n := getMarksCount (index_granularity part) in
  let loader := mkLoader (name part) stream_name n 1 in
  (forall i, i < n -> getMark loader i 0 = Ok (marks i)) ->
  fillMarks_ part marks_loader data_type column_name tr =
  (Ok (marks_column marks n),
   tr ++ CreateMarksLoader loader :: map (fun i => GetMark loader i 0) (seq 0 n)).
Proof.
  intros Hw Hs n loader Hm. unfold fillMarks, isWidePart. rewrite Hw, Hs.
  unfold createMarksLoader, bind at 1 2 3, emit, ret at 1 2. simpl.
  fold n. fold loader.
  erewrite bind_ok; [|apply getMark_loop; exact Hm].
  unfold ret. rewrite !map_map, <- app_assoc. reflexivity.
Qed.

Lemma fillMarks_compact part loader data_type column_name col_idx marks tr :
  part_type part = Compact ->
  getColumnPosition part (unescapeForFileName column_name) = Some col_idx ->
  let n := getMarksCount (index_granularity part) in
  (forall i, i < n -> getMark loader i col_idx = Ok (marks i)) ->
  fillMarks_ part (Some loader) data_type column_name tr =
  (Ok (marks_column marks n), tr ++ map (fun i => GetMark loader i col_idx) (seq 0 n)).
Proof.
  intros Hc Hp n Hm. unfold fillMarks, isWidePart, isCompactPart. rewrite Hc, Hp.
  unfold bind at 1, ret at 1. simpl. fold n.
  erewrite bind_ok; [|apply getMark_loop; exact Hm].
  unfold ret. rewrite !map_map. reflexivity.
Qed.

Lemma fillMarks_absent part marks_loader data_type column_name tr :
  (part_type part = Wide /\
   getStreamNameOrHash part column_name (checksums part) = None) \/
  (part_type part = Compact /\
   getColumnPosition part (unescapeForFileName column_name) = None) ->
  fillMarks_ part marks_loader data_type column_name tr =
  (Ok (createColumnConstWithDefaultValue data_type (getMarksCount (index_granularity part))), tr).
Proof.
  intros [[Ht Hn]|[Ht Hn]]; unfold fillMarks, isWidePart, isCompactPart;
    rewrite Ht, Hn; reflexivity.
Qed.

Lemma fillMarks_unsupported part marks_loader data_type column_name type_name tr :
  part_type part = OtherType type_name ->
  fillMarks_ part marks_loader data_type column_name tr =
  (Throw (mkException NOT_IMPLEMENTED
            ("Parts with type " +:+ type_name +:+ " are not supported")), tr).
Proof.
  intros Ht. unfold fillMarks, isWidePart, isCompactPart, getTypeName. rewrite Ht. reflexivity.
Qed.

Lemma resolve_mark_inv ih wm n target :
  resolve_ ih wm n = MarkBookmark target ->
  has ih n = false /\ n <> "part_name" /\ n <> "mark_number" /\ n <> "rows_in_granule" /\
  wm = true /\ splitName n true = (target, "mark").
Proof.
  unfold resolve. destruct (has ih n); [discriminate|].
  destruct (bool_decide_reflect (n = "part_name")); [discriminate|].
  destruct (bool_decide_reflect (n = "mark_number")); [discriminate|].
  destruct (bool_decide_reflect (n = "rows_in_granule")); [discriminate|].
  destruct wm; simpl; [|discriminate].
  destruct (bool_decide_reflect (snd (splitName n true) = "mark")) as [E|]; [|discriminate].
  intros [= <-]. repeat split; try assumption.
  destruct (splitName n true) as [a b]; simpl in *. now subst.
Qed.

Lemma resolve_unknown_inv ih wm n :
  resolve_ ih wm n = Unknown ->
  has ih n = false /\ n <> "part_name" /\ n <> "mark_number" /\ n <> "rows_in_granule" /\
  (wm = false \/ snd (splitName n true) <> "mark").
Proof.
  unfold resolve. destruct (has ih n); [discriminate|].
  destruct (bool_decide_reflect (n = "part_name")); [discriminate|].
  destruct (bool_decide_reflect (n = "mark_number")); [discriminate|].
  destruct (bool_decide_reflect (n = "rows_in_granule")); [discriminate|].
  destruct wm; simpl.
  - destruct (bool_decide_reflect (snd (splitName n true) = "mark")); [discriminate|].
    intros _. repeat split; try assumption. now right.
  - intros _. repeat split; try assumption. now left.
Qed.

(** A mark pseudo-column is materialised by [fillMarks] on its target. *)
Lemma generate_column_mark ih wm part ml n c target :
  resolve_ ih wm (col_name c) = MarkBookmark target ->
  generate_column_ ih wm part ml n c = fillMarks_ part ml (col_type c) target.
Proof.
  intros H. apply resolve_mark_inv in H as (Hh & H1 & H2 & H3 & -> & Hs).
  unfold generate_column. rewrite Hh. simpl col_name.
  rewrite !bool_decide_eq_false_2 by assumption.
  rewrite Hs. reflexivity.
Qed.

(** A name of no kind makes the loop body throw, whatever came before. *)
Lemma generate_column_unknown ih wm part ml n c tr :
  resolve_ ih wm (col_name c) = Unknown ->
  generate_column_ ih wm part ml n c tr =
  (Throw (mkException NO_SUCH_COLUMN_IN_TABLE ("No such column " +:+ col_name c)), tr).
Proof.
  intros H. apply resolve_unknown_inv in H as (Hh & H1 & H2 & H3 & Hm).
  unfold generate_column. rewrite Hh. simpl col_name.
  rewrite !bool_decide_eq_false_2 by assumption.
  destruct (splitName (col_name c) true) as [first second]. simpl in Hm.
  destruct Hm as [->|Hm]; [reflexivity|].
  rewrite (bool_decide_eq_false_2 _ Hm), andb_false_r. reflexivity.
Qed.

(** An index or metadata column of its declared type is materialised
    without an exception and without touching the mark loader. *)
Lemma generate_column_plain ih wm part ml c tr :
  resolved_ ih wm c ->
  is_mark_bookmark (resolve_ ih wm (col_name c)) = false ->
  index_complete ih part ->
  exists col,
    generate_column_ ih wm part ml (getMarksCount (index_granularity part)) c tr = (Ok col, tr) /\
    column_size col = getMarksCount (index_granularity part).
Proof.
  unfold resolved, resolve, generate_column. intros Hr Hm [Hlen Hsize].
  change (col_name part_name_column) with "part_name".
  change (col_name mark_number_column) with "mark_number".
  change (col_name rows_in_granule_column) with "rows_in_granule".
  destruct (has ih (col_name c)) eqn:Hh.
  { apply has_position in Hh. rewrite <- Hlen in Hh.
    destruct (lookup_lt_is_Some_2 _ _ Hh) as [col Hcol]. rewrite Hcol.
    exists col. split; [reflexivity|].
    rewrite Forall_forall in Hsize. apply Hsize. eapply list_elem_of_lookup_2, Hcol. }
  simpl col_name.
  destruct (bool_decide (col_name c = "part_name")).
  { simpl in Hr. rewrite Hr. eexists. split; [reflexivity|]. simpl. apply length_replicate. }
  destruct (bool_decide (col_name c = "mark_number")).
  { simpl in Hr. rewrite Hr. eexists. split; [reflexivity|]. simpl. apply iota_length. }
  destruct (bool_decide (col_name c = "rows_in_granule")).
  { simpl in Hr. rewrite Hr. eexists. split; [reflexivity|]. simpl.
    now rewrite length_map, length_seq. }
  destruct (wm && bool_decide (snd (splitName (col_name c) true) = "mark"));
    [discriminate|contradiction].
Qed.

(** [fillMarks] on a part of a supported layout, with the loader
    [generate] hands it and a loader that answers, returns a column of one
    row per mark. *)
Lemma fillMarks_supported part data_type target tr :
  supported_layout part ->
  (forall l i j, exists m, getMark l i j = Ok m) ->
  exists col w,
    fillMarks_ part (shared_marks_loader true part) data_type target tr = (Ok col, tr ++ w) /\
    (data_type = mark_type -> column_size col = getMarksCount (index_granularity part)).
Proof.
  intros Hs Hload.
  pose (marks := fun l j i =>
          match getMark l i j with Ok m => m | Throw _ => mkMark 0 0 end).
  assert (Hmarks : forall l j i, getMark l i j = Ok (marks l j i)).
  { intros l j i. unfold marks. destruct (Hload l i j) as [m ->]. reflexivity. }
  destruct Hs as [Hw|Hc].
  - destruct (getStreamNameOrHash part target (checksums part)) as [stream|] eqn:Hst.
    + eexists _, _. split.
      * eapply fillMarks_wide; [exact Hw|exact Hst|]. intros i _. apply Hmarks.
      * intros _. simpl. apply length_replicate.
    + eexists _, []. rewrite app_nil_r. split.
      * apply fillMarks_absent. left. auto.
      * intros ->. apply default_mark_column_size.
  - unfold shared_marks_loader, isCompactPart. rewrite Hc. simpl.
    destruct (getColumnPosition part (unescapeForFileName target)) as [col_idx|] eqn:Hp.
    + eexists _, _. split.
      * eapply fillMarks_compact; [exact Hc|exact Hp|]. intros i _. apply Hmarks.
      * intros _. simpl. apply length_replicate.
    + eexists _, []. rewrite app_nil_r. split.
      * apply fillMarks_absent. right. auto.
      * intros ->. apply default_mark_column_size.
Qed.

Lemma generate_column_resolved ih wm part c tr :
  resolved_ ih wm c ->
  index_complete ih part ->
  (is_mark_bookmark (resolve_ ih wm (col_name c)) = true -> supported_layout part) ->
  (forall l i j, exists m, getMark l i j = Ok m) ->
  exists col w,
    generate_column_ ih wm part (shared_marks_loader wm part)
      (getMarksCount (index_granularity part)) c tr = (Ok col, tr ++ w) /\
    column_size col = getMarksCount (index_granularity part).
Proof.
  intros Hr Hi Hs Hload.
  destruct (is_mark_bookmark (resolve_ ih wm (col_name c))) eqn:Hm.
  - destruct (resolve_ ih wm (col_name c)) as [| | | |target|] eqn:Hk; try discriminate.
    rewrite (generate_column_mark _ _ _ _ _ _ _ Hk).
    pose proof (resolve_mark_inv _ _ _ _ Hk) as (_ & _ & _ & _ & -> & _).
    unfold resolved in Hr. rewrite Hk in Hr. simpl in Hr.
    destruct (fillMarks_supported part (col_type c) target tr (Hs eq_refl) Hload)
      as (col & w & Hrun & Hsize).
    exists col, w. auto.
  - destruct (generate_column_plain ih wm part (shared_marks_loader wm part) c tr Hr Hm Hi)
      as (col & Hrun & Hsize).
    exists col, []. rewrite app_nil_r. auto.
Qed.

(** The loop of [generate] over a resolved header. *)
Lemma header_columns ih wm part h tr :
  Forall (resolved_ ih wm) h ->
  index_complete ih part ->
  (Exists (fun c => is_mark_bookmark (resolve_ ih wm (col_name c)) = true) h ->
   supported_layout part) ->
  (forall l i j, exists m, getMark l i j = Ok m) ->
  exists cols w,
    for_each (generate_column_ ih wm part (shared_marks_loader wm part)
                (getMarksCount (index_granularity part))) h tr = (Ok cols, tr ++ w) /\
    length cols = length h /\
    Forall (fun col => column_size col = getMarksCount (index_granularity part)) cols /\
    Forall2 (fun c col => column_of_ ih wm part (shared_marks_loader wm part) c = Ok col) h cols.
Proof.
  intros Hr Hi Hs Hload. revert tr.
  induction Hr as [|c h Hc Hr IH]; intros tr.
  - exists [], []. rewrite app_nil_r. repeat split; constructor.
  - destruct (generate_column_resolved ih wm part c tr Hc Hi) as (col & w1 & Hcol & Hsize);
      [intros Hm; apply Hs; now left|exact Hload|].
    destruct (IH (fun Hex => Hs (Exists_cons_tl _ Hex)) (tr ++ w1))
      as (cols & w2 & Hcols & Hlen & Hsizes & Hof).
    exists (col :: cols), (w1 ++ w2). simpl.
    erewrite bind_ok; [|exact Hcol]. erewrite bind_ok; [|exact Hcols].
    unfold ret. rewrite app_assoc. repeat split.
    + simpl. now rewrite Hlen.
    + constructor; assumption.
    + constructor; [|exact Hof]. unfold column_of.
      apply (appends_run _ _ _ _ (appends_generate_column _ _ _ _ _ _)) in Hcol.
      apply Hcol.
Qed.

(** [generate] on a part that is there: the shared loader is created when
    marks are enabled and the part is compact, then the loop runs over the
    header, and the chunk is constructed with as many rows as the part has
    marks. *)
Lemma generate_unfold h ih parts wm k part tr :
  parts !! k = Some part ->
  generate_ (mkSource h ih parts wm k) tr =
  (cols <- for_each (generate_column_ ih wm part (shared_marks_loader wm part)
                       (getMarksCount (index_granularity part))) h ;;
   checkNumRowsIsConsistent (mkChunk cols (getMarksCount (index_granularity part))) ;;;
   ret (mkChunk cols (getMarksCount (index_granularity part)),
        mkSource h ih parts wm (S k)))
    (tr ++ match shared_marks_loader wm part with
           | Some loader => [CreateMarksLoader loader]
           | None => []
           end).
Proof.
  intros Hp. unfold generate. simpl. rewrite Hp.
  unfold shared_marks_loader. destruct (wm && isCompactPart part).
  - unfold createMarksLoader, DATA_FILE_NAME, bind, emit, ret. reflexivity.
  - unfold bind at 1, ret at 1. rewrite app_nil_r. reflexivity.
Qed.

(** Once the parts are exhausted [generate] returns the empty chunk. *)
Lemma generate_exhausted h ih parts wm k tr :
  length parts <= k ->
  generate_ (mkSource h ih parts wm k) tr = (Ok (empty_chunk, mkSource h ih parts wm k), tr).
Proof.
  intros Hk. unfold generate. simpl. rewrite lookup_ge_None_2 by exact Hk. reflexivity.
Qed.

Lemma generate_part h ih parts wm k part tr :
  parts !! k = Some part ->
  Forall (resolved_ ih wm) h ->
  index_complete ih part ->
  (Exists (fun c => is_mark_bookmark (resolve_ ih wm (col_name c)) = true) h ->
   supported_layout part) ->
  (forall l i j, exists m, getMark l i j = Ok m) ->
  exists chunk w,
    generate_ (mkSource h ih parts wm k) tr =
    (Ok (chunk, mkSource h ih parts wm (S k)), tr ++ w) /\
    chunk_of_part splitName unescapeForFileName getStreamNameOrHash getMark ih wm h part chunk.
Proof.
  intros Hp Hr Hi Hs Hload. rewrite (generate_unfold _ _ _ _ _ _ _ Hp).
  destruct (header_columns ih wm part h
              (tr ++ match shared_marks_loader wm part with
                     | Some loader => [CreateMarksLoader loader]
                     | None => []
                     end) Hr Hi Hs Hload) as (cols & w & Hcols & Hlen & Hsizes & Hof).
  eexists _, _. erewrite bind_ok; [|exact Hcols].
  erewrite bind_ok; [|apply checkNumRowsIsConsistent_ok; exact Hsizes].
  unfold ret. rewrite <- app_assoc.
  split; [reflexivity|]. unfold chunk_of_part. simpl. auto.
Qed.

Lemma pull_remaining h ih parts wm :
  Forall (resolved_ ih wm) h ->
  Forall (index_complete ih) parts ->
  (Exists (fun c => is_mark_bookmark (resolve_ ih wm (col_name c)) = true) h ->
   Forall supported_layout parts) ->
  (forall l i j, exists m, getMark l i j = Ok m) ->
  forall m k tr,
    k + m = length parts ->
    exists chunks w,
      pull_ m (mkSource h ih parts wm k) tr =
      (Ok (chunks, mkSource h ih parts wm (length parts)), tr ++ w) /\
      Forall2 (chunk_of_part splitName unescapeForFileName getStreamNameOrHash getMark ih wm h)
              (drop k parts) chunks.
Proof.
  intros Hr Hi Hs Hload. induction m as [|m IH]; intros k tr Hk.
  - exists [], []. rewrite app_nil_r. simpl. unfold ret.
    replace k with (length parts) by lia. rewrite drop_all. split; [reflexivity|constructor].
  - destruct (lookup_lt_is_Some_2 parts k ltac:(lia)) as [part Hp].
    destruct (generate_part h ih parts wm k part tr Hp Hr) as (chunk & w1 & Hgen & Hchunk);
      [eapply Forall_lookup_1; eassumption
      |intros Hex; eapply Forall_lookup_1; [apply Hs, Hex|eassumption]
      |exact Hload|].
    destruct (IH (S k) (tr ++ w1) ltac:(lia)) as (chunks & w2 & Hpull & Hchunks).
    exists (chunk :: chunks), (w1 ++ w2). simpl.
    erewrite bind_ok; [|exact Hgen]. simpl. erewrite bind_ok; [|exact Hpull].
    unfold ret. simpl. rewrite app_assoc. split; [reflexivity|].
    rewrite (drop_S _ _ _ Hp). constructor; assumption.
Qed.

(** The loop over header entries none of which is a mark pseudo-column:
    no exception, and the trace is left as it was. *)
Lemma header_columns_plain ih wm part ml h tr :
  Forall (resolved_ ih wm) h ->
  Forall (fun c => is_mark_bookmark (resolve_ ih wm (col_name c)) = false) h ->
  index_complete ih part ->
  exists cols,
    for_each (generate_column_ ih wm part ml (getMarksCount (index_granularity part))) h tr =
    (Ok cols, tr) /\
    length cols = length h /\
    Forall (fun col => column_size col = getMarksCount (index_granularity part)) cols /\
    Forall2 (fun c col => column_of_ ih wm part ml c = Ok col) h cols.
Proof.
  intros Hr Hm Hi. induction Hr as [|c h Hc Hr IH].
  - exists []. repeat split; constructor.
  - inversion Hm as [|? ? Hmc Hmh]; subst.
    destruct (generate_column_plain ih wm part ml c tr Hc Hmc Hi) as (col & Hcol & Hsize).
    destruct (IH Hmh) as (cols & Hcols & Hlen & Hsizes & Hof).
    exists (col :: cols). simpl.
    erewrite bind_ok; [|exact Hcol]. erewrite bind_ok; [|exact Hcols].
    repeat split.
    + simpl. now rewrite Hlen.
    + constructor; assumption.
    + constructor; [|exact Hof]. unfold column_of.
      apply (appends_run _ _ _ _ (appends_generate_column _ _ _ _ _ _)) in Hcol.
      apply Hcol.
Qed.

(** What a chunk returned for a part is made of. *)
Lemma generate_ok_inv h ih parts wm k part tr chunk s' tr' :
  parts !! k = Some part ->
  generate_ (mkSource h ih parts wm k) tr = (Ok (chunk, s'), tr') ->
  s' = mkSource h ih parts wm (S k) /\
  num_rows chunk = getMarksCount (index_granularity part) /\
  Forall2 (fun c col => exists tr1 tr2,
             generate_column_ ih wm part (shared_marks_loader wm part)
               (getMarksCount (index_granularity part)) c tr1 = (Ok col, tr2))
          h (chunk_columns chunk).
Proof.
  intros Hp H. rewrite (generate_unfold _ _ _ _ _ _ _ Hp) in H.
  apply bind_ok_inv in H as (cols & tr1 & Hcols & H).
  apply bind_ok_inv in H as (u & tr2 & _ & H).
  inversion H; subst. simpl. repeat split.
  eapply for_each_ok_inv. exact Hcols.
Qed.


Lemma sum_num_rows (P : IMergeTreeDataPart -> Chunk -> Prop) parts chunks :
  (forall part chunk, P part chunk -> num_rows chunk = getMarksCount (index_granularity part)) ->
  Forall2 P parts chunks ->
  sum_list (map num_rows chunks) =
  sum_list (map (fun part => getMarksCount (index_granularity part)) parts).
Proof.
  intros HP H. induction H as [|part chunk parts chunks Hpc _ IH]; simpl; [reflexivity|].
  now rewrite (HP _ _ Hpc), IH.
Qed.

(** ** The part chunk generator *)

(** C1. Whenever [generate] returns a chunk for the part at
    [part_index], the chunk has as many rows as the part has marks and as
    many columns as the header has entries, the column at each position
    being the one built for the header entry at that position, and
    [part_index] has advanced by one.  Over a resolved header, parts whose
    stored index is complete, a supported layout wherever a mark
    pseudo-column is requested and a mark loader that answers, as many
    calls of [generate] as there are parts do return one such chunk per
    part, in part-list order, every column of it with as many rows as the
    part has marks, and the next call returns the empty chunk; so the rows
    of all the chunks add up to the marks of all the parts.  Under a header
    that is not empty no chunk of a part is the empty chunk that ends the
    stream. *)
Theorem one_chunk_per_part h ih parts wm :
  (forall k part tr chunk s' tr',
     parts !! k = Some part ->
     generate_ (mkSource h ih parts wm k) tr = (Ok (chunk, s'), tr') ->
     s' = mkSource h ih parts wm (S k) /\
     num_rows chunk = getMarksCount (index_granularity part) /\
     length (chunk_columns chunk) = length h /\
     Forall2 (fun c col => column_of_ ih wm part (shared_marks_loader wm part) c = Ok col)
             h (chunk_columns chunk)) /\
  (forall tr,
     Forall (resolved_ ih wm) h ->
     Forall (index_complete ih) parts ->
     (Exists (fun c => is_mark_bookmark (resolve_ ih wm (col_name c)) = true) h ->
      Forall supported_layout parts) ->
     (forall l i j, exists m, getMark l i j = Ok m) ->
     exists chunks tr',
       pull_ (length parts) (mkSource h ih parts wm 0) tr =
         (Ok (chunks, mkSource h ih parts wm (length parts)), tr') /\
       generate_ (mkSource h ih parts wm (length parts)) tr' =
         (Ok (empty_chunk, mkSource h ih parts wm (length parts)), tr') /\
       Forall2 (chunk_of_part splitName unescapeForFileName getStreamNameOrHash getMark ih wm h)
               parts chunks /\
       length chunks = length parts /\
       sum_list (map num_rows chunks) =
         sum_list (map (fun part => getMarksCount (index_granularity part)) parts) /\
       (h <> [] -> Forall (fun chunk => chunk <> empty_chunk) chunks)).
Proof.
  split.
  - intros k part tr chunk s' tr' Hp Hgen.
    destruct (generate_ok_inv _ _ _ _ _ _ _ _ _ _ Hp Hgen) as (Hs' & Hrows & Hcols).
    split; [exact Hs'|]. split; [exact Hrows|].
    split; [symmetry; eapply Forall2_length; exact Hcols|].
    eapply Forall2_impl; [exact Hcols|].
    intros c col (tr1 & tr2 & Hrun). unfold column_of.
    apply (appends_run _ _ _ _ (appends_generate_column _ _ _ _ _ _)) in Hrun.
    apply Hrun.
  - intros tr Hr Hi Hs Hload.
    destruct (pull_remaining h ih parts wm Hr Hi Hs Hload (length parts) 0 tr eq_refl)
      as (chunks & w & Hpull & Hchunks).
    rewrite drop_0 in Hchunks.
    exists chunks, (tr ++ w). split; [exact Hpull|]. split; [now apply generate_exhausted|].
    split; [exact Hchunks|]. split; [symmetry; eapply Forall2_length; exact Hchunks|].
    split.
    + eapply sum_num_rows; [|exact Hchunks]. intros part chunk Hc. apply Hc.
    + intros Hne. clear Hpull Hi Hs.
      induction Hchunks as [|part chunk ps cs Hc _ IH]; constructor.
      * intros ->. destruct Hc as (_ & Hwidth & _). simpl in Hwidth.
        destruct h; [now apply Hne|discriminate].
      * exact IH.
Qed.


(** C3. A mark pseudo-column whose target has no stream name in a wide
    part, or no position in the column list of a compact part, is built as
    the default column of its declared type: one row per mark, every row
    the default value of the type, which for the declared tuple type is a
    tuple and not a null row.  No exception is thrown, and the trace is
    left as it was: no mark loader is created for the column and none is
    queried. *)
Theorem absent_column_is_default ih wm part ml c target tr :
  resolve_ ih wm (col_name c) = MarkBookmark target ->
  (part_type part = Wide /\
   getStreamNameOrHash part target (checksums part) = None) \/
  (part_type part = Compact /\
   getColumnPosition part (unescapeForFileName target) = None) ->
  let n := getMarksCount (index_granularity part) in
  let col := createColumnConstWithDefaultValue (col_type c) n in
  generate_column_ ih wm part ml n c tr = (Ok col, tr) /\
  fillMarks_ part ml (col_type c) target tr = (Ok col, tr) /\
  (forall i, i < n -> column_at col i = Some (getDefault (col_type c))) /\
  (col_type c = mark_type ->
   column_size col = n /\
   getDefault (col_type c) <> FieldNull /\
   exists compressed uncompressed,
     getDefault (col_type c) = FieldTuple [compressed; uncompressed]).
Proof.
  intros Hk Habs n col.
  rewrite (generate_column_mark _ _ _ _ _ _ _ Hk).
  pose proof (fillMarks_absent part ml (col_type c) target tr Habs) as Hrun.
  split; [exact Hrun|]. split; [exact Hrun|]. split.
  - intros i Hi. now apply default_column_at.
  - intros Ht. unfold col. rewrite Ht. split; [apply default_mark_column_size|].
    split; [discriminate|]. simpl. eauto.
Qed.


(** X20. A call of [generate] that reaches a part with a header holding a
    name of no kind returns no chunk: it throws.
    When the columns before the first such name are built without an
    exception, the exception is "No such column" with that name, thrown
    after whatever those columns added to the trace; when they are index
    or metadata columns no mark has been loaded by then. *)
Theorem unknown_column_throws h ih parts wm k part pre c post tr :
  parts !! k = Some part ->
  h = pre ++ c :: post ->
  resolve_ ih wm (col_name c) = Unknown ->
  let n := getMarksCount (index_granularity part) in
  let tr0 := tr ++ match shared_marks_loader wm part with
                   | Some loader => [CreateMarksLoader loader]
                   | None => []
                   end in
  let no_such_column :=
    mkException NO_SUCH_COLUMN_IN_TABLE ("No such column " +:+ col_name c) in
  (exists e tr', generate_ (mkSource h ih parts wm k) tr = (Throw e, tr')) /\
  (forall cols tr1,
     for_each (generate_column_ ih wm part (shared_marks_loader wm part) n) pre tr0 =
       (Ok cols, tr1) ->
     generate_ (mkSource h ih parts wm k) tr = (Throw no_such_column, tr1)) /\
  (Forall (resolved_ ih wm) pre ->
   Forall (fun c0 => is_mark_bookmark (resolve_ ih wm (col_name c0)) = false) pre ->
   index_complete ih part ->
   generate_ (mkSource h ih parts wm k) tr = (Throw no_such_column, tr0)).
Proof.
  intros Hp -> Hk n tr0 no_such_column.
  assert (Hstep : forall cols tr1,
    for_each (generate_column_ ih wm part (shared_marks_loader wm part) n) pre tr0 =
      (Ok cols, tr1) ->
    generate_ (mkSource (pre ++ c :: post) ih parts wm k) tr = (Throw no_such_column, tr1)).
  { intros cols tr1 Hpre. rewrite (generate_unfold _ _ _ _ _ _ _ Hp).
    apply bind_throw. eapply for_each_throw; [exact Hpre|].
    now apply generate_column_unknown. }
  split; [|split].
  - destruct (generate_ (mkSource (pre ++ c :: post) ih parts wm k) tr)
      as [[[chunk s']|e] tr'] eqn:Hgen; [|eauto].
    destruct (generate_ok_inv _ _ _ _ _ _ _ _ _ _ Hp Hgen) as (_ & _ & Hcols).
    apply Forall2_app_inv_l in Hcols as (cols1 & cols2 & _ & Hc2 & _).
    inversion Hc2 as [|? col ? ? (tr1 & tr2 & Hrun) _]; subst.
    rewrite generate_column_unknown in Hrun by exact Hk. discriminate.
  - exact Hstep.
  - intros Hr Hm Hi.
    destruct (header_columns_plain ih wm part (shared_marks_loader wm part) pre tr0 Hr Hm Hi)
      as (cols & Hcols & _).
    eapply Hstep. exact Hcols.
Qed.

(** C7, as the code has it.  For a part whose layout is neither wide nor
    compact, [fillMarks] throws NOT_IMPLEMENTED with the name of the layout
    before creating or querying any loader; so a call of [generate] that
    reaches such a part with a mark pseudo-column in the header, the
    columns before it being index or metadata columns, throws that
    exception and returns no chunk. *)
Theorem unsupported_layout_throws_on_marks part type_name :
  part_type part = OtherType type_name ->
  let not_implemented :=
    mkException NOT_IMPLEMENTED ("Parts with type " +:+ type_name +:+ " are not supported") in
  (forall ml data_type target tr,
     fillMarks_ part ml data_type target tr = (Throw not_implemented, tr)) /\
  (forall h ih parts wm k pre c post target tr,
     parts !! k = Some part ->
     h = pre ++ c :: post ->
     resolve_ ih wm (col_name c) = MarkBookmark target ->
     Forall (resolved_ ih wm) pre ->
     Forall (fun c0 => is_mark_bookmark (resolve_ ih wm (col_name c0)) = false) pre ->
     index_complete ih part ->
     generate_ (mkSource h ih parts wm k) tr = (Throw not_implemented, tr)).
Proof.
  intros Ht not_implemented. split.
  - intros ml data_type target tr. now apply fillMarks_unsupported.
  - intros h ih parts wm k pre c post target tr Hp -> Hk Hr Hm Hi.
    rewrite (generate_unfold _ _ _ _ _ _ _ Hp).
    assert (Hnone : shared_marks_loader wm part = None).
    { unfold shared_marks_loader, isCompactPart. rewrite Ht, andb_false_r. reflexivity. }
    rewrite Hnone, app_nil_r.
    destruct (header_columns_plain ih wm part None pre tr Hr Hm Hi) as (cols & Hcols & _).
    apply bind_throw. eapply for_each_throw; [exact Hcols|].
    rewrite (generate_column_mark _ _ _ _ _ _ _ Hk). now apply fillMarks_unsupported.
Qed.

(** With no part to read, [generate] returns the empty chunk whatever the
    header holds, names of no kind included: no exception is thrown, the
    trace and the source are left as they were, and so it is for every
    further call. *)
Lemma empty_part_list_ends_stream h ih wm k n tr :
  generate_ (mkSource h ih [] wm k) tr = (Ok (empty_chunk, mkSource h ih [] wm k), tr) /\
  pull_ n (mkSource h ih [] wm k) tr =
    (Ok (replicate n empty_chunk, mkSource h ih [] wm k), tr).
Proof.
  split; [reflexivity|]. induction n as [|n IH]; [reflexivity|].
  simpl. unfold bind at 1. simpl. unfold bind at 1. rewrite IH. reflexivity.
Qed.

(** C9. For a part whose layout is neither wide nor compact and a
    resolved header without mark pseudo-columns, [generate] throws nothing
    and returns the chunk of the part, leaving the trace as it was. *)
Theorem unsupported_layout_without_marks h ih parts wm k part type_name tr :
  parts !! k = Some part ->
  part_type part = OtherType type_name ->
  Forall (resolved_ ih wm) h ->
  Forall (fun c => is_mark_bookmark (resolve_ ih wm (col_name c)) = false) h ->
  index_complete ih part ->
  exists chunk,
    generate_ (mkSource h ih parts wm k) tr = (Ok (chunk, mkSource h ih parts wm (S k)), tr) /\
    chunk_of_part splitName unescapeForFileName getStreamNameOrHash getMark ih wm h part chunk.
Proof.
  intros Hp Ht Hr Hm Hi. rewrite (generate_unfold _ _ _ _ _ _ _ Hp).
  assert (Hnone : shared_marks_loader wm part = None).
  { unfold shared_marks_loader, isCompactPart. rewrite Ht, andb_false_r. reflexivity. }
  rewrite Hnone, app_nil_r.
  destruct (header_columns_plain ih wm part None h tr Hr Hm Hi)
    as (cols & Hcols & Hlen & Hsizes & Hof).
  eexists. erewrite bind_ok; [|exact Hcols].
  erewrite bind_ok; [|apply checkNumRowsIsConsistent_ok; exact Hsizes].
  split; [reflexivity|].
  unfold chunk_of_part. rewrite Hnone. simpl. auto.
Qed.

End SourceProperties.

(** ** The part filter *)

Section FilterProperties.

Variable filterBlockWithQuery : IAST -> list string -> Result (list string).

Local Abbreviation getFilteredDataParts_ := (getFilteredDataParts filterBlockWithQuery).

(** The whole of [getFilteredDataParts]: without a WHERE expression the
    parts as they are and no call to the evaluator; with one, a single call
    on the block of all part names, and the parts whose name is among the
    rows the evaluator left, scanned in part-list order. *)
Lemma getFilteredDataParts_run (parts : DataPartsVector) (query_info : SelectQueryInfo)
    (tr : Trace) :
  getFilteredDataParts_ parts query_info tr =
  match select_where (query query_info) with
  | None => (Ok parts, tr)
  | Some _ =>
      match filterBlockWithQuery (query query_info) (map name parts) with
      | Ok rows =>
          (Ok (filter (fun part => name part ∈ rows) parts),
           tr ++ [FilterBlockWithQuery (map name parts)])
      | Throw e => (Throw e, tr ++ [FilterBlockWithQuery (map name parts)])
      end
  end.
Proof.
  unfold getFilteredDataParts. destruct (select_where (query query_info)); [|reflexivity].
  unfold filterBlock, bind, emit, ret, throw.
  destruct (filterBlockWithQuery (query query_info) (map name parts)) as [rows|e];
    [|reflexivity].
  destruct (bool_decide_reflect (length rows = 0)) as [Hn|Hn].
  - apply nil_length_inv in Hn. subst rows. f_equal. f_equal.
    symmetry. induction parts as [|part parts IH]; [reflexivity|].
    rewrite filter_cons_False; [exact IH|]. apply not_elem_of_nil.
  - f_equal. f_equal. apply list_filter_iff. intros part. apply elem_of_list_to_set.
Qed.

(** C5. Without a WHERE expression the part list is returned as it is
    and the evaluator is not called.  Whatever the expression, a returned
    list holds only parts of the original list, under names of the original
    list, and holds no part twice when the names of the original list are
    distinct; it is returned whenever the evaluator returns.  When the
    evaluator leaves no row the result is the empty list, not an
    exception. *)
Theorem filter_narrows (parts : DataPartsVector) (query_info : SelectQueryInfo) (tr : Trace) :
  (select_where (query query_info) = None ->
   getFilteredDataParts_ parts query_info tr = (Ok parts, tr)) /\
  (forall result tr',
     getFilteredDataParts_ parts query_info tr = (Ok result, tr') ->
     result ⊆ parts /\
     map name result ⊆ map name parts /\
     (NoDup (map name parts) -> NoDup (map name result) /\ NoDup result)) /\
  (forall rows,
     filterBlockWithQuery (query query_info) (map name parts) = Ok rows ->
     exists result tr',
       getFilteredDataParts_ parts query_info tr = (Ok result, tr') /\
       forall part,
         part ∈ result <->
         part ∈ parts /\ (select_where (query query_info) = None \/ name part ∈ rows)) /\
  (forall w,
     select_where (query query_info) = Some w ->
     filterBlockWithQuery (query query_info) (map name parts) = Ok [] ->
     getFilteredDataParts_ parts query_info tr =
     (Ok [], tr ++ [FilterBlockWithQuery (map name parts)])).
Proof.
  rewrite getFilteredDataParts_run. split; [|split; [|split]].
  - intros ->. reflexivity.
  - intros result tr' H.
    assert (Hsub : result `sublist_of` parts).
    { destruct (select_where (query query_info)).
      - destruct (filterBlockWithQuery _ _); inversion H; subst. apply sublist_filter.
      - inversion H; subst. reflexivity. }
    assert (Hnames : map name result `sublist_of` map name parts)
      by (apply fmap_sublist, Hsub).
    split; [now apply sublist_subseteq|]. split; [now apply sublist_subseteq|].
    intros Hnd. split; [eapply sublist_NoDup; eassumption|].
    eapply NoDup_fmap_1, sublist_NoDup; eassumption.
  - intros rows Hrows. rewrite Hrows.
    destruct (select_where (query query_info)) as [w|]; eexists _, _; (split; [reflexivity|]).
    + intros part. rewrite list_elem_of_filter. split.
      * intros [Hn Hp]. auto.
      * intros [Hp [Hw|Hn]]; [discriminate|auto].
    + intros part. split; [auto|]. intros [Hp _]. exact Hp.
  - intros w -> Hrows. rewrite Hrows. f_equal. f_equal.
    generalize parts as ps. induction ps as [|p ps IH]; [reflexivity|].
    rewrite filter_cons_False; [exact IH|apply not_elem_of_nil].
Qed.

(** C10. Whatever the filter expression, the returned parts stand in the
    order they have in the original list: the result is the original list
    scanned in order, keeping the parts whose name the evaluator left. *)
Theorem filter_preserves_order (parts : DataPartsVector) (query_info : SelectQueryInfo)
    (tr : Trace) (result : DataPartsVector) (tr' : Trace) :
  getFilteredDataParts_ parts query_info tr = (Ok result, tr') ->
  result `sublist_of` parts /\
  (forall w rows,
     select_where (query query_info) = Some w ->
     filterBlockWithQuery (query query_info) (map name parts) = Ok rows ->
     result = filter (fun part => name part ∈ rows) parts) /\
  (select_where (query query_info) = None -> result = parts).
Proof.
  rewrite getFilteredDataParts_run. intros H. split; [|split].
  - destruct (select_where (query query_info)).
    + destruct (filterBlockWithQuery _ _); inversion H; subst. apply sublist_filter.
    + inversion H; subst. reflexivity.
  - intros w rows Hw Hrows. rewrite Hw, Hrows in H. now inversion H.
  - intros Hw. rewrite Hw in H. now inversion H.
Qed.

End FilterProperties.

(** ** The read entry point *)

Lemma has_elem_of (b : Block) (n : string) : has b n = true <-> n ∈ map col_name b.
Proof.
  unfold has. induction b as [|c b IH]; simpl.
  - split; [discriminate|]. intros H. inversion H.
  - rewrite orb_true_iff, bool_decide_eq_true, elem_of_cons, IH. split; intros [H|H]; auto.
Qed.

Lemma find_declared (columns : Block) (n : string) :
  match List.find (fun c => bool_decide (col_name c = n)) columns with
  | Some c => c ∈ columns /\ col_name c = n
  | None => n ∉ map col_name columns
  end.
Proof.
  induction columns as [|c columns IH]; simpl.
  - intros H. inversion H.
  - destruct (bool_decide_reflect (col_name c = n)) as [Hc|Hc].
    + split; [left|exact Hc].
    + destruct (List.find _ columns) as [c'|].
      * destruct IH as [Hin Hn]. split; [now right|exact Hn].
      * rewrite not_elem_of_cons. auto.
Qed.

(** A request of declared names resolves: one declared column per name,
    in request order. *)
Lemma getSampleBlockForColumns_declared (columns : Block) (column_names : list string) :
  Forall (fun n => n ∈ map col_name columns) column_names ->
  exists h,
    StorageSnapshot_getSampleBlockForColumns columns column_names = Ok h /\
    map col_name h = column_names /\
    Forall (fun c => c ∈ columns) h.
Proof.
  induction 1 as [|n names Hn _ (h & Hrun & Hnames & Hin)]; simpl.
  - exists []. repeat split; constructor.
  - pose proof (find_declared columns n) as Hfind.
    destruct (List.find _ columns) as [c|]; [|contradiction].
    destruct Hfind as [Hc Hcn]. rewrite Hrun. exists (c :: h).
    split; [reflexivity|]. split; [simpl; now rewrite Hcn, Hnames|]. now constructor.
Qed.

(** A request holding a name that is not declared fails on the first such
    name. *)
Lemma getSampleBlockForColumns_unknown (columns : Block) (column_names : list string)
    (n : string) :
  n ∈ column_names -> n ∉ map col_name columns ->
  exists pre first post,
    column_names = pre ++ first :: post /\
    Forall (fun m => m ∈ map col_name columns) pre /\
    (first ∉ map col_name columns) /\
    StorageSnapshot_getSampleBlockForColumns columns column_names =
      Throw (mkException NO_SUCH_COLUMN_IN_TABLE ("No such column " +:+ first)).
Proof.
  intros Hn Hnd. induction column_names as [|a names IH]; [inversion Hn|].
  simpl. pose proof (find_declared columns a) as Hfind.
  destruct (List.find _ columns) as [c|].
  - destruct Hfind as [Hc Hca].
    assert (Ha : a ∈ map col_name columns).
    { rewrite <- Hca. now apply list_elem_of_fmap_2. }
    apply elem_of_cons in Hn as [->|Hn]; [contradiction|].
    destruct (IH Hn) as (pre & first & post & -> & Hpre & Hfirst & Hrun).
    exists (a :: pre), first, post. rewrite Hrun.
    split; [reflexivity|]. split; [now constructor|]. split; [exact Hfirst|reflexivity].
  - exists [], a, names. split; [reflexivity|]. split; [constructor|].
    split; [exact Hfind|reflexivity].
Qed.

(** The names of the declared columns. *)
Lemma declared_columns_names (primary_key : Block) (wm : bool)
    (storage_columns : list (string * IDataType)) (n : string) :
  n ∈ map col_name (declared_columns primary_key wm storage_columns) <->
  has primary_key n = true \/
  n = "part_name" \/ n = "mark_number" \/ n = "rows_in_granule" \/
  (wm = true /\ exists c, c ∈ map fst storage_columns /\ n = c +:+ ".mark").
Proof.
  unfold declared_columns.
  rewrite !map_app, !elem_of_app, has_elem_of.
  change (map col_name virtuals_sample_block)
    with ["part_name"; "mark_number"; "rows_in_granule"].
  rewrite !elem_of_cons, elem_of_nil.
  assert (Hmarks :
    n ∈ map col_name
          (if wm
           then map (fun c : string * IDataType =>
                       mkColumnWithTypeAndName mark_type (fst c +:+ ".mark"))
                    storage_columns
           else []) <->
    wm = true /\ exists c, c ∈ map fst storage_columns /\ n = c +:+ ".mark").
  { destruct wm; simpl.
    - rewrite map_map. simpl. rewrite list_elem_of_fmap. split.
      + intros (c & -> & Hc). split; [reflexivity|]. exists (fst c).
        split; [now apply list_elem_of_fmap_2|reflexivity].
      + intros (_ & c & Hc & ->). apply list_elem_of_fmap in Hc as (x & -> & Hx).
        exists x. auto.
    - split; [intros H; inversion H|intros [H _]; discriminate]. }
  rewrite Hmarks. tauto.
Qed.

Section ReadProperties.

Variable splitName : string -> bool -> string * string.
Variable unescapeForFileName : string -> string.
Variable getStreamNameOrHash :
  IMergeTreeDataPart -> string -> Checksums -> option string.
Variable getMark :
  MergeTreeMarksLoader -> nat -> nat -> Result MarkInCompressedFile.
Variable filterBlockWithQuery : IAST -> list string -> Result (list string).
Variable hasColumnOrSubcolumn : list (string * IDataType) -> string -> bool.
Variable checkAccess : string -> list string -> Result unit.

Local Abbreviation read_resolved :=
  (StorageMergeTreeIndex.read splitName unescapeForFileName filterBlockWithQuery
     hasColumnOrSubcolumn checkAccess StorageSnapshot_getSampleBlockForColumns).
Local Abbreviation columns_from_storage_ :=
  (StorageMergeTreeIndex.columns_from_storage splitName unescapeForFileName
     hasColumnOrSubcolumn).

(** C6. A read request that holds a name which is not a declared column of
    the facade fails: [read] throws and returns no source, so that no chunk
    is generated and no mark is loaded; the only call it has made is the
    access check, the filter evaluator has not been called.  When the
    access check passes, the exception is the unknown-column error naming
    the first such name of the request.  The declared columns of a facade
    are the components of the primary key, the three metadata columns and,
    with marks enabled, [c.mark] for every column [c] of the table: so a
    request holding a name that is none of these is refused in this way. *)
Theorem read_rejects_unknown_column this table column_names query_info tr :
  let declared := map col_name (StorageMergeTreeIndex.metadata_columns this) in
  let checked :=
    columns_from_storage_ (getMetadataColumns table)
      (StorageMergeTreeIndex.with_marks this) column_names in
  let refused : Prop :=
    (exists e,
       StorageMergeTreeIndex.read splitName unescapeForFileName filterBlockWithQuery
         hasColumnOrSubcolumn checkAccess StorageSnapshot_getSampleBlockForColumns
         this table column_names query_info tr =
       (Throw e, tr ++ [CheckAccess (getStorageID table) checked])) /\
    (checkAccess (getStorageID table) checked = Ok tt ->
     exists pre first post,
       column_names = pre ++ first :: post /\
       Forall (fun m => m ∈ declared) pre /\
       (first ∉ declared) /\
       read_resolved this table column_names query_info tr =
       (Throw (mkException NO_SUCH_COLUMN_IN_TABLE ("No such column " +:+ first)),
        tr ++ [CheckAccess (getStorageID table) checked])) in
  (forall n, n ∈ column_names -> n ∉ declared -> refused) /\
  (forall primary_key wm storage_columns n,
     n ∈ map col_name (declared_columns primary_key wm storage_columns) <->
     has primary_key n = true \/
     n = "part_name" \/ n = "mark_number" \/ n = "rows_in_granule" \/
     (wm = true /\ exists c, c ∈ map fst storage_columns /\ n = c +:+ ".mark")) /\
  (forall storage_columns n,
     StorageMergeTreeIndex.metadata_columns this =
       declared_columns (StorageMergeTreeIndex.key_sample_block this)
         (StorageMergeTreeIndex.with_marks this) storage_columns ->
     n ∈ column_names ->
     has (StorageMergeTreeIndex.key_sample_block this) n = false ->
     n <> "part_name" -> n <> "mark_number" -> n <> "rows_in_granule" ->
     (StorageMergeTreeIndex.with_marks this = true ->
      forall c, c ∈ map fst storage_columns -> n <> c +:+ ".mark") ->
     refused).
Proof.
  intros declared checked refused.
  assert (Hrefused : forall n, n ∈ column_names -> n ∉ declared -> refused).
  { intros n Hn Hnd.
    destruct (getSampleBlockForColumns_unknown _ _ _ Hn Hnd)
      as (pre & first & post & Hnames & Hpre & Hfirst & Hrun).
    split.
    - unfold StorageMergeTreeIndex.read, rbind, remit, of_result, rret, rthrow.
      fold checked. destruct (checkAccess (getStorageID table) checked) as [u|e].
      + rewrite Hrun. eexists. reflexivity.
      + eexists. reflexivity.
    - intros Hc. exists pre, first, post.
      split; [exact Hnames|]. split; [exact Hpre|]. split; [exact Hfirst|].
      unfold StorageMergeTreeIndex.read, rbind, remit, of_result, rret, rthrow.
      fold checked. rewrite Hc, Hrun. reflexivity. }
  split; [exact Hrefused|]. split; [apply declared_columns_names|].
  intros storage_columns n Hmeta Hn Hkey H1 H2 H3 Hmark.
  apply (Hrefused n Hn). unfold declared. rewrite Hmeta, declared_columns_names.
  intros [H|[H|[H|[H|(Hw & c & Hc & H)]]]];
    [congruence|contradiction|contradiction|contradiction|].
  exact (Hmark Hw c Hc H).
Qed.

(** C8, as the code has it.  A read whose requested names are all declared
    columns and which passes the access check, over a part list that is
    empty or that the filter empties, raises no error and emits no chunk:
    [read] returns a source without parts under the header of the requested
    names, and every call of its generator returns the empty chunk, leaving
    the trace as it was.  Inside the generator no name is inspected when
    there is no part: a source without parts returns the empty chunk under
    any header. *)
Theorem read_over_no_parts_emits_nothing this table column_names query_info tr :
  let declared := map col_name (StorageMergeTreeIndex.metadata_columns this) in
  let checked :=
    columns_from_storage_ (getMetadataColumns table)
      (StorageMergeTreeIndex.with_marks this) column_names in
  (Forall (fun n => n ∈ declared) column_names ->
   checkAccess (getStorageID table) checked = Ok tt ->
   fst (getFilteredDataParts filterBlockWithQuery (StorageMergeTreeIndex.data_parts this)
          query_info []) = Ok [] ->
   exists src tr',
     StorageMergeTreeIndex.read splitName unescapeForFileName filterBlockWithQuery
       hasColumnOrSubcolumn checkAccess StorageSnapshot_getSampleBlockForColumns
       this table column_names query_info tr = (Ok src, tr') /\
     data_parts src = [] /\
     part_index src = 0 /\
     map col_name (header src) = column_names /\
     forall n tr2,
       pull splitName unescapeForFileName getStreamNameOrHash getMark n src tr2 =
       (Ok (replicate n empty_chunk, src), tr2)) /\
  (forall h ih wm k n tr2,
     pull splitName unescapeForFileName getStreamNameOrHash getMark n
          (mkSource h ih [] wm k) tr2 =
     (Ok (replicate n empty_chunk, mkSource h ih [] wm k), tr2)).
Proof.
  intros declared checked. split.
  - intros Hnames Hc Hparts.
    destruct (getSampleBlockForColumns_declared _ _ Hnames) as (h & Hrun & Hh & _).
    unfold StorageMergeTreeIndex.read, rbind, remit, of_result, rret, rthrow, lift.
    fold checked. rewrite Hc, Hrun, Hparts.
    eexists _, _. split; [reflexivity|]. cbn [data_parts part_index header].
    split; [reflexivity|]. split; [reflexivity|]. split; [exact Hh|].
    intros n tr2. apply empty_part_list_ends_stream.
  - intros h ih wm k n tr2. apply empty_part_list_ends_stream.
Qed.

End ReadProperties.

(** * The properties on the example table *)

Ltac resolved_header :=
  cbv [header_marks header_plain app];
  repeat (constructor; [vm_compute; first [exact I | reflexivity]|]);
  constructor.

Ltac complete_index :=
  repeat (constructor; [split; [reflexivity|repeat constructor]|]);
  constructor.

(** Two parts, all the columns: two chunks, of 3 and of 1 rows. *)
Lemma one_chunk_per_part_witness :
  exists chunks tr',
    example_pull 2 (mkSource header_marks key_sample_block [P1; P2] true 0) [] =
      (Ok (chunks, mkSource header_marks key_sample_block [P1; P2] true 2), tr') /\
    example_generate (mkSource header_marks key_sample_block [P1; P2] true 2) tr' =
      (Ok (empty_chunk, mkSource header_marks key_sample_block [P1; P2] true 2), tr') /\
    length chunks = 2 /\
    sum_list (map num_rows chunks) = 4.
Proof.
  destruct (proj2 (one_chunk_per_part Nested_splitName unescape_plain stream_if_listed
                     getMark_grid header_marks key_sample_block [P1; P2] true) [])
    as (chunks & tr' & Hpull & Hend & _ & Hlen & Hsum & _).
  - resolved_header.
  - complete_index.
  - intros _. constructor; [left; reflexivity|].
    constructor; [right; reflexivity|]. constructor.
  - intros l i j. eexists. reflexivity.
  - exists chunks, tr'. repeat split; assumption.
Defined.


(** The column [v] is not in the compact part [P2]. *)
Lemma absent_column_is_default_witness :
  generate_column Nested_splitName unescape_plain stream_if_listed getMark_grid
    key_sample_block true P2 (shared_marks_loader true P2) 1 (column mark_type "v.mark") [] =
    (Ok (ColumnTuple [ColumnNullable (ColumnUInt64 [0%N]) [1%N];
                      ColumnNullable (ColumnUInt64 [0%N]) [1%N]]), []).
Proof.
  apply (absent_column_is_default Nested_splitName unescape_plain stream_if_listed getMark_grid
           key_sample_block true P2 (shared_marks_loader true P2)
           (column mark_type "v.mark") "v" []).
  - reflexivity.
  - right. split; reflexivity.
Defined.


(** The filter [part_name = 'P2'] over three parts; no WHERE expression;
    a filter no part passes. *)
Lemma filter_narrows_witness :
  getFilteredDataParts filter_part_name_equals [P1; P2; P3] select_all [] =
    (Ok [P1; P2; P3], []) /\
  (exists result tr',
     getFilteredDataParts filter_part_name_equals [P1; P2; P3] (select_part "P2") [] =
       (Ok result, tr') /\
     forall part, part ∈ result <->
       part ∈ [P1; P2; P3] /\
       (select_where (query (select_part "P2")) = None \/ name part ∈ ["P2"])) /\
  getFilteredDataParts filter_part_name_equals [P1; P2; P3] (select_part "P9") [] =
    (Ok [], [FilterBlockWithQuery ["P1"; "P2"; "P3"]]).
Proof.
  split; [|split].
  - apply (proj1 (filter_narrows filter_part_name_equals [P1; P2; P3] select_all [])).
    reflexivity.
  - apply (proj1 (proj2 (proj2 (filter_narrows filter_part_name_equals [P1; P2; P3]
                                  (select_part "P2") [])))).
    vm_compute. reflexivity.
  - eapply (proj2 (proj2 (proj2 (filter_narrows filter_part_name_equals [P1; P2; P3]
                                   (select_part "P9") [])))).
    + reflexivity.
    + vm_compute. reflexivity.
Defined.

(** The unknown name [bogus] requested between [id] and [v.mark]: the
    read is refused once access to [id] and [v] has been checked. *)
Lemma read_rejects_unknown_column_witness :
  example_read_resolved example_facade example_table ["id"; "bogus"; "v.mark"]
    (select_part "P2") [] =
  (Throw (mkException NO_SUCH_COLUMN_IN_TABLE "No such column bogus"),
   [CheckAccess "db.t" ["id"; "v"]]).
Proof.
  destruct (proj2 (proj2 (read_rejects_unknown_column Nested_splitName unescape_plain
                            filter_part_name_equals has_column deny_secret
                            example_facade example_table ["id"; "bogus"; "v.mark"]
                            (select_part "P2") []))
              (getMetadataColumns example_table) "bogus") as [_ Hnamed].
  - reflexivity.
  - right. left.
  - reflexivity.
  - discriminate.
  - discriminate.
  - discriminate.
  - intros _ c Hc. cbn in Hc.
    repeat (apply elem_of_cons in Hc as [->|Hc]; [discriminate|]). inversion Hc.
  - destruct (Hnamed eq_refl) as (pre & first & post & _ & _ & _ & Hrun).
    assert (Hfirst : first = "bogus").
    { pose proof Hrun as Hrun'. vm_compute in Hrun'. now inversion Hrun'. }
    subst first. exact Hrun.
Defined.

(** The columns [id] and [v.mark] read under a filter no part passes. *)
Lemma read_over_no_parts_emits_nothing_witness :
  exists src tr',
    example_read_resolved example_facade example_table ["id"; "v.mark"]
      (select_part "P9") [] = (Ok src, tr') /\
    data_parts src = [] /\
    example_pull 3 src [] = (Ok ([empty_chunk; empty_chunk; empty_chunk], src), []).
Proof.
  destruct (proj1 (read_over_no_parts_emits_nothing Nested_splitName unescape_plain
                     stream_if_listed getMark_grid filter_part_name_equals has_column
                     deny_secret example_facade example_table ["id"; "v.mark"]
                     (select_part "P9") []))
    as (src & tr' & Hread & Hparts & _ & _ & Hpull).
  - repeat (constructor; [cbn; rewrite !elem_of_cons; auto 10|]). constructor.
  - reflexivity.
  - vm_compute. reflexivity.
  - exists src, tr'. split; [exact Hread|]. split; [exact Hparts|]. exact (Hpull 3 []).
Defined.

(** The request of an unknown name after the index and metadata columns,
    on the part [P1]. *)
Lemma unknown_column_throws_witness :
  example_generate
    (mkSource (header_plain ++ [column DataTypeString "bogus"]) key_sample_block
              [P1; P2] true 0) [] =
  (Throw (mkException NO_SUCH_COLUMN_IN_TABLE "No such column bogus"), []).
Proof.
  apply (proj2 (proj2 (unknown_column_throws Nested_splitName unescape_plain stream_if_listed
                         getMark_grid
                         (header_plain ++ [column DataTypeString "bogus"]) key_sample_block
                         [P1; P2] true 0 P1 header_plain (column DataTypeString "bogus") [] []
                         eq_refl eq_refl eq_refl))).
  - resolved_header.
  - repeat constructor.
  - split; [reflexivity|repeat constructor].
Defined.

(** A mark pseudo-column requested from the part [P3]. *)
Lemma unsupported_layout_throws_on_marks_witness :
  example_generate
    (mkSource header_marks key_sample_block [P3] true 0) [] =
  (Throw (mkException NOT_IMPLEMENTED "Parts with type InMemory are not supported"), []).
Proof.
  apply (proj2 (unsupported_layout_throws_on_marks Nested_splitName unescape_plain
                  stream_if_listed getMark_grid P3 "InMemory" eq_refl)
           header_marks key_sample_block [P3] true 0 header_plain
           (column mark_type "v.mark") [column mark_type "a%2Eb.mark"] "v" []).
  - reflexivity.
  - reflexivity.
  - reflexivity.
  - resolved_header.
  - repeat constructor.
  - split; [reflexivity|repeat constructor].
Defined.

(** The index and metadata columns of the part [P3]. *)
Lemma unsupported_layout_without_marks_witness :
  exists chunk,
    example_generate (mkSource header_plain key_sample_block [P3] true 0) [] =
      (Ok (chunk, mkSource header_plain key_sample_block [P3] true 1), []) /\
    num_rows chunk = 2 /\
    length (chunk_columns chunk) = 4.
Proof.
  destruct (unsupported_layout_without_marks Nested_splitName unescape_plain stream_if_listed
              getMark_grid header_plain key_sample_block [P3] true 0 P3 "InMemory" [])
    as (chunk & Hgen & Hrows & Hwidth & _).
  - reflexivity.
  - reflexivity.
  - resolved_header.
  - repeat constructor.
  - split; [reflexivity|repeat constructor].
  - exists chunk. repeat split; assumption.
Defined.

(** The filter [part_name = 'P3'] keeps [P3] where it stood; a filter that
    keeps [P1] and [P3] keeps them in that order. *)
Lemma filter_preserves_order_witness :
  [P3] `sublist_of` [P1; P2; P3] /\
  [P3] = filter (fun part => name part ∈ ["P3"]) [P1; P2; P3].
Proof.
  destruct (filter_preserves_order filter_part_name_equals [P1; P2; P3] (select_part "P3") []
              [P3] [FilterBlockWithQuery ["P1"; "P2"; "P3"]]) as (Hsub & Hscan & _).
  - vm_compute. reflexivity.
  - split; [exact Hsub|]. eapply Hscan; [reflexivity|vm_compute; reflexivity].
Defined.

(** ** The scenarios of the specification *)

(** Key [id] over [P1] (granules of 1, 2, 1 rows) and [P2] (one granule of
    5 rows): the request of [id], [mark_number], [rows_in_granule] returns
    two chunks, then the empty chunk. *)
Example scenario_two_parts :
  example_pull 3
    (mkSource [column DataTypeUInt64 "id"; column DataTypeUInt64 "mark_number";
               column DataTypeUInt64 "rows_in_granule"] key_sample_block [P1; P2] false 0) [] =
  (Ok ([mkChunk [ColumnUInt64 [10; 20; 30]%N; ColumnUInt64 [0; 1; 2]%N;
                 ColumnUInt64 [1; 2; 1]%N] 3;
        mkChunk [ColumnUInt64 [40]%N; ColumnUInt64 [0]%N; ColumnUInt64 [5]%N] 1;
        empty_chunk],
       mkSource [column DataTypeUInt64 "id"; column DataTypeUInt64 "mark_number";
                 column DataTypeUInt64 "rows_in_granule"] key_sample_block [P1; P2] false 2),
   []).
Proof. vm_compute. reflexivity. Qed.

(** The same request under [part_name = 'P2']: the filter keeps [P2], and
    its chunk is the one of the unfiltered read. *)
Example scenario_filtered :
  getFilteredDataParts filter_part_name_equals [P1; P2] (select_part "P2") [] =
    (Ok [P2], [FilterBlockWithQuery ["P1"; "P2"]]) /\
  example_pull 2
    (mkSource [column DataTypeUInt64 "id"; column DataTypeUInt64 "mark_number";
               column DataTypeUInt64 "rows_in_granule"] key_sample_block [P2] false 0) [] =
  (Ok ([mkChunk [ColumnUInt64 [40]%N; ColumnUInt64 [0]%N; ColumnUInt64 [5]%N] 1;
        empty_chunk],
       mkSource [column DataTypeUInt64 "id"; column DataTypeUInt64 "mark_number";
                 column DataTypeUInt64 "rows_in_granule"] key_sample_block [P2] false 1),
   []).
Proof. split; vm_compute; reflexivity. Qed.

(** ** Where the code departs from the specification *)

(** C7 as stated fails.  The part [P3] has a layout that is neither wide
    nor compact; a request of its mark numbers throws nothing and returns
    its chunk. *)
Lemma unsupported_layout_read_without_marks :
  part_type P3 = OtherType "InMemory" /\
  example_generate
    (mkSource [column DataTypeUInt64 "mark_number"] key_sample_block [P3] true 0) [] =
    (Ok (mkChunk [ColumnUInt64 [0; 1]%N] 2,
         mkSource [column DataTypeUInt64 "mark_number"] key_sample_block [P3] true 1), []).
Proof. split; vm_compute; reflexivity. Qed.

(** C8 as stated fails.  A read that names the unknown column [bogus]
    raises the unknown-column error also when there is no part to read:
    over the facade of a table without parts, and over the facade of the
    example table under a filter no part passes. *)
Lemma unknown_column_read_over_no_parts :
  StorageMergeTreeIndex.data_parts example_facade_no_parts = [] /\
  example_read_resolved example_facade_no_parts example_table_no_parts ["bogus"]
    select_all [] =
    (Throw (mkException NO_SUCH_COLUMN_IN_TABLE "No such column bogus"),
     [CheckAccess "db.t" []]) /\
  getFilteredDataParts filter_part_name_equals
    (StorageMergeTreeIndex.data_parts example_facade) (select_part "P9") [] =
    (Ok [], [FilterBlockWithQuery ["P1"; "P2"]]) /\
  example_read_resolved example_facade example_table ["id"; "bogus"] (select_part "P9") [] =
    (Throw (mkException NO_SUCH_COLUMN_IN_TABLE "No such column bogus"),
     [CheckAccess "db.t" ["id"]]).
Proof. repeat split; vm_compute; reflexivity. Qed.

(** * Further properties of the code *)

(** ** Loops and traces *)

Lemma for_each_throw_inv {A B : Type} (f : A -> M B) (l : list A) (tr tr' : Trace)
    (e : Exception) :
  for_each f l tr = (Throw e, tr') ->
  exists l1 a l2 bs tr1,
    l = l1 ++ a :: l2 /\ for_each f l1 tr = (Ok bs, tr1) /\ f a tr1 = (Throw e, tr').
Proof.
  revert tr. induction l as [|a l IH]; intros tr H; simpl in H; [discriminate|].
  unfold bind in H. destruct (f a tr) as [[b|e0] tr1] eqn:Hf.
  - destruct (for_each f l tr1) as [[bs|e1] tr2] eqn:Hl; [discriminate|].
    inversion H; subst.
    destruct (IH _ Hl) as (l1 & a' & l2 & bs & tr3 & -> & H1 & H2).
    exists (a :: l1), a', l2, (b :: bs), tr3. split; [reflexivity|]. split; [|exact H2].
    simpl. erewrite bind_ok; [|exact Hf]. erewrite bind_ok; [|exact H1]. reflexivity.
  - inversion H; subst. exists [], a, l, [], tr. auto.
Qed.

(** What a loop appends to the trace: what its body appends on each
    element it reaches, in order. *)
Lemma for_each_ok_trace {A B : Type} (f : A -> M B) (l : list A) (bs : list B)
    (tr tr' : Trace) :
  (forall a, appends (f a)) ->
  for_each f l tr = (Ok bs, tr') ->
  tr' = tr ++ concat (map (fun a => snd (f a [])) l) /\
  Forall2 (fun a b => fst (f a []) = Ok b) l bs.
Proof.
  intros Hf. revert bs tr. induction l as [|a l IH]; intros bs tr H; simpl in H.
  - inversion H. simpl. rewrite app_nil_r. split; [reflexivity|constructor].
  - apply bind_ok_inv in H as (b & tr1 & Hb & H).
    apply bind_ok_inv in H as (bs' & tr2 & Hbs & H). inversion H; subst.
    destruct (appends_run _ _ _ _ (Hf a) Hb) as [Hr ->].
    destruct (IH _ _ Hbs) as [-> Hall]. simpl. rewrite app_assoc.
    split; [reflexivity|]. constructor; assumption.
Qed.

(** A property of traces that the empty trace has and concatenation
    keeps holds of what a loop appends, when it holds of what its body
    appends. *)
Lemma for_each_written {A B : Type} (P : Trace -> Prop) (f : A -> M B) (l : list A) :
  P [] ->
  (forall w1 w2, P w1 -> P w2 -> P (w1 ++ w2)) ->
  (forall a, appends (f a)) ->
  (forall a, a ∈ l -> P (snd (f a []))) ->
  P (snd (for_each f l [])).
Proof.
  intros Hnil Happ Hf. induction l as [|a l IH]; intros HP; simpl; [exact Hnil|].
  unfold bind. destruct (f a []) as [[b|e] w1] eqn:Hb.
  - rewrite (appends_for_each f l Hf w1).
    assert (H1 : P w1) by (specialize (HP a ltac:(left)); now rewrite Hb in HP).
    assert (H2 : P (snd (for_each f l []))) by (apply IH; intros; apply HP; now right).
    destruct (for_each f l []) as [[bs|e] w2]; simpl in *; now apply Happ.
  - specialize (HP a ltac:(left)). now rewrite Hb in HP.
Qed.

Lemma bind_written {A B : Type} (P : Trace -> Prop) (m : M A) (k : A -> M B) :
  (forall w1 w2, P w1 -> P w2 -> P (w1 ++ w2)) ->
  (forall a, appends (k a)) ->
  P (snd (m [])) ->
  (forall a, P (snd (k a []))) ->
  P (snd (bind m k [])).
Proof.
  intros Happ Hk Hm HP. unfold bind. destruct (m []) as [[a|e] w1]; simpl in *; [|exact Hm].
  rewrite (Hk a w1). simpl. apply Happ; [exact Hm|apply HP].
Qed.

Lemma forallb_in_bounds_app (w1 w2 : Trace) :
  forallb in_bounds w1 = true -> forallb in_bounds w2 = true ->
  forallb in_bounds (w1 ++ w2) = true.
Proof. intros H1 H2. rewrite forallb_app, H1, H2. reflexivity. Qed.

Lemma uses_created_mono (known known' : list MergeTreeMarksLoader) (w : Trace) :
  known ⊆ known' -> uses_created known w = true -> uses_created known' w = true.
Proof.
  revert known known'. induction w as [|ev w IH]; intros known known' Hsub; simpl; [auto|].
  destruct ev as [l|l i j|names].
  - apply IH. intros x Hx. apply elem_of_cons in Hx as [->|Hx]; [left|right; auto].
  - rewrite !andb_true_iff, !bool_decide_eq_true. intros [Hl Hw]. split; [auto|].
    eapply IH; eassumption.
  - apply IH. exact Hsub.
Qed.

Lemma uses_created_app (known : list MergeTreeMarksLoader) (w1 w2 : Trace) :
  uses_created known w1 = true -> uses_created known w2 = true ->
  uses_created known (w1 ++ w2) = true.
Proof.
  revert known. induction w1 as [|ev w1 IH]; intros known H1 H2; simpl in *; [exact H2|].
  destruct ev as [l|l i j|names].
  - apply IH; [exact H1|]. eapply uses_created_mono; [|exact H2].
    intros x Hx. now right.
  - apply andb_true_iff in H1 as [Hl H1]. rewrite Hl. simpl. now apply IH.
  - now apply IH.
Qed.

(** ** The protocol with the mark loader *)

Section LoaderProtocol.

Variable splitName : string -> bool -> string * string.
Variable unescapeForFileName : string -> string.
Variable getStreamNameOrHash :
  IMergeTreeDataPart -> string -> Checksums -> option string.
Variable getMark :
  MergeTreeMarksLoader -> nat -> nat -> Result MarkInCompressedFile.

Local Abbreviation fillMarks_ := (fillMarks unescapeForFileName getStreamNameOrHash getMark).
Local Abbreviation generate_column_ :=
  (generate_column splitName unescapeForFileName getStreamNameOrHash getMark).
Local Abbreviation generate_ :=
  (generate splitName unescapeForFileName getStreamNameOrHash getMark).
Local Abbreviation pull_ :=
  (pull splitName unescapeForFileName getStreamNameOrHash getMark).
Local Abbreviation resolve_ := (resolve splitName).

(** The loop over the granules queries a prefix of them: all of them, or
    those up to the first the loader fails on. *)
Lemma getMark_loop_trace loader j (L : list nat) :
  exists L', L' `prefix_of` L /\
    snd (for_each (fun i => loader_getMark getMark (Some loader) i j) L []) =
    map (fun i => GetMark loader i j) L'.
Proof.
  induction L as [|a L (L' & Hpre & IH)].
  - exists []. split; reflexivity.
  - cbn [for_each]. unfold bind at 1. unfold loader_getMark at 1.
    unfold bind at 1, emit. cbn [app].
    destruct (getMark loader a j) as [m|e].
    + unfold ret at 1. unfold bind.
      rewrite (appends_for_each _ L (fun i => appends_loader_getMark getMark _ i j)
                 [GetMark loader a j]).
      exists (a :: L'). split; [now apply prefix_cons|].
      destruct (for_each _ L []) as [[ms|e] w]; simpl in *; now rewrite IH.
    + exists [a]. split; [apply prefix_cons, prefix_nil|reflexivity].
Qed.

Lemma queries_in_bounds loader j (L : list nat) :
  (forall i, i ∈ L -> i < loader_marks_count loader) ->
  j < loader_num_columns loader ->
  forallb in_bounds (map (fun i => GetMark loader i j) L) = true.
Proof.
  intros HL Hj. induction L as [|a L IH]; simpl; [reflexivity|].
  rewrite !bool_decide_eq_true_2; [|exact Hj|apply HL; left]. simpl.
  apply IH. intros i Hi. apply HL. now right.
Qed.

Lemma queries_use_known known loader j (L : list nat) :
  loader ∈ known ->
  uses_created known (map (fun i => GetMark loader i j) L) = true.
Proof.
  intros Hk. induction L as [|a L IH]; simpl; [reflexivity|].
  now rewrite bool_decide_eq_true_2, IH.
Qed.

Lemma prefix_of_seq_lt (L' : list nat) n i :
  L' `prefix_of` seq 0 n -> i ∈ L' -> i < n.
Proof.
  intros [k Hk] Hi. assert (Hin : i ∈ seq 0 n) by (rewrite Hk; apply elem_of_app; now left).
  apply elem_of_seq in Hin. lia.
Qed.

(** What [fillMarks] appends to the trace: the loader it creates for a
    wide part, and the queries of its loop. *)
Lemma fillMarks_trace part ml data_type target :
  snd (fillMarks_ part ml data_type target []) =
  match part_type part with
  | Wide =>
      match getStreamNameOrHash part target (checksums part) with
      | Some stream =>
          let loader :=
            mkLoader (name part) stream (getMarksCount (index_granularity part)) 1 in
          CreateMarksLoader loader ::
          snd (for_each (fun i => loader_getMark getMark (Some loader) i 0)
                        (seq 0 (getMarksCount (index_granularity part))) [])
      | None => []
      end
  | Compact =>
      match getColumnPosition part (unescapeForFileName target) with
      | Some col_idx =>
          snd (for_each (fun i => loader_getMark getMark ml i col_idx)
                        (seq 0 (getMarksCount (index_granularity part))) [])
      | None => []
      end
  | OtherType _ => []
  end.
Proof.
  unfold fillMarks, isWidePart, isCompactPart.
  destruct (part_type part) as [| |type_name]; [| |reflexivity].
  - destruct (getStreamNameOrHash part target (checksums part)) as [stream|];
      [|reflexivity].
    unfold createMarksLoader, bind at 1 2 3, emit, ret at 1 2. cbn [app negb fst snd].
    cbv zeta. unfold bind.
    rewrite (appends_for_each _ _ (fun i => appends_loader_getMark getMark _ i 0)
               [CreateMarksLoader _]).
    destruct (for_each _ _ []) as [[ms|e] w]; reflexivity.
  - destruct (getColumnPosition part (unescapeForFileName target)) as [col_idx|];
      [|reflexivity].
    unfold bind at 1, ret at 1. cbn [negb]. unfold bind.
    destruct (for_each _ _ []) as [[ms|e] w]; reflexivity.
Qed.

Lemma fillMarks_written part data_type target :
  forallb in_bounds
    (snd (fillMarks_ part (shared_marks_loader true part) data_type target [])) = true /\
  uses_created (option_list (shared_marks_loader true part))
    (snd (fillMarks_ part (shared_marks_loader true part) data_type target [])) = true.
Proof.
  rewrite fillMarks_trace. unfold shared_marks_loader, isCompactPart.
  destruct (part_type part) as [| |type_name]; cbn [andb option_list].
  - destruct (getStreamNameOrHash part target (checksums part)) as [stream|];
      [|split; reflexivity].
    cbv zeta.
    destruct (getMark_loop_trace
                (mkLoader (name part) stream (getMarksCount (index_granularity part)) 1)
                0 (seq 0 (getMarksCount (index_granularity part)))) as (L' & Hpre & ->).
    split.
    + cbn [forallb in_bounds andb]. apply queries_in_bounds; [|simpl; lia].
      intros i Hi. simpl. eapply prefix_of_seq_lt; eassumption.
    + cbn [uses_created]. apply queries_use_known. left.
  - destruct (getColumnPosition part (unescapeForFileName target)) as [col_idx|] eqn:Hp;
      [|split; reflexivity].
    assert (Hidx : col_idx < length (getColumns part)).
    { apply getColumnPosition_in_spec in Hp as [Hp _].
      destruct (getColumns part !! col_idx) eqn:E; [|discriminate].
      eapply lookup_lt_Some. exact E. }
    destruct (getMark_loop_trace
                (mkLoader (name part) DATA_FILE_NAME
                          (getMarksCount (index_granularity part))
                          (length (getColumns part)))
                col_idx (seq 0 (getMarksCount (index_granularity part))))
      as (L' & Hpre & ->).
    split.
    + apply queries_in_bounds; [|exact Hidx].
      intros i Hi. simpl. eapply prefix_of_seq_lt; eassumption.
    + apply queries_use_known. left.
  - split; reflexivity.
Qed.

Lemma generate_column_written ih wm part c :
  forallb in_bounds
    (snd (generate_column_ ih wm part (shared_marks_loader wm part)
            (getMarksCount (index_granularity part)) c [])) = true /\
  uses_created (option_list (shared_marks_loader wm part))
    (snd (generate_column_ ih wm part (shared_marks_loader wm part)
            (getMarksCount (index_granularity part)) c [])) = true.
Proof.
  unfold generate_column.
  destruct (has ih (col_name c)).
  { destruct (index part !! _); split; reflexivity. }
  destruct (bool_decide (col_name c = col_name part_name_column)).
  { unfold createColumnConst. destruct (col_type c) as [| |[]|]; split; reflexivity. }
  destruct (bool_decide (col_name c = col_name mark_number_column)).
  { unfold bind, assert_cast_ColumnUInt64. destruct (createColumn _); split; reflexivity. }
  destruct (bool_decide (col_name c = col_name rows_in_granule_column)).
  { unfold bind, assert_cast_ColumnUInt64. destruct (createColumn _); split; reflexivity. }
  destruct (splitName (col_name c) true) as [first second].
  destruct wm; simpl; [|split; reflexivity].
  destruct (bool_decide (second = "mark")); [|split; reflexivity].
  apply fillMarks_written.
Qed.

Lemma appends_generate s : appends (generate_ s).
Proof.
  unfold generate. destruct (data_parts s !! part_index s) as [part|]; [|apply appends_ret].
  apply appends_bind.
  - destruct (with_marks s && isCompactPart part); [|apply appends_ret].
    apply appends_bind; [apply appends_createMarksLoader|]. intros l. apply appends_ret.
  - intros ml. apply appends_bind.
    + apply appends_for_each. intros c. apply appends_generate_column.
    + intros cols. apply appends_bind; [apply appends_checkNumRowsIsConsistent|].
      intros _. apply appends_ret.
Qed.

Lemma appends_pull n s : appends (pull_ n s).
Proof.
  revert s. induction n as [|n IH]; intros s; simpl; [apply appends_ret|].
  apply appends_bind; [apply appends_generate|]. intros r.
  apply appends_bind; [apply IH|]. intros rest. apply appends_ret.
Qed.

(** What the loop of [generate] and the constructor of the chunk append
    to the trace. *)
Lemma generate_body_written h ih parts wm k part :
  let g : M (Chunk * MergeTreeIndexSource) :=
    (cols <- for_each (generate_column_ ih wm part (shared_marks_loader wm part)
                         (getMarksCount (index_granularity part))) h ;;
     checkNumRowsIsConsistent (mkChunk cols (getMarksCount (index_granularity part))) ;;;
     ret (mkChunk cols (getMarksCount (index_granularity part)),
          mkSource h ih parts wm (S k))) in
  appends g /\
  forallb in_bounds (snd (g [])) = true /\
  uses_created (option_list (shared_marks_loader wm part)) (snd (g [])) = true.
Proof.
  intros g.
  assert (Hk : forall cols : Columns,
            appends (checkNumRowsIsConsistent
                       (mkChunk cols (getMarksCount (index_granularity part))) ;;;
                     ret (mkChunk cols (getMarksCount (index_granularity part)),
                          mkSource h ih parts wm (S k)))).
  { intros cols. apply appends_bind; [apply appends_checkNumRowsIsConsistent|].
    intros _. apply appends_ret. }
  split.
  - apply appends_bind; [|exact Hk].
    apply appends_for_each. intros c. apply appends_generate_column.
  - apply (bind_written
             (fun w => forallb in_bounds w = true /\
                       uses_created (option_list (shared_marks_loader wm part)) w = true)).
    + intros w1 w2 [H1 H2] [H3 H4].
      split; [now apply forallb_in_bounds_app|now apply uses_created_app].
    + exact Hk.
    + apply (for_each_written
               (fun w => forallb in_bounds w = true /\
                         uses_created (option_list (shared_marks_loader wm part)) w = true)).
      * split; reflexivity.
      * intros w1 w2 [H1 H2] [H3 H4].
        split; [now apply forallb_in_bounds_app|now apply uses_created_app].
      * intros c. apply appends_generate_column.
      * intros c _. apply generate_column_written.
    + intros cols. unfold bind, checkNumRowsIsConsistent, ret, throw.
      cbn [chunk_columns num_rows].
      destruct (forallb (fun c : IColumn => bool_decide _) cols); split; reflexivity.
Qed.

Lemma generate_written s :
  forallb in_bounds (snd (generate_ s [])) = true /\
  uses_created [] (snd (generate_ s [])) = true.
Proof.
  destruct s as [h ih parts wm k].
  destruct (parts !! k) as [part|] eqn:Hp.
  - rewrite (generate_unfold _ _ _ _ _ _ _ _ _ _ _ Hp). simpl app.
    destruct (generate_body_written h ih parts wm k part) as (Ha & Hb & Hu).
    rewrite (Ha _). cbn [snd].
    destruct (shared_marks_loader wm part) as [loader|]; simpl in *; auto.
  - unfold generate. simpl. rewrite Hp. split; reflexivity.
Qed.

Lemma pull_written n s :
  forallb in_bounds (snd (pull_ n s [])) = true /\
  uses_created [] (snd (pull_ n s [])) = true.
Proof.
  revert s. induction n as [|n IH]; intros s; [split; reflexivity|].
  cbn [pull].
  apply (bind_written (fun w => forallb in_bounds w = true /\ uses_created [] w = true)).
  - intros w1 w2 [H1 H2] [H3 H4].
    split; [now apply forallb_in_bounds_app|now apply uses_created_app].
  - intros r. apply appends_bind; [apply appends_pull|]. intros rest. apply appends_ret.
  - apply generate_written.
  - intros r.
    apply (bind_written (fun w => forallb in_bounds w = true /\ uses_created [] w = true)).
    + intros w1 w2 [H1 H2] [H3 H4].
      split; [now apply forallb_in_bounds_app|now apply uses_created_app].
    + intros rest. apply appends_ret.
    + apply IH.
    + intros rest. split; reflexivity.
Qed.

(** X1. Whatever the header, the parts and the loader's answers, and
    whether the calls succeed or throw, every query [generate] makes is
    inside the table of marks of its loader: the row is below the number of
    marks the loader was created for and the column below its number of
    columns. *)
Theorem queries_stay_in_bounds n s tr :
  exists w, snd (pull_ n s tr) = tr ++ w /\ forallb in_bounds w = true.
Proof.
  exists (snd (pull_ n s [])). split.
  - rewrite (appends_pull n s tr). reflexivity.
  - apply pull_written.
Qed.

(** X2. Whatever the header, the parts and the loader's answers, and
    whether the calls succeed or throw, [generate] queries no loader it has
    not created before in the same run. *)
Theorem loaders_created_before_queried n s tr :
  exists w, snd (pull_ n s tr) = tr ++ w /\ uses_created [] w = true.
Proof.
  exists (snd (pull_ n s [])). split.
  - rewrite (appends_pull n s tr). reflexivity.
  - apply pull_written.
Qed.

End LoaderProtocol.

(** ** What the generator throws, and when *)

Section GeneratorProperties.

Variable splitName : string -> bool -> string * string.
Variable unescapeForFileName : string -> string.
Variable getStreamNameOrHash :
  IMergeTreeDataPart -> string -> Checksums -> option string.
Variable getMark :
  MergeTreeMarksLoader -> nat -> nat -> Result MarkInCompressedFile.

Local Abbreviation fillMarks_ := (fillMarks unescapeForFileName getStreamNameOrHash getMark).
Local Abbreviation generate_column_ :=
  (generate_column splitName unescapeForFileName getStreamNameOrHash getMark).
Local Abbreviation generate_ :=
  (generate splitName unescapeForFileName getStreamNameOrHash getMark).
Local Abbreviation pull_ :=
  (pull splitName unescapeForFileName getStreamNameOrHash getMark).
Local Abbreviation resolve_ := (resolve splitName).
Local Abbreviation has_marks_in_part_ :=
  (has_marks_in_part unescapeForFileName getStreamNameOrHash).
Local Abbreviation thrown_for_ :=
  (thrown_for splitName unescapeForFileName getStreamNameOrHash getMark).

Lemma loader_getMark_throw_inv loader i j tr e tr' :
  loader_getMark getMark (Some loader) i j tr = (Throw e, tr') ->
  getMark loader i j = Throw e.
Proof.
  unfold loader_getMark, bind, emit, ret, throw.
  destruct (getMark loader i j); intros H; inversion H; reflexivity.
Qed.

Lemma getMark_loop_throw_inv loader j n tr e tr' :
  for_each (fun i => loader_getMark getMark (Some loader) i j) (seq 0 n) tr = (Throw e, tr') ->
  exists i, i < n /\ getMark loader i j = Throw e.
Proof.
  intros H. apply for_each_throw_inv in H as (l1 & i & l2 & bs & tr1 & Hl & _ & Hi).
  exists i. split.
  - assert (Hin : i ∈ seq 0 n) by (rewrite Hl; apply elem_of_app; right; left).
    apply elem_of_seq in Hin. lia.
  - eapply loader_getMark_throw_inv. exact Hi.
Qed.

(** The exceptions of [fillMarks], handed the loader [generate] hands it
    with marks enabled. *)
Lemma fillMarks_throw_inv part data_type target tr e tr' :
  fillMarks_ part (shared_marks_loader true part) data_type target tr = (Throw e, tr') ->
  (exists type_name,
     part_type part = OtherType type_name /\
     e = mkException NOT_IMPLEMENTED
           ("Parts with type " +:+ type_name +:+ " are not supported")) \/
  (exists loader i j,
     has_marks_in_part_ part target = true /\
     i < getMarksCount (index_granularity part) /\
     getMark loader i j = Throw e).
Proof.
  unfold fillMarks, shared_marks_loader, has_marks_in_part, isWidePart, isCompactPart,
    getTypeName.
  destruct (part_type part) as [| |type_name]; cbn [andb toString].
  - destruct (getStreamNameOrHash part target (checksums part)) as [stream|].
    + unfold createMarksLoader, bind at 1 2 3, emit, ret at 1 2. cbn [negb]. cbv zeta.
      intros H. right.
      unfold bind in H.
      destruct (for_each _ _ _) as [[ms|e0] w] eqn:Hloop; [discriminate|].
      inversion H; subst.
      apply getMark_loop_throw_inv in Hloop as (i & Hi & Hg).
      eexists _, i, 0. split; [apply bool_decide_eq_true_2; eauto|]. split; [exact Hi|exact Hg].
    + unfold bind, ret. cbn [negb]. discriminate.
  - destruct (getColumnPosition part (unescapeForFileName target)) as [col_idx|].
    + unfold bind at 1, ret at 1. cbn [negb]. intros H. right.
      unfold bind in H.
      destruct (for_each _ _ _) as [[ms|e0] w] eqn:Hloop; [discriminate|].
      inversion H; subst.
      apply getMark_loop_throw_inv in Hloop as (i & Hi & Hg).
      eexists _, i, col_idx. split; [apply bool_decide_eq_true_2; eauto|].
      split; [exact Hi|exact Hg].
    + unfold bind, ret. cbn [negb]. discriminate.
  - unfold bind, throw. intros H. inversion H; subst. left. eauto.
Qed.

Lemma generate_column_throw_inv ih wm part c tr e tr' :
  generate_column_ ih wm part (shared_marks_loader wm part)
    (getMarksCount (index_granularity part)) c tr = (Throw e, tr') ->
  thrown_for_ ih wm part c e.
Proof.
  unfold thrown_for, resolve, generate_column.
  change (col_name part_name_column) with "part_name".
  change (col_name mark_number_column) with "mark_number".
  change (col_name rows_in_granule_column) with "rows_in_granule".
  destruct (has ih (col_name c)).
  { destruct (index part !! _) eqn:E; intros H; inversion H; subst.
    split; [now apply lookup_ge_None|reflexivity]. }
  destruct (bool_decide (col_name c = "part_name")).
  { unfold createColumnConst. destruct (col_type c) as [| |[]|]; intros H; inversion H;
      split; (discriminate || reflexivity). }
  destruct (bool_decide (col_name c = "mark_number")).
  { unfold bind, assert_cast_ColumnUInt64.
    destruct (col_type c); simpl; intros H; inversion H;
      split; (discriminate || reflexivity). }
  destruct (bool_decide (col_name c = "rows_in_granule")).
  { unfold bind, assert_cast_ColumnUInt64.
    destruct (col_type c); simpl; intros H; inversion H;
      split; (discriminate || reflexivity). }
  destruct (splitName (col_name c) true) as [first second]. cbn [fst snd].
  destruct wm; cbn [andb].
  - destruct (bool_decide (second = "mark")).
    + apply fillMarks_throw_inv.
    + intros H. inversion H. reflexivity.
  - intros H. inversion H. reflexivity.
Qed.

(** The columns [fillMarks] returns: one row per mark, but for the default
    column of a type of another shape than the bookmark type. *)
Lemma fillMarks_ok_size part ml data_type target tr col tr' :
  fillMarks_ part ml data_type target tr = (Ok col, tr') ->
  column_size col = getMarksCount (index_granularity part) \/
  (has_marks_in_part_ part target = false /\
   col = createColumnConstWithDefaultValue data_type (getMarksCount (index_granularity part))).
Proof.
  unfold fillMarks, has_marks_in_part, isWidePart, isCompactPart.
  destruct (part_type part) as [| |type_name].
  - destruct (getStreamNameOrHash part target (checksums part)) as [stream|].
    + unfold createMarksLoader, bind at 1 2 3, emit, ret at 1 2. cbn [negb]. cbv zeta.
      intros H. apply bind_ok_inv in H as (ms & tr1 & _ & H). inversion H; subst.
      left. simpl. apply length_replicate.
    + unfold bind, ret. cbn [negb]. intros H. inversion H; subst. right.
      split; [|reflexivity]. apply bool_decide_eq_false_2. intros [x Hx]. discriminate.
  - destruct (getColumnPosition part (unescapeForFileName target)) as [col_idx|].
    + unfold bind at 1, ret at 1. cbn [negb].
      intros H. apply bind_ok_inv in H as (ms & tr1 & _ & H). inversion H; subst.
      left. simpl. apply length_replicate.
    + unfold bind, ret. cbn [negb]. intros H. inversion H; subst. right.
      split; [|reflexivity]. apply bool_decide_eq_false_2. intros [x Hx]. discriminate.
  - unfold bind, throw. discriminate.
Qed.

(** The columns the loop body returns have one row per mark, but for a
    stored index column, which is passed on as it is, and for the default
    column of a mark pseudo-column. *)
Lemma generate_column_ok_size ih wm part ml c tr col tr' :
  generate_column_ ih wm part ml (getMarksCount (index_granularity part)) c tr = (Ok col, tr') ->
  column_size col = getMarksCount (index_granularity part) \/
  match resolve_ ih wm (col_name c) with
  | IndexValue position => index part !! position = Some col
  | MarkBookmark target =>
      has_marks_in_part_ part target = false /\
      col = createColumnConstWithDefaultValue (col_type c)
              (getMarksCount (index_granularity part))
  | _ => False
  end.
Proof.
  unfold resolve, generate_column.
  change (col_name part_name_column) with "part_name".
  change (col_name mark_number_column) with "mark_number".
  change (col_name rows_in_granule_column) with "rows_in_granule".
  destruct (has ih (col_name c)).
  { destruct (index part !! _) eqn:E; intros H; inversion H; subst. now right. }
  destruct (bool_decide (col_name c = "part_name")).
  { unfold createColumnConst. destruct (col_type c) as [| |[]|]; intros H; inversion H;
      left; simpl; apply length_replicate. }
  destruct (bool_decide (col_name c = "mark_number")).
  { intros H. apply bind_ok_inv in H as (d & tr1 & _ & H). inversion H; subst.
    left. simpl. apply iota_length. }
  destruct (bool_decide (col_name c = "rows_in_granule")).
  { intros H. apply bind_ok_inv in H as (d & tr1 & _ & H). inversion H; subst.
    left. simpl. now rewrite length_map, length_seq. }
  destruct (splitName (col_name c) true) as [first second]. cbn [fst snd].
  destruct wm; cbn [andb]; [|discriminate].
  destruct (bool_decide (second = "mark")); [|discriminate].
  apply fillMarks_ok_size.
Qed.

(** X3. An exception of [generate] has one of six causes, each tied to an
    entry of the header and to the part being read.  Five are thrown while
    the columns are built: a name of no kind ("No such column"); a mark
    pseudo-column requested from a part whose layout is neither wide nor
    compact (NOT_IMPLEMENTED); an exception of the mark loader on a granule
    of a column that has marks in the part, passed on unchanged; a metadata
    column declared at another type than its own; a key component the
    stored index of the part has no column for.  The sixth is thrown by the
    constructor of the chunk once every column is built (LOGICAL_ERROR): a
    column has another number of rows than the part has marks, and it is a
    stored index column, or the default column of a mark pseudo-column
    declared at another type than the bookmark type.  In particular the
    null loader is never dereferenced. *)
Theorem generate_throws_only s tr e tr' :
  generate_ s tr = (Throw e, tr') ->
  exists part,
    data_parts s !! part_index s = Some part /\
    ((exists c,
        c ∈ header s /\
        thrown_for splitName unescapeForFileName getStreamNameOrHash getMark
          (index_header s) (with_marks s) part c e) \/
     (code e = LOGICAL_ERROR /\
      Forall (fun c => exists col,
                column_of splitName unescapeForFileName getStreamNameOrHash getMark
                  (index_header s) (with_marks s) part
                  (shared_marks_loader (with_marks s) part) c = Ok col) (header s) /\
      exists c col,
        c ∈ header s /\
        column_of splitName unescapeForFileName getStreamNameOrHash getMark
          (index_header s) (with_marks s) part
          (shared_marks_loader (with_marks s) part) c = Ok col /\
        column_size col <> getMarksCount (index_granularity part) /\
        match resolve_ (index_header s) (with_marks s) (col_name c) with
        | IndexValue position => index part !! position = Some col
        | MarkBookmark target =>
            has_marks_in_part_ part target = false /\ col_type c <> mark_type
        | _ => False
        end)).
Proof.
  destruct s as [h ih parts wm k]. cbn [data_parts part_index header index_header with_marks].
  intros H. destruct (parts !! k) as [part|] eqn:Hp.
  - rewrite (generate_unfold _ _ _ _ _ _ _ _ _ _ _ Hp) in H.
    exists part. split; [reflexivity|].
    unfold bind at 1 in H. destruct (for_each _ _ _) as [[cols|e0] w] eqn:Hloop.
    + right. unfold bind in H.
      destruct (checkNumRowsIsConsistent _ w) as [[u|e1] w1] eqn:Hcheck; [discriminate|].
      inversion H; subst.
      apply checkNumRowsIsConsistent_throw_inv in Hcheck as (_ & He & Hex).
      split; [now rewrite He|].
      apply for_each_ok_trace in Hloop as [_ Hall];
        [|intros c; apply appends_generate_column].
      split.
      { rewrite Forall_forall. intros c Hc.
        apply list_elem_of_lookup_1 in Hc as [pos Hpos].
        destruct (Forall2_lookup_l _ _ _ _ _ Hall Hpos) as (col & _ & Hcol).
        exists col. exact Hcol. }
      apply Exists_exists in Hex as (col & Hin & Hsize).
      apply list_elem_of_lookup_1 in Hin as [pos Hpos].
      destruct (Forall2_lookup_r _ _ _ _ _ Hall Hpos) as (c & Hc & Hcol).
      exists c, col. split; [eapply list_elem_of_lookup_2; exact Hc|].
      split; [exact Hcol|]. split; [exact Hsize|].
      assert (Hrun : generate_column_ ih wm part (shared_marks_loader wm part)
                       (getMarksCount (index_granularity part)) c [] =
                     (Ok col, snd (generate_column_ ih wm part (shared_marks_loader wm part)
                                     (getMarksCount (index_granularity part)) c []))).
      { rewrite <- Hcol. now destruct (generate_column_ _ _ _ _ _ _ _). }
      apply generate_column_ok_size in Hrun as [Hn|Hkind]; [contradiction|].
      destruct (resolve_ ih wm (col_name c)); try exact Hkind.
      destruct Hkind as [Habsent ->]. split; [exact Habsent|].
      intros Ht. apply Hsize. rewrite Ht. apply default_mark_column_size.
    + left. inversion H; subst.
      apply for_each_throw_inv in Hloop as (l1 & c & l2 & bs & tr1 & -> & _ & Hc).
      exists c. split; [apply elem_of_app; right; left|].
      eapply generate_column_throw_inv. exact Hc.
  - unfold generate in H. cbn [data_parts part_index] in H. rewrite Hp in H. discriminate.
Qed.

Lemma seq_split_at (n i : nat) :
  i < n -> seq 0 n = seq 0 i ++ i :: seq (S i) (n - S i).
Proof.
  intros Hi. replace n with (i + S (n - S i)) at 1 by lia.
  rewrite seq_app. simpl. reflexivity.
Qed.

Lemma getMark_loop_fail loader j n i e (marks : nat -> MarkInCompressedFile) tr :
  i < n ->
  (forall k, k < i -> getMark loader k j = Ok (marks k)) ->
  getMark loader i j = Throw e ->
  for_each (fun k => loader_getMark getMark (Some loader) k j) (seq 0 n) tr =
  (Throw e, tr ++ map (fun k => GetMark loader k j) (seq 0 (S i))).
Proof.
  intros Hi Hok Hfail. rewrite (seq_split_at n i Hi).
  eapply for_each_throw.
  - exact (getMark_loop getMark loader j marks i tr Hok).
  - unfold loader_getMark, bind, emit, throw. rewrite Hfail.
    rewrite seq_S, map_app, app_assoc. reflexivity.
Qed.

(** X4. When the mark loader fails on a granule, having answered for the
    granules before it, [fillMarks] throws the loader's exception
    unchanged and returns no column; it has queried the granules up to
    that one, in order, each once, and queries none after it. *)
Theorem fillMarks_stops_at_first_failure part data_type target i e
    (marks : nat -> MarkInCompressedFile) tr :
  let n := getMarksCount (index_granularity part) in
  (forall ml stream_name,
     part_type part = Wide ->
     getStreamNameOrHash part target (checksums part) = Some stream_name ->
     let loader := mkLoader (name part) stream_name n 1 in
     i < n ->
     (forall k, k < i -> getMark loader k 0 = Ok (marks k)) ->
     getMark loader i 0 = Throw e ->
     fillMarks_ part ml data_type target tr =
     (Throw e,
      tr ++ CreateMarksLoader loader :: map (fun k => GetMark loader k 0) (seq 0 (S i)))) /\
  (forall loader col_idx,
     part_type part = Compact ->
     getColumnPosition part (unescapeForFileName target) = Some col_idx ->
     i < n ->
     (forall k, k < i -> getMark loader k col_idx = Ok (marks k)) ->
     getMark loader i col_idx = Throw e ->
     fillMarks_ part (Some loader) data_type target tr =
     (Throw e, tr ++ map (fun k => GetMark loader k col_idx) (seq 0 (S i)))).
Proof.
  intros n. split.
  - intros ml stream_name Hw Hs loader Hi Hok Hfail.
    unfold fillMarks, isWidePart. rewrite Hw, Hs.
    unfold createMarksLoader, bind at 1 2 3, emit, ret at 1 2. cbn [negb]. cbv zeta.
    fold n. fold loader.
    erewrite bind_throw; [|exact (getMark_loop_fail loader 0 n i e marks _ Hi Hok Hfail)].
    rewrite <- app_assoc. reflexivity.
  - intros loader col_idx Hc Hp Hi Hok Hfail.
    unfold fillMarks, isWidePart, isCompactPart. rewrite Hc, Hp.
    unfold bind at 1, ret at 1. cbn [negb]. fold n.
    erewrite bind_throw;
      [reflexivity|exact (getMark_loop_fail loader col_idx n i e marks _ Hi Hok Hfail)].
Qed.

(** ** How many loaders, how many queries *)

Lemma count_events_app (p : Event -> bool) (w1 w2 : Trace) :
  count_events p (w1 ++ w2) = count_events p w1 + count_events p w2.
Proof. unfold count_events. now rewrite List.filter_app, length_app. Qed.

Lemma count_queries_map loader j (L : list nat) :
  count_events is_query (map (fun i => GetMark loader i j) L) = length L /\
  count_events is_create (map (fun i => GetMark loader i j) L) = 0.
Proof.
  unfold count_events. induction L as [|a L [IH1 IH2]]; simpl; [auto|].
  rewrite IH1, IH2. auto.
Qed.

Lemma for_each_measure {A B : Type} (mu : Trace -> nat) (f : A -> M B) (g : A -> nat)
    (l : list A) (bs : list B) (tr tr' : Trace) :
  (forall w1 w2, mu (w1 ++ w2) = mu w1 + mu w2) ->
  (forall a tr1 b tr2, f a tr1 = (Ok b, tr2) -> exists w, tr2 = tr1 ++ w /\ mu w = g a) ->
  for_each f l tr = (Ok bs, tr') ->
  exists w, tr' = tr ++ w /\ mu w = sum_list (map g l).
Proof.
  intros Hadd Hf. revert bs tr. induction l as [|a l IH]; intros bs tr H; simpl in H.
  - inversion H; subst. exists []. rewrite app_nil_r. split; [reflexivity|].
    specialize (Hadd [] []). simpl in *. lia.
  - apply bind_ok_inv in H as (b & tr1 & Hb & H).
    apply bind_ok_inv in H as (bs' & tr2 & Hbs & H). inversion H; subst.
    destruct (Hf _ _ _ _ Hb) as (w1 & -> & Hw1).
    destruct (IH _ _ Hbs) as (w2 & -> & Hw2).
    exists (w1 ++ w2). rewrite app_assoc. split; [reflexivity|].
    rewrite Hadd, Hw1, Hw2. reflexivity.
Qed.

Lemma getMark_loop_ok_trace loader j (L : list nat) ms tr tr' :
  for_each (fun i => loader_getMark getMark (Some loader) i j) L tr = (Ok ms, tr') ->
  tr' = tr ++ map (fun i => GetMark loader i j) L.
Proof.
  revert ms tr. induction L as [|a L IH]; intros ms tr H; simpl in H.
  - inversion H. now rewrite app_nil_r.
  - apply bind_ok_inv in H as (b & tr1 & Hb & H).
    apply bind_ok_inv in H as (bs' & tr2 & Hbs & H). inversion H; subst.
    apply IH in Hbs. subst.
    unfold loader_getMark, bind, emit, ret, throw in Hb.
    destruct (getMark loader a j); inversion Hb; subst.
    simpl. rewrite <- app_assoc. reflexivity.
Qed.

(** What a successful [fillMarks] has appended to the trace. *)
Lemma fillMarks_ok_trace part data_type target col tr tr' :
  fillMarks_ part (shared_marks_loader true part) data_type target tr = (Ok col, tr') ->
  exists w, tr' = tr ++ w /\
    count_events is_query w =
      (if has_marks_in_part_ part target then getMarksCount (index_granularity part) else 0) /\
    count_events is_create w =
      (if has_marks_in_part_ part target && isWidePart part then 1 else 0).
Proof.
  unfold fillMarks, shared_marks_loader, has_marks_in_part, isWidePart, isCompactPart.
  destruct (part_type part) as [| |type_name]; cbn [andb].
  - destruct (getStreamNameOrHash part target (checksums part)) as [stream|].
    + unfold createMarksLoader, bind at 1 2 3, emit, ret at 1 2. cbn [negb]. cbv zeta.
      intros H. apply bind_ok_inv in H as (ms & tr1 & Hloop & H). inversion H; subst.
      apply getMark_loop_ok_trace in Hloop. subst.
      eexists. rewrite <- app_assoc. split; [reflexivity|].
      rewrite bool_decide_eq_true_2 by eauto. cbn [andb].
      rewrite !count_events_app.
      destruct (count_queries_map
                  (mkLoader (name part) stream (getMarksCount (index_granularity part)) 1)
                  0 (seq 0 (getMarksCount (index_granularity part)))) as [-> ->].
      rewrite length_seq. split; reflexivity.
    + unfold bind, ret. cbn [negb]. intros H. inversion H; subst.
      exists []. rewrite app_nil_r. rewrite bool_decide_eq_false_2; [auto|].
      intros [x Hx]. discriminate.
  - destruct (getColumnPosition part (unescapeForFileName target)) as [col_idx|].
    + unfold bind at 1, ret at 1. cbn [negb].
      intros H. apply bind_ok_inv in H as (ms & tr1 & Hloop & H). inversion H; subst.
      apply getMark_loop_ok_trace in Hloop. subst.
      eexists. split; [reflexivity|].
      rewrite bool_decide_eq_true_2 by eauto. rewrite andb_false_r.
      destruct (count_queries_map
                  (mkLoader (name part) DATA_FILE_NAME
                            (getMarksCount (index_granularity part))
                            (length (getColumns part)))
                  col_idx (seq 0 (getMarksCount (index_granularity part)))) as [-> ->].
      rewrite length_seq. split; reflexivity.
    + unfold bind, ret. cbn [negb]. intros H. inversion H; subst.
      exists []. rewrite app_nil_r. rewrite bool_decide_eq_false_2; [auto|].
      intros [x Hx]. discriminate.
  - unfold bind, throw. discriminate.
Qed.

Lemma generate_column_ok_trace ih wm part c col tr tr' :
  generate_column_ ih wm part (shared_marks_loader wm part)
    (getMarksCount (index_granularity part)) c tr = (Ok col, tr') ->
  exists w, tr' = tr ++ w /\
    count_events is_query w =
      (if loads_marks splitName unescapeForFileName getStreamNameOrHash ih wm part c
       then getMarksCount (index_granularity part) else 0) /\
    count_events is_create w =
      (if loads_marks splitName unescapeForFileName getStreamNameOrHash ih wm part c
          && isWidePart part
       then 1 else 0).
Proof.
  unfold loads_marks, resolve, generate_column.
  change (col_name part_name_column) with "part_name".
  change (col_name mark_number_column) with "mark_number".
  change (col_name rows_in_granule_column) with "rows_in_granule".
  assert (Hnone : forall tr0 tr1 : Trace, tr0 = tr1 ->
            exists w, tr1 = tr0 ++ w /\ count_events is_query w = 0 /\
                      count_events is_create w = 0).
  { intros tr0 tr1 <-. exists []. rewrite app_nil_r. auto. }
  destruct (has ih (col_name c)).
  { destruct (index part !! _); intros H; inversion H. now apply Hnone. }
  destruct (bool_decide (col_name c = "part_name")).
  { unfold createColumnConst. destruct (col_type c) as [| |[]|]; intros H; inversion H;
      now apply Hnone. }
  destruct (bool_decide (col_name c = "mark_number")).
  { unfold bind, assert_cast_ColumnUInt64.
    destruct (createColumn _); simpl; intros H; inversion H; now apply Hnone. }
  destruct (bool_decide (col_name c = "rows_in_granule")).
  { unfold bind, assert_cast_ColumnUInt64.
    destruct (createColumn _); simpl; intros H; inversion H; now apply Hnone. }
  destruct (splitName (col_name c) true) as [first second]. cbn [fst snd].
  destruct wm; cbn [andb]; [|discriminate].
  destruct (bool_decide (second = "mark")); [|discriminate].
  apply fillMarks_ok_trace.
Qed.

Lemma sum_list_if {A : Type} (p : A -> bool) (n : nat) (l : list A) :
  sum_list (map (fun a => if p a then n else 0) l) = n * length (List.filter p l).
Proof.
  induction l as [|a l IH]; simpl; [lia|]. destruct (p a); simpl; lia.
Qed.

Lemma sum_list_if_and {A : Type} (p : A -> bool) (b : bool) (l : list A) :
  sum_list (map (fun a => if p a && b then 1 else 0) l) =
  if b then length (List.filter p l) else 0.
Proof.
  destruct b.
  - induction l as [|a l IH]; simpl; [reflexivity|].
    rewrite andb_true_r. destruct (p a); simpl; lia.
  - induction l as [|a l IH]; simpl; [reflexivity|]. rewrite andb_false_r. exact IH.
Qed.

(** X5. A call of [generate] that returns a chunk has queried the loader
    once per mark for each header entry whose marks the part records and
    not at all for the others; it has created one loader for a compact
    part when marks are enabled, however many mark pseudo-columns the
    header holds, none included, and for a wide part one loader per header
    entry whose marks the part records. *)
Theorem generate_loads_once_per_mark h ih parts wm k part tr chunk s' tr' :
  parts !! k = Some part ->
  generate_ (mkSource h ih parts wm k) tr = (Ok (chunk, s'), tr') ->
  let loading :=
    length (List.filter
              (loads_marks splitName unescapeForFileName getStreamNameOrHash ih wm part) h) in
  exists w, tr' = tr ++ w /\
    count_events is_query w = getMarksCount (index_granularity part) * loading /\
    count_events is_create w =
      (if wm && isCompactPart part then 1 else 0) +
      (if isWidePart part then loading else 0).
Proof.
  intros Hp H loading. rewrite (generate_unfold _ _ _ _ _ _ _ _ _ _ _ Hp) in H.
  apply bind_ok_inv in H as (cols & tr1 & Hloop & Hret).
  apply bind_ok_inv in Hret as (u & tr2 & Hcheck & Hret).
  apply checkNumRowsIsConsistent_ok_inv in Hcheck as [-> _].
  inversion Hret; subst tr'. clear Hret.
  pose proof Hloop as Hloop2.
  apply (for_each_measure (count_events is_query) _
           (fun c => if loads_marks splitName unescapeForFileName getStreamNameOrHash
                          ih wm part c
                     then getMarksCount (index_granularity part) else 0)) in Hloop;
    [|apply count_events_app
     |intros c tr2 col tr3 Hc;
      destruct (generate_column_ok_trace _ _ _ _ _ _ _ Hc) as (w & -> & Hq & _); eauto].
  apply (for_each_measure (count_events is_create) _
           (fun c => if loads_marks splitName unescapeForFileName getStreamNameOrHash
                          ih wm part c && isWidePart part
                     then 1 else 0)) in Hloop2;
    [|apply count_events_app
     |intros c tr2 col tr3 Hc;
      destruct (generate_column_ok_trace _ _ _ _ _ _ _ Hc) as (w & -> & _ & Hc'); eauto].
  destruct Hloop as (w1 & Hw1 & Hq). destruct Hloop2 as (w2 & Hw2 & Hcr).
  assert (w1 = w2) by (rewrite Hw1 in Hw2; now apply app_inv_head in Hw2). subst w2.
  exists (match shared_marks_loader wm part with
          | Some loader => [CreateMarksLoader loader]
          | None => []
          end ++ w1).
  rewrite app_assoc. split; [exact Hw1|]. rewrite !count_events_app, Hq, Hcr.
  rewrite sum_list_if. split.
  - unfold shared_marks_loader. destruct (wm && isCompactPart part); reflexivity.
  - rewrite sum_list_if_and. unfold shared_marks_loader. fold loading.
    destruct (wm && isCompactPart part); reflexivity.
Qed.

(** ** Which column a name yields, which chunk a part yields *)

Lemma position_of_key (b : Block) (n : string) :
  has b n = true ->
  exists kc, b !! getPositionByName b n = Some kc /\ col_name kc = n /\
    forall j, j < getPositionByName b n -> col_name <$> b !! j <> Some n.
Proof.
  unfold has. induction b as [|c b IH]; simpl; [discriminate|].
  destruct (bool_decide_reflect (col_name c = n)) as [Hc|Hc]; simpl.
  - intros _. exists c. split; [reflexivity|]. split; [exact Hc|]. intros j Hj. lia.
  - intros H. destruct (IH H) as (kc & Hk & Hn & Hbefore).
    exists kc. split; [exact Hk|]. split; [exact Hn|].
    intros [|j] Hj; simpl; [congruence|]. apply Hbefore. lia.
Qed.

(** X6. A requested name that is the name of a key component yields the
    stored index column at the position of the first key component of that
    name, as it is stored, also when the name is that of a metadata column
    or ends in [.mark]: the type the header declares and the marks flag
    play no part, and no loader is touched. *)
Theorem key_component_takes_precedence ih c :
  has ih (col_name c) = true ->
  let position := getPositionByName ih (col_name c) in
  (exists kc, ih !! position = Some kc /\ col_name kc = col_name c /\
     forall j, j < position -> col_name <$> ih !! j <> Some (col_name c)) /\
  (forall wm, resolve_ ih wm (col_name c) = IndexValue position) /\
  (forall wm part ml n tr col,
     index part !! position = Some col ->
     generate_column_ ih wm part ml n c tr = (Ok col, tr)).
Proof.
  intros Hh position. split; [now apply position_of_key|]. split.
  - intros wm. unfold resolve. rewrite Hh. reflexivity.
  - intros wm part ml n tr col Hcol. unfold generate_column. rewrite Hh.
    fold position. rewrite Hcol. reflexivity.
Qed.

Local Abbreviation chunk_for_ :=
  (chunk_for splitName unescapeForFileName getStreamNameOrHash getMark).
Local Abbreviation chunk_fn_ :=
  (chunk_fn splitName unescapeForFileName getStreamNameOrHash getMark).
Local Abbreviation chunks_for_ :=
  (chunks_for splitName unescapeForFileName getStreamNameOrHash getMark).

(** [generate] on a part of a list, from the run on the part alone. *)
Lemma generate_alone h ih wm parts k part tr :
  parts !! k = Some part ->
  generate_ (mkSource h ih parts wm k) tr =
  (match fst (chunk_for splitName unescapeForFileName getStreamNameOrHash getMark
                h ih wm part) with
   | Ok chunk => Ok (chunk, mkSource h ih parts wm (S k))
   | Throw e => Throw e
   end,
   tr ++ snd (chunk_for_ h ih wm part)).
Proof.
  intros Hp. unfold chunk_for.
  rewrite (generate_unfold _ _ _ _ _ _ _ _ _ _ _ Hp).
  rewrite (generate_unfold _ _ _ _ h ih [part] wm 0 part [] eq_refl).
  unfold bind.
  rewrite (appends_for_each _ h (fun c => appends_generate_column _ _ _ _ _ _ _ _ _ c)
             (tr ++ _)).
  rewrite (appends_for_each _ h (fun c => appends_generate_column _ _ _ _ _ _ _ _ _ c)
             ([] ++ _)).
  destruct (for_each _ h []) as [[cols|e] w]; cbn [fst snd app];
    [|now rewrite app_assoc].
  unfold checkNumRowsIsConsistent, ret, throw. cbn [chunk_columns num_rows].
  destruct (forallb (fun c : IColumn => bool_decide _) cols); cbn [fst snd];
    now rewrite app_assoc.
Qed.

(** X7. What [generate] returns for a part and what it appends to the
    trace depend on the header, the key, the marks flag and that part
    alone: not on the other parts of the list, not on the position of the
    part in it, not on what was read before. *)
Theorem generate_depends_on_part_only h ih wm parts k part tr :
  parts !! k = Some part ->
  generate_ (mkSource h ih parts wm k) tr =
  (match fst (chunk_for splitName unescapeForFileName getStreamNameOrHash getMark
                h ih wm part) with
   | Ok chunk => Ok (chunk, mkSource h ih parts wm (S k))
   | Throw e => Throw e
   end,
   tr ++ snd (chunk_for_ h ih wm part)).
Proof. exact (generate_alone h ih wm parts k part tr). Qed.

Lemma pull_from_chunks h ih wm parts m :
  forall k tr,
    k + m = length parts ->
    pull_ m (mkSource h ih parts wm k) tr =
    (match fst (chunks_for_ h ih wm (drop k parts)) with
     | Ok chunks => Ok (chunks, mkSource h ih parts wm (length parts))
     | Throw e => Throw e
     end,
     tr ++ snd (chunks_for_ h ih wm (drop k parts))).
Proof.
  induction m as [|m IH]; intros k tr Hk.
  - replace k with (length parts) by lia. rewrite drop_all. simpl.
    unfold ret. now rewrite app_nil_r.
  - destruct (lookup_lt_is_Some_2 parts k ltac:(lia)) as [part Hp].
    rewrite (drop_S _ _ _ Hp). cbn [pull chunks_for]. unfold bind at 1.
    rewrite (generate_alone _ _ _ _ _ _ _ Hp).
    destruct (chunk_for_ h ih wm part) as [[chunk|e] w]; cbn [fst snd]; [|reflexivity].
    unfold bind. rewrite (IH (S k) (tr ++ w) ltac:(lia)).
    destruct (chunks_for_ h ih wm (drop (S k) parts)) as [[chunks|e] w']; cbn [fst snd ret];
      now rewrite app_assoc.
Qed.

(** X8. Reading a list of parts to its end is reading each part alone, in
    list order: the chunks are those of the parts one by one, the trace is
    the traces one after the other, and the first part that throws stops
    the read with its exception. *)
Theorem pull_is_chunk_by_chunk h ih wm parts tr :
  pull_ (length parts) (mkSource h ih parts wm 0) tr =
  (match fst (chunks_for splitName unescapeForFileName getStreamNameOrHash getMark
                h ih wm parts) with
   | Ok chunks => Ok (chunks, mkSource h ih parts wm (length parts))
   | Throw e => Throw e
   end,
   tr ++ snd (chunks_for_ h ih wm parts)).
Proof.
  rewrite (pull_from_chunks h ih wm parts (length parts) 0 tr eq_refl), drop_0. reflexivity.
Qed.

(** X10. Once [part_index] has reached the number of parts the source
    stays where it is: every further call of [generate] returns the empty
    chunk, throws nothing, and leaves the source and the trace as they
    were. *)
Theorem exhausted_source_stays_exhausted n s tr :
  length (data_parts s) <= part_index s ->
  pull_ n s tr = (Ok (replicate n empty_chunk, s), tr).
Proof.
  intros Hk. destruct s as [h ih parts wm k]. cbn [data_parts part_index] in Hk.
  induction n as [|n IH]; [reflexivity|].
  cbn [pull]. unfold bind at 1.
  rewrite (generate_exhausted _ _ _ _ _ _ _ _ _ _ Hk). cbn [fst snd].
  unfold bind. rewrite IH. reflexivity.
Qed.

End GeneratorProperties.

(** ** More on the part filter *)

Lemma filter_ext_in {A : Type} (P Q : A -> Prop) `{DP : !forall x, Decision (P x)}
    `{DQ : !forall x, Decision (Q x)} (l : list A) :
  (forall x, x ∈ l -> (P x <-> Q x)) -> filter P l = filter Q l.
Proof.
  induction l as [|a l IH]; intros H; [reflexivity|].
  assert (Hl : filter P l = filter Q l) by (apply IH; intros x Hx; apply H; now right).
  destruct (decide (P a)) as [Ha|Ha].
  - rewrite !filter_cons_True; [now rewrite Hl| |exact Ha]. apply H; [left|exact Ha].
  - rewrite !filter_cons_False; [exact Hl| |exact Ha]. intros Hq. apply Ha, H; [left|exact Hq].
Qed.

Lemma filter_all {A : Type} (P : A -> Prop) `{DP : !forall x, Decision (P x)} (l : list A) :
  (forall x, x ∈ l -> P x) -> filter P l = l.
Proof.
  induction l as [|a l IH]; intros H; [reflexivity|].
  rewrite filter_cons_True by (apply H; left). f_equal. apply IH. intros x Hx. apply H. now right.
Qed.

Lemma filter_sublist_id (l rows : list string) :
  NoDup l -> rows `sublist_of` l -> filter (fun x => x ∈ rows) l = rows.
Proof.
  intros Hnd Hsub. induction Hsub as [|x rows l Hsub IH|x rows l Hsub IH].
  - reflexivity.
  - apply NoDup_cons in Hnd as [Hx Hnd].
    rewrite filter_cons_True by left. f_equal.
    transitivity (filter (fun y => y ∈ rows) l); [|exact (IH Hnd)].
    apply filter_ext_in. intros y Hy. rewrite elem_of_cons. split; [|auto].
    intros [->|Hin]; [contradiction|exact Hin].
  - apply NoDup_cons in Hnd as [Hx Hnd].
    rewrite filter_cons_False; [now apply IH|].
    intros Hin. apply Hx. eapply elem_of_sublist; eassumption.
Qed.

Lemma filter_names (rows : list string) (parts : DataPartsVector) :
  map name (filter (fun part => name part ∈ rows) parts) =
  filter (fun x => x ∈ rows) (map name parts).
Proof.
  induction parts as [|part parts IH]; [reflexivity|]. simpl.
  destruct (decide (name part ∈ rows)) as [H|H].
  - rewrite !filter_cons_True by exact H. simpl. now rewrite IH.
  - rewrite !filter_cons_False by exact H. exact IH.
Qed.

(** X11. When the filter evaluator leaves the name of every part, the
    part list is returned as it is, in its order: a filter every part
    passes changes nothing. *)
Theorem filter_keeping_every_name filterBlockWithQuery (parts : DataPartsVector)
    (query_info : SelectQueryInfo) (rows : list string) (tr : Trace) :
  filterBlockWithQuery (query query_info) (map name parts) = Ok rows ->
  (forall part, part ∈ parts -> name part ∈ rows) ->
  exists tr', getFilteredDataParts filterBlockWithQuery parts query_info tr = (Ok parts, tr').
Proof.
  intros Hrows Hall. rewrite getFilteredDataParts_run, Hrows.
  destruct (select_where (query query_info)); [|eauto].
  rewrite (filter_all _ parts Hall). eauto.
Qed.

(** X12. The parts returned depend on the rows the evaluator leaves as a
    set: two evaluators that leave the same names, in whatever order and
    however often repeated, give the same parts in the same order. *)
Theorem filter_depends_on_surviving_set filter1 filter2 (parts : DataPartsVector)
    (query_info : SelectQueryInfo) (rows1 rows2 : list string) (tr : Trace) :
  filter1 (query query_info) (map name parts) = Ok rows1 ->
  filter2 (query query_info) (map name parts) = Ok rows2 ->
  (forall x, x ∈ rows1 <-> x ∈ rows2) ->
  getFilteredDataParts filter1 parts query_info tr =
  getFilteredDataParts filter2 parts query_info tr.
Proof.
  intros H1 H2 Hsame. rewrite !getFilteredDataParts_run, H1, H2.
  destruct (select_where (query query_info)); [|reflexivity].
  f_equal. f_equal. apply list_filter_iff. intros part. apply Hsame.
Qed.

(** X13. When the names of the parts are distinct and the evaluator
    leaves a subsequence of the block of names it was given, the names of
    the parts returned are exactly the rows left, in the same order. *)
Theorem filter_returns_the_surviving_names filterBlockWithQuery (parts : DataPartsVector)
    (query_info : SelectQueryInfo) (w : IAST) (rows : list string) (tr : Trace) :
  select_where (query query_info) = Some w ->
  filterBlockWithQuery (query query_info) (map name parts) = Ok rows ->
  NoDup (map name parts) ->
  rows `sublist_of` map name parts ->
  exists result tr',
    getFilteredDataParts filterBlockWithQuery parts query_info tr = (Ok result, tr') /\
    map name result = rows /\ length result = length rows.
Proof.
  intros Hw Hrows Hnd Hsub. rewrite getFilteredDataParts_run, Hw, Hrows.
  eexists _, _. split; [reflexivity|].
  assert (Hn : map name (filter (fun part => name part ∈ rows) parts) = rows)
    by (rewrite filter_names; now apply filter_sublist_id).
  split; [exact Hn|]. apply (f_equal length) in Hn. now rewrite length_map in Hn.
Qed.

(** X14. With a WHERE expression the evaluator is called exactly once,
    on the names of all the parts in list order, also when there is no
    part at all; an exception of the evaluator is thrown on unchanged and
    no part list is returned. *)
Theorem filter_calls_evaluator_once filterBlockWithQuery (parts : DataPartsVector)
    (query_info : SelectQueryInfo) (w : IAST) (tr : Trace) :
  select_where (query query_info) = Some w ->
  snd (getFilteredDataParts filterBlockWithQuery parts query_info tr) =
    tr ++ [FilterBlockWithQuery (map name parts)] /\
  (forall e,
     filterBlockWithQuery (query query_info) (map name parts) = Throw e ->
     fst (getFilteredDataParts filterBlockWithQuery parts query_info tr) = Throw e) /\
  (forall e,
     fst (getFilteredDataParts filterBlockWithQuery parts query_info tr) = Throw e ->
     filterBlockWithQuery (query query_info) (map name parts) = Throw e).
Proof.
  intros Hw. rewrite getFilteredDataParts_run, Hw.
  destruct (filterBlockWithQuery (query query_info) (map name parts)) as [rows|e0];
    cbn [fst snd].
  - split; [reflexivity|]. split; intros e H; discriminate.
  - split; [reflexivity|]. split; intros e H; inversion H; reflexivity.
Qed.

(** ** The facade *)

Section FacadeProperties.

Variable splitName : string -> bool -> string * string.
Variable unescapeForFileName : string -> string.
Variable getStreamNameOrHash :
  IMergeTreeDataPart -> string -> Checksums -> option string.
Variable getMark :
  MergeTreeMarksLoader -> nat -> nat -> Result MarkInCompressedFile.
Variable filterBlockWithQuery : IAST -> list string -> Result (list string).
Variable hasColumnOrSubcolumn : list (string * IDataType) -> string -> bool.
Variable checkAccess : string -> list string -> Result unit.
Variable getSampleBlockForColumns : Block -> list string -> Result Block.

Local Abbreviation read_ :=
  (StorageMergeTreeIndex.read splitName unescapeForFileName filterBlockWithQuery
     hasColumnOrSubcolumn checkAccess getSampleBlockForColumns).
Local Abbreviation columns_from_storage_ :=
  (StorageMergeTreeIndex.columns_from_storage splitName unescapeForFileName
     hasColumnOrSubcolumn).
Local Abbreviation pull_ :=
  (pull splitName unescapeForFileName getStreamNameOrHash getMark).
Local Abbreviation chunk_for_ :=
  (chunk_for splitName unescapeForFileName getStreamNameOrHash getMark).
Local Abbreviation chunk_fn_ :=
  (chunk_fn splitName unescapeForFileName getStreamNameOrHash getMark).
Local Abbreviation chunks_for_ :=
  (chunks_for splitName unescapeForFileName getStreamNameOrHash getMark).

(** X15. [read] checks access before anything else: when the check
    throws, [read] throws its exception having made that one call; and
    when the check passes and the header cannot be built, [read] throws the
    exception of the sample block.  Either way the filter evaluator has not
    been called and no source is returned. *)
Theorem read_checks_access_first this table column_names query_info tr e :
  let checked :=
    columns_from_storage_ (getMetadataColumns table)
      (StorageMergeTreeIndex.with_marks this) column_names in
  (checkAccess (getStorageID table) checked = Throw e ->
   read_ this table column_names query_info tr =
   (Throw e, tr ++ [CheckAccess (getStorageID table) checked])) /\
  (checkAccess (getStorageID table) checked = Ok tt ->
   getSampleBlockForColumns (StorageMergeTreeIndex.metadata_columns this) column_names =
     Throw e ->
   read_ this table column_names query_info tr =
   (Throw e, tr ++ [CheckAccess (getStorageID table) checked])).
Proof.
  intros checked. split.
  - intros Hc. unfold StorageMergeTreeIndex.read, rbind, remit, of_result. fold checked.
    rewrite Hc. reflexivity.
  - intros Hc Hs. unfold StorageMergeTreeIndex.read, rbind, remit, of_result. fold checked.
    rewrite Hc, Hs. reflexivity.
Qed.

(** What the first loop of [read] collects, as far as membership goes. *)
Lemma columns_from_storage_sound storage_columns wm column_names :
  let checked :=
    StorageMergeTreeIndex.columns_from_storage splitName unescapeForFileName
      hasColumnOrSubcolumn storage_columns wm column_names in
  (forall n, n ∈ column_names -> hasColumnOrSubcolumn storage_columns n = true ->
             n ∈ checked) /\
  (wm = false ->
   checked = List.filter (hasColumnOrSubcolumn storage_columns) column_names) /\
  (forall m, m ∈ checked ->
     (m ∈ column_names /\ hasColumnOrSubcolumn storage_columns m = true) \/
     (wm = true /\
      exists n, n ∈ column_names /\
        hasColumnOrSubcolumn storage_columns n = false /\
        snd (splitName n true) = "mark" /\
        m = unescapeForFileName (fst (splitName n true)) /\
        hasColumnOrSubcolumn storage_columns (unescapeForFileName m) = true)) /\
  length checked <= length column_names.
Proof.
  intros checked. unfold checked. clear checked.
  induction column_names as [|n names (IH1 & IH2 & IH3 & IH4)].
  - simpl. split; [intros n Hn; inversion Hn|]. split; [reflexivity|].
    split; [intros m Hm; inversion Hm|lia].
  - cbn [StorageMergeTreeIndex.columns_from_storage List.filter].
    destruct (hasColumnOrSubcolumn storage_columns n) eqn:Hn.
    + split; [|split; [|split]].
      * intros x Hx Hhas. apply elem_of_cons in Hx as [->|Hx]; [left|right; auto].
      * intros Hwm. f_equal. auto.
      * intros m Hm. apply elem_of_cons in Hm as [->|Hm].
        -- left. split; [left|exact Hn].
        -- destruct (IH3 m Hm) as [[H1 H2]|(Hw & x & Hx & Hrest)].
           ++ left. split; [now right|exact H2].
           ++ right. split; [exact Hw|]. exists x. split; [now right|exact Hrest].
      * simpl. lia.
    + destruct wm.
      * destruct (splitName n true) as [first second] eqn:Hsplit.
        destruct (bool_decide_reflect (second = "mark")) as [Hmark|Hmark]; cbn [andb].
        -- destruct (hasColumnOrSubcolumn storage_columns
                       (unescapeForFileName (unescapeForFileName first))) eqn:Hun.
           ++ split; [|split; [|split]].
              ** intros x Hx Hhas. apply elem_of_cons in Hx as [->|Hx]; [congruence|].
                 right. auto.
              ** discriminate.
              ** intros m Hm. apply elem_of_cons in Hm as [->|Hm].
                 --- right. split; [reflexivity|]. exists n. rewrite Hsplit. cbn [fst snd].
                     split; [left|]. auto.
                 --- destruct (IH3 m Hm) as [[H1 H2]|(Hw & x & Hx & Hrest)].
                     +++ left. split; [now right|exact H2].
                     +++ right. split; [exact Hw|]. exists x. split; [now right|exact Hrest].
              ** simpl. lia.
           ++ split; [|split; [|split]].
              ** intros x Hx Hhas. apply elem_of_cons in Hx as [->|Hx]; [congruence|auto].
              ** discriminate.
              ** intros m Hm. destruct (IH3 m Hm) as [[H1 H2]|(Hw & x & Hx & Hrest)].
                 --- left. split; [now right|exact H2].
                 --- right. split; [exact Hw|]. exists x. split; [now right|exact Hrest].
              ** simpl. lia.
        -- split; [|split; [|split]].
           ++ intros x Hx Hhas. apply elem_of_cons in Hx as [->|Hx]; [congruence|auto].
           ++ discriminate.
           ++ intros m Hm. destruct (IH3 m Hm) as [[H1 H2]|(Hw & x & Hx & Hrest)].
              ** left. split; [now right|exact H2].
              ** right. split; [exact Hw|]. exists x. split; [now right|exact Hrest].
           ++ simpl. lia.
      * split; [|split; [|split]].
        -- intros x Hx Hhas. apply elem_of_cons in Hx as [->|Hx]; [congruence|auto].
        -- intros _. auto.
        -- intros m Hm. destruct (IH3 m Hm) as [[H1 H2]|(Hw & x & Hx & Hrest)].
           ++ left. split; [now right|exact H2].
           ++ right. split; [exact Hw|]. exists x. split; [now right|exact Hrest].
        -- simpl. lia.
Qed.

(** The loop collects name by name: the columns of a request are those of
    its first names followed by those of its last names. *)
Lemma columns_from_storage_app storage_columns wm names1 names2 :
  columns_from_storage_ storage_columns wm (names1 ++ names2) =
  columns_from_storage_ storage_columns wm names1 ++
  columns_from_storage_ storage_columns wm names2.
Proof.
  induction names1 as [|n names1 IH]; [reflexivity|].
  cbn [app StorageMergeTreeIndex.columns_from_storage].
  destruct (hasColumnOrSubcolumn storage_columns n); [now rewrite IH|].
  destruct wm; [|exact IH].
  destruct (splitName n true) as [first second].
  destruct (bool_decide (second = "mark") && _); [now rewrite IH|exact IH].
Qed.

(** What one requested name makes the loop collect. *)
Lemma columns_from_storage_one storage_columns wm n :
  columns_from_storage_ storage_columns wm [n] =
  if hasColumnOrSubcolumn storage_columns n then [n]
  else if wm && bool_decide (snd (splitName n true) = "mark") &&
          hasColumnOrSubcolumn storage_columns
            (unescapeForFileName (unescapeForFileName (fst (splitName n true))))
       then [unescapeForFileName (fst (splitName n true))]
       else [].
Proof.
  cbn [StorageMergeTreeIndex.columns_from_storage].
  destruct (hasColumnOrSubcolumn storage_columns n); [reflexivity|].
  destruct wm; [|reflexivity].
  destruct (splitName n true) as [first second]. cbn [fst snd andb].
  destruct (bool_decide (second = "mark") && _); reflexivity.
Qed.

(** X16. The columns [read] has access checked are, in request order:
    every requested name the table has as a column or subcolumn; and, with
    marks enabled, for a requested name the table does not have whose
    suffix is [mark], the unescaped prefix, when the table has the prefix
    unescaped twice.  Each such name is checked, nothing else is, and the
    order is that of the request: the columns of a request are those of its
    first names followed by those of its last names, a single name giving
    one column or none.  With marks disabled they are exactly the requested
    names the table has; a name the table does not have is never checked
    as it is. *)
Theorem read_checks_the_touched_columns storage_columns wm column_names :
  let checked :=
    StorageMergeTreeIndex.columns_from_storage splitName unescapeForFileName
      hasColumnOrSubcolumn storage_columns wm column_names in
  (forall n, n ∈ column_names -> hasColumnOrSubcolumn storage_columns n = true ->
             n ∈ checked) /\
  (wm = false ->
   checked = List.filter (hasColumnOrSubcolumn storage_columns) column_names) /\
  (forall m, m ∈ checked ->
     (m ∈ column_names /\ hasColumnOrSubcolumn storage_columns m = true) \/
     (wm = true /\
      exists n, n ∈ column_names /\
        hasColumnOrSubcolumn storage_columns n = false /\
        snd (splitName n true) = "mark" /\
        m = unescapeForFileName (fst (splitName n true)) /\
        hasColumnOrSubcolumn storage_columns (unescapeForFileName m) = true)) /\
  length checked <= length column_names /\
  (forall n,
     n ∈ column_names ->
     hasColumnOrSubcolumn storage_columns n = false ->
     wm = true ->
     snd (splitName n true) = "mark" ->
     hasColumnOrSubcolumn storage_columns
       (unescapeForFileName (unescapeForFileName (fst (splitName n true)))) = true ->
     unescapeForFileName (fst (splitName n true)) ∈ checked) /\
  (forall names1 names2,
     column_names = names1 ++ names2 ->
     checked =
     columns_from_storage_ storage_columns wm names1 ++
     columns_from_storage_ storage_columns wm names2) /\
  (forall n,
     columns_from_storage_ storage_columns wm [n] =
     if hasColumnOrSubcolumn storage_columns n then [n]
     else if wm && bool_decide (snd (splitName n true) = "mark") &&
             hasColumnOrSubcolumn storage_columns
               (unescapeForFileName (unescapeForFileName (fst (splitName n true))))
          then [unescapeForFileName (fst (splitName n true))]
          else []).
Proof.
  intros checked.
  destruct (columns_from_storage_sound storage_columns wm column_names)
    as (H1 & H2 & H3 & H4).
  split; [exact H1|]. split; [exact H2|]. split; [exact H3|]. split; [exact H4|].
  split; [|split].
  - intros n Hn Hhas Hwm Hmark Htwice.
    apply list_elem_of_split in Hn as (l1 & l2 & Hsplit).
    unfold checked. rewrite Hsplit.
    rewrite columns_from_storage_app.
    change (n :: l2) with ([n] ++ l2). rewrite columns_from_storage_app.
    rewrite columns_from_storage_one, Hhas, Hwm, Hmark, Htwice.
    rewrite bool_decide_eq_true_2 by reflexivity. cbn [andb].
    apply elem_of_app. right. apply elem_of_app. left. left.
  - intros names1 names2 ->. apply columns_from_storage_app.
  - intros n. apply columns_from_storage_one.
Qed.

Lemma rbind_ok_inv {A B : Type} (m : R A) (k : A -> R B) tr tr2 (b : B) :
  rbind m k tr = (Ok b, tr2) ->
  exists a tr1, m tr = (Ok a, tr1) /\ k a tr1 = (Ok b, tr2).
Proof.
  unfold rbind. destruct (m tr) as [[a|e] tr1]; intros H; [eauto|discriminate].
Qed.

(** What a [read] that returns has done and what it returns. *)
Lemma read_ok_inv this table column_names query_info tr src tr' :
  read_ this table column_names query_info tr = (Ok src, tr') ->
  part_index src = 0 /\
  index_header src = StorageMergeTreeIndex.key_sample_block this /\
  with_marks src = StorageMergeTreeIndex.with_marks this /\
  getSampleBlockForColumns (StorageMergeTreeIndex.metadata_columns this) column_names =
    Ok (header src) /\
  data_parts src `sublist_of` StorageMergeTreeIndex.data_parts this /\
  getFilteredDataParts filterBlockWithQuery (StorageMergeTreeIndex.data_parts this)
    query_info [] =
    (Ok (data_parts src),
     match select_where (query query_info) with
     | Some _ => [FilterBlockWithQuery (map name (StorageMergeTreeIndex.data_parts this))]
     | None => []
     end) /\
  tr' =
    tr ++
    CheckAccess (getStorageID table)
      (columns_from_storage_ (getMetadataColumns table)
         (StorageMergeTreeIndex.with_marks this) column_names) ::
    match select_where (query query_info) with
    | Some _ =>
        [FilterEvent
           (FilterBlockWithQuery (map name (StorageMergeTreeIndex.data_parts this)))]
    | None => []
    end ++
    [LogDebug (StorageMergeTreeIndex.with_marks this) (length (data_parts src))
              (getStorageID table)].
Proof.
  unfold StorageMergeTreeIndex.read. intros H.
  apply rbind_ok_inv in H as (u & tr1 & Hcheck & H).
  apply rbind_ok_inv in Hcheck as (u0 & tr0 & Hemit & Hcheck).
  unfold remit in Hemit. inversion Hemit; subst. clear Hemit.
  unfold of_result in Hcheck.
  destruct (checkAccess _ _); unfold rret, rthrow in Hcheck; inversion Hcheck; subst.
  clear Hcheck.
  apply rbind_ok_inv in H as (h & tr2 & Hh & H).
  unfold of_result in Hh.
  destruct (getSampleBlockForColumns _ _) as [h0|e] eqn:Hsample;
    unfold rret, rthrow in Hh; inversion Hh; subst. clear Hh.
  apply rbind_ok_inv in H as (filtered & tr3 & Hf & H).
  unfold lift in Hf. inversion Hf as [[Hfst Htr3]]. clear Hf.
  apply rbind_ok_inv in H as (u1 & tr4 & Hlog & H).
  unfold remit in Hlog. inversion Hlog; subst. clear Hlog.
  unfold rret in H. inversion H; subst. clear H.
  cbn [part_index index_header with_marks header data_parts].
  rewrite getFilteredDataParts_run in Hfst |- *.
  split; [reflexivity|]. split; [reflexivity|]. split; [reflexivity|].
  split; [reflexivity|].
  destruct (select_where (query query_info)) as [w|].
  - destruct (filterBlockWithQuery _ _) as [rows|e]; cbn [fst snd] in *; [|discriminate].
    inversion Hfst; subst. split; [apply sublist_filter|]. split; [reflexivity|].
    cbn [map app]. rewrite <- !app_assoc. reflexivity.
  - cbn [fst snd] in *. inversion Hfst; subst. split; [reflexivity|].
    split; [reflexivity|]. cbn [map app]. rewrite <- !app_assoc. reflexivity.
Qed.

(** X17. A [read] that returns has made three calls and no other: the
    access check, the filter evaluator when the query has a WHERE
    expression, and the log, in this order.  It has created no mark loader
    and loaded no mark.  The source it returns starts at the first part,
    holds a sublist of the parts of the facade, the key of the facade as
    index header, the sample block of the requested names as header, and
    the marks flag of the facade. *)
Theorem read_returns_a_fresh_source this table column_names query_info tr src tr' :
  read_ this table column_names query_info tr = (Ok src, tr') ->
  part_index src = 0 /\
  index_header src = StorageMergeTreeIndex.key_sample_block this /\
  with_marks src = StorageMergeTreeIndex.with_marks this /\
  getSampleBlockForColumns (StorageMergeTreeIndex.metadata_columns this) column_names =
    Ok (header src) /\
  data_parts src `sublist_of` StorageMergeTreeIndex.data_parts this /\
  getFilteredDataParts filterBlockWithQuery (StorageMergeTreeIndex.data_parts this)
    query_info [] =
    (Ok (data_parts src),
     match select_where (query query_info) with
     | Some _ => [FilterBlockWithQuery (map name (StorageMergeTreeIndex.data_parts this))]
     | None => []
     end) /\
  tr' =
    tr ++
    CheckAccess (getStorageID table)
      (columns_from_storage_ (getMetadataColumns table)
         (StorageMergeTreeIndex.with_marks this) column_names) ::
    match select_where (query query_info) with
    | Some _ =>
        [FilterEvent
           (FilterBlockWithQuery (map name (StorageMergeTreeIndex.data_parts this)))]
    | None => []
    end ++
    [LogDebug (StorageMergeTreeIndex.with_marks this) (length (data_parts src))
              (getStorageID table)].
Proof. exact (read_ok_inv this table column_names query_info tr src tr'). Qed.

(** X18. The facade is built over MergeTree tables only: over another
    table the constructor throws BAD_ARGUMENTS with the name of the table's
    engine.  Over a MergeTree table it captures the parts and the key of
    the table as they are then, with the columns and the marks flag it is
    given.  Every later [read] reads those parts, whatever the table holds
    by the time of the [read]: the source it returns is over that key and
    over the parts the filter leaves of the captured ones, all of them, in
    their order, when the query has no WHERE expression; and such a read
    does return once access is granted and the header is built. *)
Theorem facade_reads_its_snapshot source_table columns wm :
  (forall storage_id engine_name table_columns,
     source_table = OtherStorage storage_id engine_name table_columns ->
     StorageMergeTreeIndex.create source_table columns wm =
     Throw (mkException BAD_ARGUMENTS
              ("Storage MergeTreeIndex expected MergeTree table, got: " +:+ engine_name))) /\
  (forall this,
     StorageMergeTreeIndex.create source_table columns wm = Ok this ->
     exists storage_id table_columns primary_key parts,
       source_table = MergeTreeData storage_id table_columns primary_key parts /\
       (forall table_now column_names query_info tr src tr',
          read_ this table_now column_names query_info tr = (Ok src, tr') ->
          data_parts src `sublist_of` parts /\
          index_header src = primary_key /\
          with_marks src = wm /\
          fst (getFilteredDataParts filterBlockWithQuery parts query_info []) =
            Ok (data_parts src) /\
          (select_where (query query_info) = None -> data_parts src = parts)) /\
       this = StorageMergeTreeIndex.mk parts primary_key wm columns /\
       (forall table_now column_names query_info tr h,
          checkAccess (getStorageID table_now)
            (columns_from_storage_ (getMetadataColumns table_now) wm column_names) = Ok tt ->
          getSampleBlockForColumns columns column_names = Ok h ->
          select_where (query query_info) = None ->
          read_ this table_now column_names query_info tr =
          (Ok (mkSource h primary_key parts wm 0),
           tr ++ [CheckAccess (getStorageID table_now)
                    (columns_from_storage_ (getMetadataColumns table_now) wm column_names);
                  LogDebug wm (length parts) (getStorageID table_now)]))).
Proof.
  split.
  - intros storage_id engine_name table_columns ->. reflexivity.
  - intros this Hc. destruct source_table as [id cols pk parts|id engine cols];
      simpl in Hc; inversion Hc; subst.
    exists id, cols, pk, parts. split; [reflexivity|]. split; [|split; [reflexivity|]].
    + intros table_now column_names query_info tr src tr' Hread.
      apply read_ok_inv in Hread as (_ & Hih & Hwm & _ & Hsub & Hf & _).
      cbn in Hih, Hwm, Hsub, Hf. rewrite Hf. cbn [fst].
      split; [exact Hsub|]. split; [exact Hih|]. split; [exact Hwm|].
      split; [reflexivity|]. intros Hw.
      rewrite getFilteredDataParts_run, Hw in Hf. now inversion Hf.
    + intros table_now column_names query_info tr h Haccess Hh Hw.
      unfold StorageMergeTreeIndex.read, rbind, remit, of_result, rret, rthrow, lift.
      cbn [StorageMergeTreeIndex.with_marks StorageMergeTreeIndex.metadata_columns
           StorageMergeTreeIndex.data_parts StorageMergeTreeIndex.key_sample_block].
      rewrite Haccess, Hh, getFilteredDataParts_run, Hw. cbn [fst snd map].
      rewrite app_nil_r, <- app_assoc. reflexivity.
Qed.

Lemma chunks_for_ok_inv h ih wm parts chunks :
  fst (chunks_for_ h ih wm parts) = Ok chunks ->
  chunks = map (chunk_fn_ h ih wm) parts /\
  Forall (fun part => exists chunk, fst (chunk_for_ h ih wm part) = Ok chunk) parts.
Proof.
  revert chunks. induction parts as [|part parts IH]; intros chunks; cbn [chunks_for].
  - intros H. inversion H. split; [reflexivity|constructor].
  - unfold chunk_fn at 1.
    destruct (chunk_for_ h ih wm part) as [[chunk|e] w] eqn:Hpart; [|discriminate].
    destruct (chunks_for_ h ih wm parts) as [[cs|e] w']; [|discriminate].
    cbn [fst]. intros H. inversion H; subst.
    destruct (IH cs eq_refl) as [-> Hall].
    split; [cbn [map]; unfold chunk_fn at 1; rewrite Hpart; reflexivity|].
    constructor; [exists chunk; now rewrite Hpart|exact Hall].
Qed.

Lemma chunks_for_all_ok h ih wm parts :
  Forall (fun part => exists chunk, fst (chunk_for_ h ih wm part) = Ok chunk) parts ->
  chunks_for_ h ih wm parts =
  (Ok (map (chunk_fn_ h ih wm) parts),
   concat (map (fun part => snd (chunk_for_ h ih wm part)) parts)).
Proof.
  induction 1 as [|part parts [chunk Hc] _ IH]; [reflexivity|].
  cbn [chunks_for map concat]. unfold chunk_fn at 1. rewrite IH.
  destruct (chunk_for_ h ih wm part) as [[c|e] w]; cbn [fst snd] in *; [|discriminate].
  reflexivity.
Qed.

(** X19. A filtered read returns, for each part that passes the filter,
    the chunk the read of all the parts returns for that part, in the same
    order: when the parts of the facade can all be read under the header of
    the source, the parts of the source [read] returns can, and their
    chunks and traces are those of the same parts in the full read. *)
Theorem filtered_read_returns_the_chunks_of_its_parts this table column_names query_info
    tr src tr' chunks s1 tr1 tr1' :
  read_ this table column_names query_info tr = (Ok src, tr') ->
  pull splitName unescapeForFileName getStreamNameOrHash getMark
       (length (StorageMergeTreeIndex.data_parts this))
       (mkSource (header src) (index_header src) (StorageMergeTreeIndex.data_parts this)
                 (with_marks src) 0) tr1 = (Ok (chunks, s1), tr1') ->
  let chunk_of := chunk_fn_ (header src) (index_header src) (with_marks src) in
  chunks = map chunk_of (StorageMergeTreeIndex.data_parts this) /\
  data_parts src `sublist_of` StorageMergeTreeIndex.data_parts this /\
  forall tr2,
    pull_ (length (data_parts src)) src tr2 =
    (Ok (map chunk_of (data_parts src),
         mkSource (header src) (index_header src) (data_parts src) (with_marks src)
                  (length (data_parts src))),
     tr2 ++ concat (map (fun part =>
                           snd (chunk_for_ (header src) (index_header src)
                                           (with_marks src) part))
                        (data_parts src))).
Proof.
  intros Hread Hfull chunk_of.
  apply read_ok_inv in Hread as (Hk & _ & _ & _ & Hsub & _).
  rewrite (pull_from_chunks splitName unescapeForFileName getStreamNameOrHash getMark
             _ _ _ (StorageMergeTreeIndex.data_parts this) _ 0 _ eq_refl), drop_0 in Hfull.
  destruct (fst (chunks_for_ (header src) (index_header src) (with_marks src)
                   (StorageMergeTreeIndex.data_parts this))) as [cs|e] eqn:Hcs;
    [|discriminate].
  inversion Hfull; subst. clear Hfull.
  apply chunks_for_ok_inv in Hcs as [-> Hall].
  split; [reflexivity|]. split; [exact Hsub|]. intros tr2.
  destruct src as [h ih ps wm k]. cbn [part_index header index_header data_parts with_marks] in *.
  subst k.
  rewrite (pull_from_chunks splitName unescapeForFileName getStreamNameOrHash getMark
             _ _ _ ps _ 0 _ eq_refl), drop_0.
  rewrite chunks_for_all_ok; [reflexivity|].
  rewrite Forall_forall in Hall |- *. intros part Hp. apply Hall.
  eapply elem_of_sublist; eassumption.
Qed.

End FacadeProperties.

(** * The further properties on the example table *)

(** The key column requested from [P5], whose stored index column has one
    row for three marks: the constructor of the chunk throws. *)
Lemma generate_throws_only_witness :
  example_generate (mkSource [column DataTypeUInt64 "id"] key_sample_block [P5] false 0) [] =
    (Throw (mkException LOGICAL_ERROR "Invalid number of rows in Chunk column"), []) /\
  exists c col,
    c ∈ [column DataTypeUInt64 "id"] /\
    column_of Nested_splitName unescape_plain stream_if_listed getMark_grid
      key_sample_block false P5 None c = Ok col /\
    column_size col <> 3.
Proof.
  assert (Hrun :
    example_generate (mkSource [column DataTypeUInt64 "id"] key_sample_block [P5] false 0) [] =
    (Throw (mkException LOGICAL_ERROR "Invalid number of rows in Chunk column"), []))
    by (vm_compute; reflexivity).
  split; [exact Hrun|].
  destruct (generate_throws_only Nested_splitName unescape_plain stream_if_listed getMark_grid
              _ _ _ _ Hrun)
    as (part & Hp & [(c & Hc & Hthrown)|(_ & _ & c & col & Hc & Hcol & Hsize & _)]);
    cbn in Hp; inversion Hp; subst part.
  - exfalso. cbn [header] in Hc. apply list_elem_of_singleton in Hc. subst c.
    vm_compute in Hthrown. destruct Hthrown as [_ Hcode]. discriminate.
  - exists c, col. split; [exact Hc|]. split; [exact Hcol|exact Hsize].
Defined.

(** The loader fails on granule 1 of the stream [v] of [P1], and on
    granule 0 it answers. *)
Lemma fillMarks_stops_at_first_failure_witness :
  fillMarks unescape_plain stream_if_listed getMark_fails_at_1 P1 None mark_type "v" [] =
  (Throw (mkException (OTHER_ERROR 33) "Cannot read all marks"),
   [CreateMarksLoader loader_P1_v; GetMark loader_P1_v 0 0; GetMark loader_P1_v 1 0]).
Proof.
  apply (proj1 (fillMarks_stops_at_first_failure unescape_plain stream_if_listed
                  getMark_fails_at_1 P1 mark_type "v" 1
                  (mkException (OTHER_ERROR 33) "Cannot read all marks")
                  (fun k => mkMark (N.of_nat (1000 * k)) 0) []) None "v").
  - reflexivity.
  - reflexivity.
  - vm_compute. lia.
  - intros k Hk. assert (k = 0) as -> by lia. reflexivity.
  - reflexivity.
Defined.

(** The chunk of the compact part [P2] under all the columns: one mark
    column has marks, one loader is created and one mark is loaded. *)
Lemma generate_loads_once_per_mark_witness :
  exists w,
    snd (example_generate (mkSource header_marks key_sample_block [P1; P2] true 1) []) =
      [] ++ w /\
    count_events is_query w = 1 /\ count_events is_create w = 1.
Proof.
  edestruct (generate_loads_once_per_mark Nested_splitName unescape_plain stream_if_listed
               getMark_grid header_marks key_sample_block [P1; P2] true 1 P2 [])
    as (w & Hw & Hq & Hc).
  - reflexivity.
  - vm_compute. reflexivity.
  - exists w. split; [|split].
    + rewrite <- Hw. vm_compute. reflexivity.
    + exact Hq.
    + exact Hc.
Defined.

(** Under a key with a component named [mark_number], the request of
    [mark_number] yields the stored index column. *)
Lemma key_component_takes_precedence_witness :
  generate_column Nested_splitName unescape_plain stream_if_listed getMark_grid
    key_with_mark_number true P4 None 2 (column DataTypeUInt64 "mark_number") [] =
  (Ok (ColumnString ["a"; "d"]), []).
Proof.
  apply (proj2 (proj2 (key_component_takes_precedence Nested_splitName unescape_plain
                         stream_if_listed getMark_grid key_with_mark_number
                         (column DataTypeUInt64 "mark_number") eq_refl))).
  reflexivity.
Defined.

(** The chunk of [P2] as second of two parts is its chunk read alone. *)
Lemma generate_depends_on_part_only_witness :
  example_generate (mkSource header_plain key_sample_block [P1; P2] false 1) [] =
  (Ok (mkChunk [ColumnUInt64 [40]%N; ColumnUInt64 [0]%N; ColumnUInt64 [5]%N;
                ColumnString ["P2"]] 1,
       mkSource header_plain key_sample_block [P1; P2] false 2), []).
Proof.
  exact (generate_depends_on_part_only Nested_splitName unescape_plain stream_if_listed
           getMark_grid header_plain key_sample_block false [P1; P2] 1 P2 [] eq_refl).
Defined.

(** Two more calls after the two parts were read. *)
Lemma exhausted_source_stays_exhausted_witness :
  example_pull 2 (mkSource header_plain key_sample_block [P1; P2] false 2) [] =
  (Ok ([empty_chunk; empty_chunk], mkSource header_plain key_sample_block [P1; P2] false 2),
   []).
Proof.
  apply (exhausted_source_stays_exhausted Nested_splitName unescape_plain stream_if_listed
           getMark_grid 2 (mkSource header_plain key_sample_block [P1; P2] false 2) []).
  simpl. lia.
Defined.

(** An expression the example evaluator keeps every row for. *)
Lemma filter_keeping_every_name_witness :
  exists tr',
    getFilteredDataParts filter_part_name_equals [P1; P2; P3]
      (mkSelectQueryInfo (ASTSelectQuery (Some (ASTLiteral (FieldUInt64 1))))) [] =
    (Ok [P1; P2; P3], tr').
Proof.
  apply (filter_keeping_every_name filter_part_name_equals [P1; P2; P3]
           (mkSelectQueryInfo (ASTSelectQuery (Some (ASTLiteral (FieldUInt64 1)))))
           ["P1"; "P2"; "P3"] []).
  - reflexivity.
  - intros part Hp. apply list_elem_of_fmap_2 with (f := name) in Hp. exact Hp.
Defined.

(** The rows [P2] and the rows [P2; P2] select the same parts. *)
Lemma filter_depends_on_surviving_set_witness :
  getFilteredDataParts filter_part_name_equals [P1; P2; P3] (select_part "P2") [] =
  getFilteredDataParts filter_equals_twice [P1; P2; P3] (select_part "P2") [].
Proof.
  apply (filter_depends_on_surviving_set filter_part_name_equals filter_equals_twice
           [P1; P2; P3] (select_part "P2") ["P2"] ["P2"; "P2"] []).
  - vm_compute. reflexivity.
  - vm_compute. reflexivity.
  - intros x. rewrite !elem_of_cons. tauto.
Defined.

(** The filter [part_name = 'P2'] over three parts of distinct names. *)
Lemma filter_returns_the_surviving_names_witness :
  exists result tr',
    getFilteredDataParts filter_part_name_equals [P1; P2; P3] (select_part "P2") [] =
      (Ok result, tr') /\
    map name result = ["P2"] /\ length result = 1.
Proof.
  eapply (filter_returns_the_surviving_names filter_part_name_equals [P1; P2; P3]
            (select_part "P2") _ ["P2"] []).
  - reflexivity.
  - vm_compute. reflexivity.
  - vm_compute. repeat constructor; rewrite ?elem_of_cons, ?elem_of_nil; intuition discriminate.
  - vm_compute. apply sublist_cons, sublist_skip, sublist_cons, sublist_nil.
Defined.

(** A failing evaluator, over no part at all. *)
Lemma filter_calls_evaluator_once_witness :
  snd (getFilteredDataParts filter_fails [] (select_part "P2") []) =
    [] ++ [FilterBlockWithQuery []] /\
  fst (getFilteredDataParts filter_fails [] (select_part "P2") []) =
    Throw (mkException (OTHER_ERROR 43) "Illegal type of argument").
Proof.
  destruct (filter_calls_evaluator_once filter_fails [] (select_part "P2")
              (ASTFunction "equals" [ASTIdentifier "part_name"; ASTLiteral (FieldString "P2")])
              [] eq_refl) as (Htrace & Hthrow & _).
  split; [exact Htrace|]. apply Hthrow. reflexivity.
Defined.

(** The marks of the column [secret] are requested: access is denied and
    nothing else is done. *)
Lemma read_checks_access_first_witness :
  example_read example_facade example_table ["id"; "secret.mark"] (select_part "P2") [] =
  (Throw (mkException (OTHER_ERROR 497) "Not enough privileges"),
   [] ++ [CheckAccess "db.t" ["id"; "secret"]]).
Proof.
  apply (proj1 (read_checks_access_first Nested_splitName unescape_plain
                  filter_part_name_equals has_column deny_secret sample_block
                  example_facade example_table ["id"; "secret.mark"] (select_part "P2") []
                  (mkException (OTHER_ERROR 497) "Not enough privileges"))).
  vm_compute. reflexivity.
Defined.

(** Of [v.mark], [part_name] and [id] the table columns [v] and [id] are
    checked, in this order. *)
Lemma read_checks_the_touched_columns_witness :
  "v" ∈ StorageMergeTreeIndex.columns_from_storage Nested_splitName unescape_plain
          has_column (getMetadataColumns example_table) true ["v.mark"; "part_name"; "id"] /\
  StorageMergeTreeIndex.columns_from_storage Nested_splitName unescape_plain
    has_column (getMetadataColumns example_table) true ["v.mark"; "part_name"; "id"] =
  ["v"; "id"].
Proof.
  destruct (read_checks_the_touched_columns Nested_splitName unescape_plain has_column
              (getMetadataColumns example_table) true ["v.mark"; "part_name"; "id"])
    as (_ & _ & _ & _ & Hmark & Happ & Hone).
  split.
  - apply (Hmark "v.mark"); [left|reflexivity|reflexivity|reflexivity|reflexivity].
  - rewrite (Happ ["v.mark"] ["part_name"; "id"] eq_refl), Hone. reflexivity.
Defined.

(** A read of [id] and [v.mark] under [part_name = 'P2']. *)
Lemma read_returns_a_fresh_source_witness :
  part_index (mkSource [column DataTypeUInt64 "id"; column mark_type "v.mark"]
                       key_sample_block [P2] true 0) = 0 /\
  [P2] `sublist_of` [P1; P2].
Proof.
  destruct (read_returns_a_fresh_source Nested_splitName unescape_plain
              filter_part_name_equals has_column deny_secret sample_block
              example_facade example_table ["id"; "v.mark"] (select_part "P2") []
              (mkSource [column DataTypeUInt64 "id"; column mark_type "v.mark"]
                        key_sample_block [P2] true 0)
              [CheckAccess "db.t" ["id"; "v"];
               FilterEvent (FilterBlockWithQuery ["P1"; "P2"]);
               LogDebug true 1 "db.t"])
    as (Hk & _ & _ & _ & Hsub & _).
  - vm_compute. reflexivity.
  - split; [exact Hk|exact Hsub].
Defined.

(** A facade over a table of the Memory engine, and the facade of the
    example table read after the table has lost its parts. *)
Lemma facade_reads_its_snapshot_witness :
  StorageMergeTreeIndex.create (OtherStorage "db.m" "Memory" []) example_columns true =
    Throw (mkException BAD_ARGUMENTS
             "Storage MergeTreeIndex expected MergeTree table, got: Memory") /\
  StorageMergeTreeIndex.create example_table example_columns true = Ok example_facade /\
  example_read example_facade example_table_no_parts ["id"; "v.mark"] select_all [] =
    (Ok (mkSource [column DataTypeUInt64 "id"; column mark_type "v.mark"] key_sample_block
                  [P1; P2] true 0),
     [CheckAccess "db.t" ["id"; "v"]; LogDebug true 2 "db.t"]).
Proof.
  split; [|split; [reflexivity|]].
  - apply (proj1 (facade_reads_its_snapshot Nested_splitName unescape_plain
                    filter_part_name_equals has_column deny_secret sample_block
                    (OtherStorage "db.m" "Memory" []) example_columns true)
             "db.m" "Memory" []).
    reflexivity.
  - destruct (proj2 (facade_reads_its_snapshot Nested_splitName unescape_plain
                       filter_part_name_equals has_column deny_secret sample_block
                       example_table example_columns true)
                example_facade eq_refl)
      as (id & cols & pk & parts & Htable & _ & _ & Hread).
    inversion Htable; subst.
    apply (Hread example_table_no_parts ["id"; "v.mark"] select_all []); reflexivity.
Defined.

(** The read of [id] and [mark_number] under [part_name = 'P2'] returns
    the chunk the full read returns for [P2]. *)
Lemma filtered_read_returns_the_chunks_of_its_parts_witness :
  example_pull 1
    (mkSource [column DataTypeUInt64 "id"; column DataTypeUInt64 "mark_number"]
              key_sample_block [P2] true 0) [] =
  (Ok ([mkChunk [ColumnUInt64 [40]%N; ColumnUInt64 [0]%N] 1],
       mkSource [column DataTypeUInt64 "id"; column DataTypeUInt64 "mark_number"]
                key_sample_block [P2] true 1),
   [CreateMarksLoader (mkLoader "P2" "data" 1 2)]).
Proof.
  destruct (filtered_read_returns_the_chunks_of_its_parts Nested_splitName unescape_plain
               stream_if_listed getMark_grid filter_part_name_equals has_column deny_secret
               sample_block example_facade example_table ["id"; "mark_number"]
               (select_part "P2") []
               (mkSource [column DataTypeUInt64 "id"; column DataTypeUInt64 "mark_number"]
                         key_sample_block [P2] true 0)
               [CheckAccess "db.t" ["id"]; FilterEvent (FilterBlockWithQuery ["P1"; "P2"]);
                LogDebug true 1 "db.t"]
               [mkChunk [ColumnUInt64 [10; 20; 30]%N; ColumnUInt64 [0; 1; 2]%N] 3;
                mkChunk [ColumnUInt64 [40]%N; ColumnUInt64 [0]%N] 1]
               (mkSource [column DataTypeUInt64 "id"; column DataTypeUInt64 "mark_number"]
                         key_sample_block [P1; P2] true 2)
               [] [CreateMarksLoader (mkLoader "P2" "data" 1 2)])
    as (_ & _ & Hpull).
  - vm_compute. reflexivity.
  - vm_compute. reflexivity.
  - exact (Hpull []).
Defined.
